(** * Flow AI Platform: the authentication service

    A shallow embedding of [backend/src/services/auth.py] (class
    [AuthService]), of the exception classes and handlers of
    [backend/src/core/exceptions.py], of the settings and validators of
    [backend/src/core/config.py], of the request wrapper and the metadata
    mixin of [backend/src/core/database.py], and of the endpoints of
    [backend/src/api/v1/endpoints/auth.py].

    Conventions.
    - Instants ([datetime]) and durations ([timedelta]) are integers: whole
      seconds, instants counted from the epoch.  A reading of the clock is
      the second it falls in, which is also what [jose] keeps of an instant
      when it writes and checks an [exp] claim.  The clock
      [datetime.utcnow()] and the generator [secrets.token_urlsafe] are
      explicit arguments ([now], [rnd]) of the operations that call them.
      The bounds of [datetime] (years 1 to 9999) are [datetime_min] and
      [datetime_max]; the [OverflowError] of an addition that leaves them is
      not represented, and a theorem about a lifetime chosen by the caller
      assumes that the expiry is a [datetime].
    - A Python [dict] of claims is a [gmap string JVal].
    - The database is a record of tables, each a list of rows in insertion
      order; the ORM session keeps a pending view and the persisted tables,
      [commit] copies the former to the latter, and the request wrapper
      [get_db] rolls the pending view back when the request raises.
    - The libraries the service calls are modelled by what their calls do:
      [select(T).where(p)] is the list of rows of [T] satisfying [p],
      [scalar_one_or_none] is the unique such row;
      [select(T).where(p).update(values)] raises [AttributeError], since a
      [Select] has no attribute [update];
      [jwt.encode] signs a claim set under a key, [jwt.decode] checks the
      algorithm and the signature and then validates the registered claims
      as [jose.jwt._validate_claims] does; and the bcrypt context is a pair
      of functions about which nothing is assumed. *)

From Stdlib Require Import ZArith Ascii String Lia.
From stdpp Require Import base decidable option list strings gmap pretty.

Local Open Scope string_scope.
Local Open Scope Z_scope.

(** ** Python values carried by a token payload *)

Inductive JVal : Type :=
| JNull
| JBool (b : bool)
| JInt (z : Z)
| JStr (s : string).

#[global] Instance JVal_eq_dec : EqDecision JVal.
Proof. solve_decision. Defined.

(** ** Exceptions ([core/exceptions.py]) *)

(** The subclasses of [FlowAIException] that the service raises, each with its
    message, and the exceptions of Python and of the ORM that the service lets
    escape. *)
Inductive Exception : Type :=
| AuthenticationError (message : string)
| ValidationError (message : string)
| NotFoundError (message : string)
| ConflictError (message : string)
| TypeError
| ValueError
| AttributeError
| MultipleResultsFound.

#[global] Instance Exception_eq_dec : EqDecision Exception.
Proof. solve_decision. Defined.

(** [status_code] as each constructor passes it to [FlowAIException.__init__];
    the last four are not [FlowAIException]s and carry none. *)
Definition status_code (e : Exception) : option Z :=
  match e with
  | AuthenticationError _ => Some 401
  | ValidationError _ => Some 422
  | NotFoundError _ => Some 404
  | ConflictError _ => Some 409
  | TypeError | ValueError | AttributeError | MultipleResultsFound => None
  end.

Definition error_code (e : Exception) : option string :=
  match e with
  | AuthenticationError _ => Some "AUTHENTICATION_ERROR"
  | ValidationError _ => Some "VALIDATION_ERROR"
  | NotFoundError _ => Some "NOT_FOUND"
  | ConflictError _ => Some "CONFLICT_ERROR"
  | TypeError | ValueError | AttributeError | MultipleResultsFound => None
  end.

(** The body of a JSON error response: [{"error": {"code", "message"}}]. *)
Record ErrorResponse : Type := mkErrorResponse {
  http_status : Z;
  err_code : string;
  err_message : string
}.

#[global] Instance ErrorResponse_eq_dec : EqDecision ErrorResponse.
Proof. solve_decision. Defined.

(** [setup_exception_handlers]: a [FlowAIException] goes to
    [flow_ai_exception_handler], anything else to
    [generic_exception_handler]. *)
Definition exception_handler (e : Exception) : ErrorResponse :=
  match e with
  | AuthenticationError m => mkErrorResponse 401 "AUTHENTICATION_ERROR" m
  | ValidationError m => mkErrorResponse 422 "VALIDATION_ERROR" m
  | NotFoundError m => mkErrorResponse 404 "NOT_FOUND" m
  | ConflictError m => mkErrorResponse 409 "CONFLICT_ERROR" m
  | TypeError | ValueError | AttributeError | MultipleResultsFound =>
      mkErrorResponse 500 "INTERNAL_ERROR" "An unexpected error occurred"
  end.

(** What a call produces: a value or a raised exception. *)
Inductive Outcome (A : Type) : Type :=
| Return (a : A)
| Raise (e : Exception).
Arguments Return {A} a.
Arguments Raise {A} e.

Definition succeeds {A} (o : Outcome A) : Prop :=
  match o with Return _ => True | Raise _ => False end.

(** ** Settings ([core/config.py]) *)

Record Settings : Type := mkSettings {
  JWT_SECRET : string;
  JWT_ALGORITHM : string;
  JWT_ACCESS_TOKEN_EXPIRE_MINUTES : Z;
  JWT_REFRESH_TOKEN_EXPIRE_DAYS : Z;
  PASSWORD_MIN_LENGTH : Z;
  PASSWORD_REQUIRE_UPPERCASE : bool;
  PASSWORD_REQUIRE_LOWERCASE : bool;
  PASSWORD_REQUIRE_NUMBERS : bool;
  PASSWORD_REQUIRE_SPECIAL : bool
}.

(** The defaults of [class Settings]; [JWT_SECRET] has none and comes from the
    environment. *)
Definition default_settings (secret : string) : Settings :=
  {| JWT_SECRET := secret;
     JWT_ALGORITHM := "HS256";
     JWT_ACCESS_TOKEN_EXPIRE_MINUTES := 30;
     JWT_REFRESH_TOKEN_EXPIRE_DAYS := 7;
     PASSWORD_MIN_LENGTH := 8;
     PASSWORD_REQUIRE_UPPERCASE := true;
     PASSWORD_REQUIRE_LOWERCASE := true;
     PASSWORD_REQUIRE_NUMBERS := true;
     PASSWORD_REQUIRE_SPECIAL := true |}.

Definition timedelta_minutes (m : Z) : Z := m * 60.
Definition timedelta_hours (h : Z) : Z := h * 3600.
Definition timedelta_days (d : Z) : Z := d * 86400.

(** [datetime.min] and [datetime.max], to the second: the first instant of
    year 1 and the last second of year 9999. *)
Definition datetime_min : Z := -62135596800.
Definition datetime_max : Z := 253402300799.

Definition is_datetime (t : Z) : Prop := datetime_min <= t <= datetime_max.

(** ** Python built-ins used by the service *)

Definition ascii_in (lo hi : N) (c : ascii) : bool :=
  (lo <=? N_of_ascii c)%N && (N_of_ascii c <=? hi)%N.

(** [str.isupper], [str.islower], [str.isdigit] on one ASCII character. *)
Definition isupper (c : ascii) : bool := ascii_in 65 90 c.
Definition islower (c : ascii) : bool := ascii_in 97 122 c.
Definition isdigit (c : ascii) : bool := ascii_in 48 57 c.

(** The characters [str.strip] and [int] treat as white space. *)
Definition isspace (c : ascii) : bool :=
  ascii_in 9 13 c || ascii_in 28 32 c.

Definition digit_value (c : ascii) : Z := Z.of_N (N_of_ascii c) - 48.

(** Digits of a decimal literal, single underscores allowed between digits. *)
Fixpoint int_digits (acc : Z) (after_digit : bool) (l : list ascii) : option Z :=
  match l with
  | [] => if after_digit then Some acc else None
  | c :: r =>
      if isdigit c then int_digits (10 * acc + digit_value c) true r
      else if Ascii.eqb c "_"%char
           then (if after_digit then int_digits acc false r else None)
           else None
  end.

Fixpoint lstrip (l : list ascii) : list ascii :=
  match l with
  | c :: r => if isspace c then lstrip r else l
  | [] => []
  end.

Definition strip (l : list ascii) : list ascii :=
  rev (lstrip (rev (lstrip l))).

(** [int(s)] for a string: white space around, an optional sign, decimal
    digits. *)
Definition int_of_str (s : string) : option Z :=
  match strip (list_ascii_of_string s) with
  | "-"%char :: r => Z.opp <$> int_digits 0 false r
  | "+"%char :: r => int_digits 0 false r
  | l => int_digits 0 false l
  end.

(** [int(v)]: [None] is a [TypeError], a string that is no integer literal a
    [ValueError]. *)
Definition py_int (v : JVal) : Outcome Z :=
  match v with
  | JNull => Raise TypeError
  | JBool b => Return (if b then 1 else 0)
  | JInt z => Return z
  | JStr s => match int_of_str s with
              | Some z => Return z
              | None => Raise ValueError
              end
  end.

(** [str(n)] for an integer. *)
Definition py_str (n : Z) : string := pretty n.

(** [dict.get(key)]: [None] when the key is absent. *)
Definition dict_get (d : gmap string JVal) (key : string) : JVal :=
  default JNull (d !! key).

(** [any(p(c) for c in s)]. *)
Definition any_char (p : ascii -> bool) (s : string) : bool :=
  existsb p (list_ascii_of_string s).

(** Python truthiness of an optional string: [None] and the empty string are
    false. *)
Definition truthy_str (s : option string) : bool :=
  match s with
  | Some s => negb (String.eqb s EmptyString)
  | None => false
  end.

(** ** The token primitive ([jose.jwt]) *)

Module jwt.

(** A token string, symbolically: either the compact serialisation of a
    claim set signed with [key] under [alg], or any other string. *)
Inductive Token : Type :=
| Signed (alg key : string) (claims : gmap string JVal)
| Opaque (raw : string).

(** The subclasses of [JWTError] that [decode] raises. *)
Inductive JWTError : Type :=
| DecodeError
| SignatureFailed
| ExpiredSignatureError
| JWTClaimsError.

(** What [decode] raises: a [JWTError], or the [TypeError] of [int(None)],
    which the validation of a time claim does not catch. *)
Inductive Raised : Type :=
| IsJWTError (e : JWTError)
| IsTypeError.

Definition encode (claims : gmap string JVal) (key alg : string) : Token :=
  Signed alg key claims.

(** [try: int(claims[name]) except ValueError: raise JWTClaimsError(...)] in
    the validation of [iat], [nbf] and [exp]. *)
Definition int_claim (v : JVal) : Raised + Z :=
  match py_int v with
  | Return z => inr z
  | Raise TypeError => inl IsTypeError
  | Raise _ => inl (IsJWTError JWTClaimsError)
  end.

(** The validators that [_validate_claims] runs, each with the error it
    raises, if any.  The service passes [decode] no audience, issuer,
    subject or access token. *)
Definition validate_iat (claims : gmap string JVal) : option Raised :=
  match claims !! "iat" with
  | None => None
  | Some v => match int_claim v with
              | inl e => Some e
              | inr _ => None
              end
  end.

Definition validate_nbf (claims : gmap string JVal) (now : Z)
    : option Raised :=
  match claims !! "nbf" with
  | None => None
  | Some v => match int_claim v with
              | inl e => Some e
              | inr nbf =>
                  if now <? nbf then Some (IsJWTError JWTClaimsError) else None
              end
  end.

Definition validate_exp (claims : gmap string JVal) (now : Z)
    : option Raised :=
  match claims !! "exp" with
  | None => None
  | Some v => match int_claim v with
              | inl e => Some e
              | inr exp =>
                  if exp <? now then Some (IsJWTError ExpiredSignatureError)
                  else None
              end
  end.

(** An [aud] claim is refused whatever it holds: as a value that is neither
    a string nor a list of strings, or because the audience expected,
    [None], is not among its strings. *)
Definition validate_aud (claims : gmap string JVal) : option Raised :=
  match claims !! "aud" with
  | None => None
  | Some _ => Some (IsJWTError JWTClaimsError)
  end.

(** [sub] and [jti] must be strings. *)
Definition validate_str (name : string) (claims : gmap string JVal)
    : option Raised :=
  match claims !! name with
  | None | Some (JStr _) => None
  | Some _ => Some (IsJWTError JWTClaimsError)
  end.

(** An [at_hash] claim is refused: there is no access token to compare it
    with. *)
Definition validate_at_hash (claims : gmap string JVal) : option Raised :=
  match claims !! "at_hash" with
  | None => None
  | Some _ => Some (IsJWTError JWTClaimsError)
  end.

(** [_validate_claims]: the validators in their order; the first error is
    the one raised.  The issuer is not validated when none is expected. *)
Definition validate_claims (claims : gmap string JVal) (now : Z)
    : option Raised :=
  foldr (fun check rest => match check with
                           | Some e => Some e
                           | None => rest
                           end) None
    [validate_iat claims; validate_nbf claims now; validate_exp claims now;
     validate_aud claims; validate_str "sub" claims;
     validate_str "jti" claims; validate_at_hash claims].

(** [decode] at instant [now]: the token must parse, its algorithm must be
    one of [algorithms], its signature must be the one [key] produces, and
    its claims must pass [_validate_claims]. *)
Definition decode (token : Token) (key : string) (algorithms : list string)
    (now : Z) : Raised + gmap string JVal :=
  match token with
  | Opaque _ => inl (IsJWTError DecodeError)
  | Signed alg k claims =>
      if negb (bool_decide (alg ∈ algorithms)) then inl (IsJWTError DecodeError)
      else if negb (String.eqb k key) then inl (IsJWTError SignatureFailed)
      else match validate_claims claims now with
           | Some e => inl e
           | None => inr claims
           end
  end.

End jwt.

(** ** Data model ([models/user.py], [models/organization.py]) *)

Inductive UserStatus : Type := PENDING | ACTIVE | SUSPENDED | DEACTIVATED.

#[global] Instance UserStatus_eq_dec : EqDecision UserStatus.
Proof. solve_decision. Defined.

Inductive UserRole : Type := ADMIN | USER.

#[global] Instance UserRole_eq_dec : EqDecision UserRole.
Proof. solve_decision. Defined.

(** [role.value] *)
Definition role_value (r : UserRole) : string :=
  match r with ADMIN => "admin" | USER => "user" end.

(** Modelled from the spec: the columns of [User] (section 3, "User"); the
    model class itself is not among the sources.  A nullable column is an
    [option]. *)
Record User : Type := mkUser {
  user_id_of : Z;
  email : string;
  password_hash : string;
  first_name : string;
  last_name : string;
  full_name : string;
  organization_id : option Z;
  role : UserRole;
  status : UserStatus;
  email_verified : bool;
  email_verified_at : option Z;
  verification_token : option string;
  password_reset_token : option string;
  password_reset_expires : option Z;
  password_changed_at : option Z;
  failed_login_count : Z;
  locked_until : option Z;
  last_login_at : option Z
}.

#[global] Instance User_eq_dec : EqDecision User.
Proof. solve_decision. Defined.

(** Modelled from the spec: the columns of [UserSession] (section 3,
    "Session"). *)
Record UserSession : Type := mkUserSession {
  session_id_of : Z;
  session_user_id : Z;
  session_token : string;
  ip_address : option string;
  user_agent : option string;
  expires_at : Z;
  is_active : bool;
  revoked_reason : option string
}.

#[global] Instance UserSession_eq_dec : EqDecision UserSession.
Proof. solve_decision. Defined.

(** Modelled from the spec: what [register_user] uses of [Organization]: its
    name, its slug and the count of its users. *)
Record Organization : Type := mkOrganization {
  org_id_of : Z;
  org_name : string;
  org_slug : string;
  user_count : Z
}.

#[global] Instance Organization_eq_dec : EqDecision Organization.
Proof. solve_decision. Defined.

(** Attribute assignments [user.f = v]. *)
Definition set_password_hash (v : string) (u : User) : User :=
  let 'mkUser a b _ d e f g h i j k l m n o p q r := u in
  mkUser a b v d e f g h i j k l m n o p q r.
Definition set_role (v : UserRole) (u : User) : User :=
  let 'mkUser a b c d e f g _ i j k l m n o p q r := u in
  mkUser a b c d e f g v i j k l m n o p q r.
Definition set_status (v : UserStatus) (u : User) : User :=
  let 'mkUser a b c d e f g h _ j k l m n o p q r := u in
  mkUser a b c d e f g h v j k l m n o p q r.
Definition set_email_verified (v : bool) (u : User) : User :=
  let 'mkUser a b c d e f g h i _ k l m n o p q r := u in
  mkUser a b c d e f g h i v k l m n o p q r.
Definition set_email_verified_at (v : option Z) (u : User) : User :=
  let 'mkUser a b c d e f g h i j _ l m n o p q r := u in
  mkUser a b c d e f g h i j v l m n o p q r.
Definition set_verification_token (v : option string) (u : User) : User :=
  let 'mkUser a b c d e f g h i j k _ m n o p q r := u in
  mkUser a b c d e f g h i j k v m n o p q r.
Definition set_password_reset_token (v : option string) (u : User) : User :=
  let 'mkUser a b c d e f g h i j k l _ n o p q r := u in
  mkUser a b c d e f g h i j k l v n o p q r.
Definition set_password_reset_expires (v : option Z) (u : User) : User :=
  let 'mkUser a b c d e f g h i j k l m _ o p q r := u in
  mkUser a b c d e f g h i j k l m v o p q r.
Definition set_password_changed_at (v : option Z) (u : User) : User :=
  let 'mkUser a b c d e f g h i j k l m n _ p q r := u in
  mkUser a b c d e f g h i j k l m n v p q r.
Definition set_failed_login_count (v : Z) (u : User) : User :=
  let 'mkUser a b c d e f g h i j k l m n o _ q r := u in
  mkUser a b c d e f g h i j k l m n o v q r.
Definition set_locked_until (v : option Z) (u : User) : User :=
  let 'mkUser a b c d e f g h i j k l m n o p _ r := u in
  mkUser a b c d e f g h i j k l m n o p v r.
Definition set_last_login_at (v : option Z) (u : User) : User :=
  let 'mkUser a b c d e f g h i j k l m n o p q _ := u in
  mkUser a b c d e f g h i j k l m n o p q v.

(** The values [{"is_active": False, "revoked_reason": r}], as they would
    apply to one row. *)
Definition revoke (reason : string) (s : UserSession) : UserSession :=
  {| session_id_of := session_id_of s;
     session_user_id := session_user_id s;
     session_token := session_token s;
     ip_address := ip_address s;
     user_agent := user_agent s;
     expires_at := expires_at s;
     is_active := false;
     revoked_reason := Some reason |}.

(** Modelled from the spec: [Organization.increment_usage("user")] counts one
    more user. *)
Definition increment_usage (o : Organization) : Organization :=
  {| org_id_of := org_id_of o;
     org_name := org_name o;
     org_slug := org_slug o;
     user_count := user_count o + 1 |}.

(** ** The database and the ORM session *)

Record Tables : Type := mkTables {
  users : list User;
  sessions : list UserSession;
  organizations : list Organization
}.

(** The next value of an auto-incremented primary key: rows are never
    deleted, so it is one more than the largest key in the table. *)
Definition next_id (ids : list Z) : Z := 1 + foldr Z.max 0 ids.

(** [select(T).where(p)] *)
Definition select_where {A} (p : A -> bool) (rows : list A) : list A :=
  List.filter p rows.

(** The rows after an UPDATE: every row that satisfies [p] takes the new
    values.  The session writes a loaded row back this way, by its key. *)
Definition update_where {A} (p : A -> bool) (values : A -> A) (rows : list A)
    : list A :=
  List.map (fun r => if p r then values r else r) rows.

(** [result.scalar_one_or_none()] *)
Definition scalar_one_or_none {A} (rows : list A) : Outcome (option A) :=
  match rows with
  | [] => Return None
  | [r] => Return (Some r)
  | _ :: _ :: _ => Raise MultipleResultsFound
  end.

(** An [AsyncSession]: the tables as the request sees them, and the tables as
    last committed. *)
Record AsyncSession : Type := mkAsyncSession {
  pending : Tables;
  persisted : Tables
}.

(** A service coroutine: it runs in a session and returns or raises. *)
Definition Svc (A : Type) : Type := AsyncSession -> AsyncSession * Outcome A.

Definition svc_ret {A} (a : A) : Svc A := fun s => (s, Return a).

Definition svc_bind {A B} (m : Svc A) (k : A -> Svc B) : Svc B :=
  fun s => match m s with
           | (s', Return a) => k a s'
           | (s', Raise e) => (s', Raise e)
           end.

Definition raise {A} (e : Exception) : Svc A := fun s => (s, Raise e).

#[global] Instance Svc_ret : MRet Svc := @svc_ret.
#[global] Instance Svc_bind : MBind Svc := fun A B k m => svc_bind m k.

(** [await db.execute(select(T).where(p))] followed by
    [scalar_one_or_none()], on the pending view of table [tbl]. *)
Definition execute_scalar {A} (tbl : Tables -> list A) (p : A -> bool)
    : Svc (option A) :=
  fun s => (s, scalar_one_or_none (select_where p (tbl (pending s)))).

(** A change of the pending view: an attribute assignment on a loaded row,
    or [db.add]. *)
Definition modify (f : Tables -> Tables) : Svc unit :=
  fun s => ({| pending := f (pending s); persisted := persisted s |}, Return tt).

(** The pending view itself, for the key a flushed row takes. *)
Definition pending_tables : Svc Tables := fun s => (s, Return (pending s)).

(** [await db.commit()] *)
Definition commit : Svc unit :=
  fun s => ({| pending := pending s; persisted := pending s |}, Return tt).

(** [get_db]: the request runs in a fresh session over the stored tables; the
    session is committed when the request returns and rolled back when it
    raises.  The result is the stored tables after the request, and what the
    request produced. *)
Definition get_db {A} (request : Svc A) (db : Tables) : Tables * Outcome A :=
  match request {| pending := db; persisted := db |} with
  | (s, Return a) => (pending s, Return a)
  | (s, Raise e) => (persisted s, Raise e)
  end.

(** The row of a loaded user, written back by primary key. *)
Definition store_user (u : User) (t : Tables) : Tables :=
  {| users := update_where (fun r => user_id_of r =? user_id_of u)
                           (fun _ => u) (users t);
     sessions := sessions t;
     organizations := organizations t |}.

Definition store_organization (o : Organization) (t : Tables) : Tables :=
  {| users := users t;
     sessions := sessions t;
     organizations := update_where (fun r => org_id_of r =? org_id_of o)
                                   (fun _ => o) (organizations t) |}.

(** [db.add(row)] for each table. *)
Definition add_user (u : User) (t : Tables) : Tables :=
  {| users := users t ++ [u];
     sessions := sessions t;
     organizations := organizations t |}.

Definition add_session (x : UserSession) (t : Tables) : Tables :=
  {| users := users t;
     sessions := sessions t ++ [x];
     organizations := organizations t |}.

Definition add_organization (o : Organization) (t : Tables) : Tables :=
  {| users := users t;
     sessions := sessions t;
     organizations := organizations t ++ [o] |}.

(** [await db.execute(select(T).where(p).update(values))]: the argument is
    evaluated first, and a [Select] has no attribute [update] (an UPDATE
    statement is built by [sqlalchemy.update]), so the attribute lookup raises
    [AttributeError]: nothing is executed, and [values] is never looked at. *)
Definition execute_select_update {A} (tbl : Tables -> list A) (p : A -> bool)
    (values : A -> A) : Svc unit :=
  raise AttributeError.

Definition lift_outcome {A} (o : Outcome A) : Svc A := fun s => (s, o).

(** ** Methods of the [User] model *)

Section UserModel.

(** The lock-out policy: the number of failed logins that locks an account
    and the length of the lock, in seconds. *)
Variables (MAX_FAILED_LOGINS LOCKOUT_SECONDS : Z).

(** Modelled from the spec: the property [User.is_locked], "locked_until in
    the future" (section 4.4, check 2). *)
Definition is_locked (u : User) (now : Z) : bool :=
  match locked_until u with
  | Some t => now <? t
  | None => false
  end.

(** Modelled from the spec: [User.increment_failed_login] adds one to
    [failed_login_count] (section 4.4, check 3) and locks the account once
    the policy's number of failures is reached (section 8). *)
Definition increment_failed_login (u : User) (now : Z) : User :=
  let n := failed_login_count u + 1 in
  let u := set_failed_login_count n u in
  if MAX_FAILED_LOGINS <=? n
  then set_locked_until (Some (now + LOCKOUT_SECONDS)) u
  else u.

(** Modelled from the spec: [User.update_login_tracking], "reset
    failure-tracking, record last_login_at" (section 4.4). *)
Definition update_login_tracking (u : User) (now : Z) : User :=
  set_last_login_at (Some now)
    (set_locked_until None (set_failed_login_count 0 u)).

(** Modelled from the spec: the property [User.is_verified],
    "email_verified must be true" (section 4.4, check 5). *)
Definition is_verified (u : User) : bool := email_verified u.

(** Modelled from the spec: the property [User.is_active_user], "require
    user active" (section 4.4, refresh). *)
Definition is_active_user (u : User) : bool :=
  bool_decide (status u = ACTIVE).

End UserModel.

(** ** [AuthService] ([services/auth.py]) *)

Section AuthService.

Variable settings : Settings.

(** [pwd_context = CryptContext(schemes=["bcrypt"])]: its two methods. *)
Variable pwd_context_hash : string -> string.
Variable pwd_context_verify : string -> string -> bool.

Variables (MAX_FAILED_LOGINS LOCKOUT_SECONDS : Z).

Definition hash_password (password : string) : string :=
  pwd_context_hash password.

Definition verify_password (plain_password hashed_password : string) : bool :=
  pwd_context_verify plain_password hashed_password.

(** The [if expires_delta: ... else: ...] of [create_access_token]:
    [expires_delta] is a number of whole seconds, and a zero [timedelta] is
    false in a condition, like [None].  The sum is the expiry when it is a
    [datetime]; outside the bounds of [datetime] the source raises
    [OverflowError], which is not represented here. *)
Definition access_expire (expires_delta : option Z) (now : Z) : Z :=
  match expires_delta with
  | Some d =>
      if d =? 0
      then now + timedelta_minutes (JWT_ACCESS_TOKEN_EXPIRE_MINUTES settings)
      else now + d
  | None =>
      now + timedelta_minutes (JWT_ACCESS_TOKEN_EXPIRE_MINUTES settings)
  end.

Definition create_access_token (data : gmap string JVal)
    (expires_delta : option Z) (now : Z) : jwt.Token :=
  let to_encode := data in
  let expire := access_expire expires_delta now in
  let to_encode := <["exp" := JInt expire]> to_encode in
  jwt.encode to_encode (JWT_SECRET settings) (JWT_ALGORITHM settings).

Definition create_refresh_token (user_id : Z) (now : Z) : jwt.Token :=
  let data : gmap string JVal :=
    <["sub" := JStr (py_str user_id)]>
      (<["type" := JStr "refresh"]>
         (<["exp" := JInt (now + timedelta_days
                                   (JWT_REFRESH_TOKEN_EXPIRE_DAYS settings))]>
            ∅)) in
  jwt.encode data (JWT_SECRET settings) (JWT_ALGORITHM settings).

Definition verify_token (token : jwt.Token) (now : Z)
    : Outcome (gmap string JVal) :=
  match jwt.decode token (JWT_SECRET settings) [JWT_ALGORITHM settings] now with
  | inr payload => Return payload
  | inl (jwt.IsJWTError _) => Raise (AuthenticationError "Invalid token")
  | inl jwt.IsTypeError => Raise TypeError
  end.

Definition special_characters : string := "!@#$%^&*()_+-=[]{}|;:,.<>?".

Definition validate_password_strength (password : string) : Outcome unit :=
  if Z.of_nat (String.length password) <? PASSWORD_MIN_LENGTH settings
  then Raise (ValidationError
                ("Password must be at least "
                 +:+ py_str (PASSWORD_MIN_LENGTH settings)
                 +:+ " characters long"))
  else if PASSWORD_REQUIRE_UPPERCASE settings
          && negb (any_char isupper password)
  then Raise (ValidationError
                "Password must contain at least one uppercase letter")
  else if PASSWORD_REQUIRE_LOWERCASE settings
          && negb (any_char islower password)
  then Raise (ValidationError
                "Password must contain at least one lowercase letter")
  else if PASSWORD_REQUIRE_NUMBERS settings
          && negb (any_char isdigit password)
  then Raise (ValidationError "Password must contain at least one number")
  else if PASSWORD_REQUIRE_SPECIAL settings
          && negb (any_char
                     (fun c => existsb (Ascii.eqb c)
                                 (list_ascii_of_string special_characters))
                     password)
  then Raise (ValidationError
                "Password must contain at least one special character")
  else Return tt.

(** [str.lower] on one ASCII character. *)
Definition lower (c : ascii) : ascii :=
  if isupper c then ascii_of_N (N_of_ascii c + 32) else c.

(** [re.sub(r'\s+', '-', s)] *)
Fixpoint hyphenate (in_space : bool) (l : list ascii) : list ascii :=
  match l with
  | [] => []
  | c :: r =>
      if isspace c
      then (if in_space then hyphenate true r
            else "-"%char :: hyphenate true r)
      else c :: hyphenate false r
  end.

Fixpoint lstrip_char (x : ascii) (l : list ascii) : list ascii :=
  match l with
  | c :: r => if Ascii.eqb c x then lstrip_char x r else l
  | [] => []
  end.

(** [secrets.token_hex(4)] is the argument [suffix]. *)
Definition generate_org_slug (name suffix : string) : string :=
  let lowered := List.map lower (list_ascii_of_string name) in
  let kept :=
    List.filter
      (fun c => islower c || isupper c || isdigit c || isspace c
                || Ascii.eqb c "-"%char) lowered in
  let slug := hyphenate false kept in
  let slug := rev (lstrip_char "-"%char (rev (lstrip_char "-"%char slug))) in
  string_of_list_ascii slug +:+ "-" +:+ suffix.

(** The claims of an access token, as [authenticate_user] and
    [refresh_access_token] build them. *)
Definition access_token_data (user : User) : gmap string JVal :=
  <["sub" := JStr (py_str (user_id_of user))]>
    (<["email" := JStr (email user)]>
       (<["role" := JStr (role_value (role user))]>
          (<["org_id" := match organization_id user with
                         | Some i => JInt i
                         | None => JNull
                         end]> ∅))).

(** [db.add(session)]: the row takes the next key of its table. *)
Definition add_new_session (mk : Z -> UserSession) (t : Tables) : Tables :=
  add_session (mk (next_id (List.map session_id_of (sessions t)))) t.

(** [rnd] is the value of [secrets.token_urlsafe(32)]. *)
Definition authenticate_user (email' password : string)
    (ip_address' user_agent' : option string) (now : Z) (rnd : string)
    : Svc (User * jwt.Token * jwt.Token) :=
  user ← execute_scalar users (fun u => String.eqb (email u) email');
  match user with
  | None => raise (AuthenticationError "Invalid email or password")
  | Some user =>
      if is_locked user now
      then raise (AuthenticationError
             "Account is temporarily locked due to failed login attempts")
      else if negb (verify_password password (password_hash user))
      then
        let user :=
          increment_failed_login MAX_FAILED_LOGINS LOCKOUT_SECONDS user now in
        modify (store_user user);;
        commit;;
        raise (AuthenticationError "Invalid email or password")
      else if negb (bool_decide (status user = ACTIVE))
      then raise (AuthenticationError "Account is not active")
      else if negb (is_verified user)
      then raise (AuthenticationError "Email address not verified")
      else
        let user := update_login_tracking user now in
        modify (store_user user);;
        let access_token :=
          create_access_token (access_token_data user) None now in
        let refresh_token := create_refresh_token (user_id_of user) now in
        modify (add_new_session (fun i =>
          {| session_id_of := i;
             session_user_id := user_id_of user;
             session_token := rnd;
             ip_address := ip_address';
             user_agent := user_agent';
             expires_at :=
               now + timedelta_days (JWT_REFRESH_TOKEN_EXPIRE_DAYS settings);
             is_active := true;
             revoked_reason := None |}));;
        commit;;
        mret (user, access_token, refresh_token)
  end.

(** The organization of a registration: the stored one of that name, or a
    new one, added and flushed so that it has its key. *)
Definition find_or_create_organization (organization_name suffix : string)
    : Svc Organization :=
  organization ← execute_scalar organizations
                   (fun o => String.eqb (org_name o) organization_name);
  match organization with
  | Some o => mret o
  | None =>
      t ← pending_tables;
      let o :=
        {| org_id_of := next_id (List.map org_id_of (organizations t));
           org_name := organization_name;
           org_slug := generate_org_slug organization_name suffix;
           user_count := 0 |} in
      modify (add_organization o);;
      mret o
  end.

(** [rnd] is the value of [secrets.token_urlsafe(32)], [suffix] that of
    [secrets.token_hex(4)]. *)
Definition register_user (email' password first_name' last_name' : string)
    (organization_name : option string) (rnd suffix : string) : Svc User :=
  existing_user ← execute_scalar users
                    (fun u => String.eqb (email u) email');
  match existing_user with
  | Some _ => raise (ValidationError "Email address already registered")
  | None =>
      lift_outcome (validate_password_strength password);;
      let password_hash' := hash_password password in
      organization ←
        (if truthy_str organization_name
         then o ← find_or_create_organization
                    (default EmptyString organization_name) suffix;
              mret (Some o)
         else mret None);
      let is_first :=
        match organization with
        | Some o => user_count o =? 0
        | None => false
        end in
      match organization with
      | Some o => modify (store_organization (increment_usage o))
      | None => mret tt
      end;;
      t ← pending_tables;
      let user :=
          {| user_id_of := next_id (List.map user_id_of (users t));
             email := email';
             password_hash := password_hash';
             first_name := first_name';
             last_name := last_name';
             full_name :=
               string_of_list_ascii
                 (strip (list_ascii_of_string
                           (first_name' +:+ " " +:+ last_name')));
             organization_id := org_id_of <$> organization;
             role := if is_first then ADMIN else USER;
             status := PENDING;
             email_verified := false;
             email_verified_at := None;
             verification_token := Some rnd;
             password_reset_token := None;
             password_reset_expires := None;
             password_changed_at := None;
             failed_login_count := 0;
             locked_until := None;
             last_login_at := None |} in
      modify (add_user user);;
      commit;;
      mret user
  end.

Definition verify_email (token : string) (now : Z) : Svc User :=
  user ← execute_scalar users
           (fun u => bool_decide (verification_token u = Some token));
  match user with
  | None => raise (NotFoundError "Invalid verification token")
  | Some user =>
      let user := set_email_verified true user in
      let user := set_email_verified_at (Some now) user in
      let user := set_verification_token None user in
      let user := set_status ACTIVE user in
      modify (store_user user);;
      commit;;
      mret user
  end.

Definition request_password_reset (email' : string) (now : Z) (rnd : string)
    : Svc User :=
  user ← execute_scalar users (fun u => String.eqb (email u) email');
  match user with
  | None =>
      raise (NotFoundError
        "If this email is registered, you will receive reset instructions")
  | Some user =>
      let user := set_password_reset_token (Some rnd) user in
      let user :=
        set_password_reset_expires (Some (now + timedelta_hours 1)) user in
      modify (store_user user);;
      commit;;
      mret user
  end.

Definition reset_password (token new_password : string) (now : Z)
    : Svc User :=
  user ← execute_scalar users
           (fun u => bool_decide (password_reset_token u = Some token));
  match user with
  | None => raise (NotFoundError "Invalid reset token")
  | Some user =>
      match password_reset_expires user with
      | None => raise TypeError
      | Some expires =>
          if expires <? now
          then raise (ValidationError "Reset token has expired")
          else
            lift_outcome (validate_password_strength new_password);;
            let user := set_password_hash (hash_password new_password) user in
            let user := set_password_reset_token None user in
            let user := set_password_reset_expires None user in
            let user := set_password_changed_at (Some now) user in
            modify (store_user user);;
            execute_select_update sessions
              (fun x => session_user_id x =? user_id_of user)
              (revoke "password_reset");;
            commit;;
            mret user
      end
  end.

(** The [try] block of [refresh_access_token]: a [JWTError] of
    [jwt.decode] becomes an [AuthenticationError]; a [TypeError] of
    [jwt.decode], what [int] raises, and the [AuthenticationError] of the
    type check pass through. *)
Definition refresh_claims (refresh_token : jwt.Token) (now : Z) : Outcome Z :=
  match jwt.decode refresh_token (JWT_SECRET settings)
          [JWT_ALGORITHM settings] now with
  | inl (jwt.IsJWTError _) => Raise (AuthenticationError "Invalid refresh token")
  | inl jwt.IsTypeError => Raise TypeError
  | inr payload =>
      match py_int (dict_get payload "sub") with
      | Raise e => Raise e
      | Return user_id =>
          let token_type := dict_get payload "type" in
          if negb (bool_decide (token_type = JStr "refresh"))
          then Raise (AuthenticationError "Invalid token type")
          else Return user_id
      end
  end.

Definition refresh_access_token (refresh_token : jwt.Token) (now : Z)
    : Svc (jwt.Token * jwt.Token) :=
  user_id ← lift_outcome (refresh_claims refresh_token now);
  user ← execute_scalar users (fun u => user_id_of u =? user_id);
  match user with
  | None => raise (AuthenticationError "User not found or inactive")
  | Some user =>
      if negb (is_active_user user)
      then raise (AuthenticationError "User not found or inactive")
      else
        let new_access_token :=
          create_access_token (access_token_data user) None now in
        let new_refresh_token := create_refresh_token (user_id_of user) now in
        mret (new_access_token, new_refresh_token)
  end.

Definition logout_user (user_id : Z) (session_token' : option string)
    : Svc unit :=
  (if truthy_str session_token'
   then execute_select_update sessions
          (fun x => (session_user_id x =? user_id)
                    && bool_decide (Some (session_token x) = session_token'))
          (revoke "user_logout")
   else execute_select_update sessions
          (fun x => session_user_id x =? user_id)
          (revoke "user_logout"));;
  commit.

(** ** The [/auth/refresh] endpoint ([api/v1/endpoints/auth.py]) *)

(** [TokenResponse]: [token_type] and [expires_in] take their defaults. *)
Record TokenResponse : Type := mkTokenResponse {
  access_token : jwt.Token;
  refresh_token_of : jwt.Token;
  token_type : string;
  expires_in : Z
}.

(** The endpoint with its [get_db] dependency and the application's
    exception handlers: the stored tables after the request, and the
    response. *)
Definition refresh_token (token_data : jwt.Token) (now : Z) (db : Tables)
    : Tables * (ErrorResponse + TokenResponse) :=
  match get_db (refresh_access_token token_data now) db with
  | (db', Return (a, r)) => (db', inr (mkTokenResponse a r "bearer" 1800))
  | (db', Raise e) => (db', inl (exception_handler e))
  end.

End AuthService.


(** ** The order of the login checks, as the specification lists it *)

(** The five checks of [authenticate] (section 4.4), in their order. *)
Inductive LoginCheck : Type :=
| UserExists
| NotLocked
| PasswordVerifies
| StatusActive
| EmailVerified.

#[global] Instance LoginCheck_eq_dec : EqDecision LoginCheck.
Proof. solve_decision. Defined.

Definition login_checks : list LoginCheck :=
  [UserExists; NotLocked; PasswordVerifies; StatusActive; EmailVerified].

(** Whether a login attempt passes one check; an attempt for which no user
    exists passes none. *)
Definition check_passes (verify : string -> string -> bool)
    (c : LoginCheck) (user : option User) (password : string) (now : Z)
    : bool :=
  match user with
  | None => false
  | Some u =>
      match c with
      | UserExists => true
      | NotLocked => negb (is_locked u now)
      | PasswordVerifies => verify password (password_hash u)
      | StatusActive => bool_decide (status u = ACTIVE)
      | EmailVerified => email_verified u
      end
  end.

(** The first check of the list that the attempt violates, if any. *)
Definition first_violated (verify : string -> string -> bool)
    (user : option User) (password : string) (now : Z) : option LoginCheck :=
  List.find (fun c => negb (check_passes verify c user password now))
            login_checks.

(** The message each check fails with. *)
Definition check_message (c : LoginCheck) : string :=
  match c with
  | UserExists | PasswordVerifies => "Invalid email or password"
  | NotLocked => "Account is temporarily locked due to failed login attempts"
  | StatusActive => "Account is not active"
  | EmailVerified => "Email address not verified"
  end.

(** ** Sequences of service operations *)

(** One call of the service by a request, with the arguments of the call. *)
Inductive Operation : Type :=
| OpRegister (email' password first_name' last_name' : string)
    (organization_name : option string) (rnd suffix : string)
| OpAuthenticate (email' password : string)
    (ip_address' user_agent' : option string) (now : Z) (rnd : string)
| OpVerifyEmail (token : string) (now : Z)
| OpRequestPasswordReset (email' : string) (now : Z) (rnd : string)
| OpResetPassword (token new_password : string) (now : Z)
| OpRefresh (refresh_token : jwt.Token) (now : Z)
| OpLogout (user_id : Z) (session_token' : option string).

Section Run.

Variable settings : Settings.
Variable pwd_context_hash : string -> string.
Variable pwd_context_verify : string -> string -> bool.
Variables (MAX_FAILED_LOGINS LOCKOUT_SECONDS : Z).

(** The stored tables after one request. *)
Definition run_operation (op : Operation) (db : Tables) : Tables :=
  match op with
  | OpRegister e p f l o r x =>
      fst (get_db (register_user settings pwd_context_hash e p f l o r x) db)
  | OpAuthenticate e p i a n r =>
      fst (get_db (authenticate_user settings pwd_context_verify
                     MAX_FAILED_LOGINS LOCKOUT_SECONDS e p i a n r) db)
  | OpVerifyEmail t n => fst (get_db (verify_email t n) db)
  | OpRequestPasswordReset e n r =>
      fst (get_db (request_password_reset e n r) db)
  | OpResetPassword t p n =>
      fst (get_db (reset_password settings pwd_context_hash t p n) db)
  | OpRefresh t n => fst (get_db (refresh_access_token settings t n) db)
  | OpLogout u t => fst (get_db (logout_user u t) db)
  end.

(** The stored tables after a sequence of requests, first to last. *)
Definition run_operations (ops : list Operation) (db : Tables) : Tables :=
  fold_left (fun t op => run_operation op t) ops db.

End Run.

(** ** The rows a successful call leaves *)

(** The user row as the four assignments of [reset_password] leave it in the
    session, in their order. *)
Definition after_reset (pwd_context_hash : string -> string)
    (new_password : string) (now : Z) (u : User) : User :=
  set_password_changed_at (Some now)
    (set_password_reset_expires None
       (set_password_reset_token None
          (set_password_hash (hash_password pwd_context_hash new_password) u))).

(** The user row as [verify_email] leaves it. *)
Definition after_verify_email (now : Z) (u : User) : User :=
  set_status ACTIVE
    (set_verification_token None
       (set_email_verified_at (Some now) (set_email_verified true u))).

(** The claim sets whose registered claims other than [exp] pass the
    validation of [jwt.decode] at [now]: [iat] and [nbf], when present,
    convert to an integer, and [nbf] is not in the future; [sub] and [jti],
    when present, are strings; there is no [aud] and no [at_hash] claim. *)
Definition registered_claims_valid (claims : gmap string JVal) (now : Z)
    : Prop :=
  (forall v, claims !! "iat" = Some v -> exists z, py_int v = Return z)
  /\ (forall v, claims !! "nbf" = Some v ->
      exists z, py_int v = Return z /\ z <= now)
  /\ claims !! "aud" = None
  /\ (forall v, claims !! "sub" = Some v -> exists s, v = JStr s)
  /\ (forall v, claims !! "jti" = Some v -> exists s, v = JStr s)
  /\ claims !! "at_hash" = None.

(** The expiry of a claim set has not passed at [now]: its [exp] claim, when
    present, converts to an integer that is not before [now]. *)
Definition expiry_not_passed (claims : gmap string JVal) (now : Z) : Prop :=
  forall v, claims !! "exp" = Some v -> exists e, py_int v = Return e /\ now <= e.

(** The outcome of [refresh_access_token], from the users table alone. *)
Definition refresh_outcome (settings : Settings) (token : jwt.Token) (now : Z)
    (rows : list User) : Outcome (jwt.Token * jwt.Token) :=
  match refresh_claims settings token now with
  | Raise e => Raise e
  | Return user_id =>
      match scalar_one_or_none
              (select_where (fun u => user_id_of u =? user_id) rows) with
      | Raise e => Raise e
      | Return None => Raise (AuthenticationError "User not found or inactive")
      | Return (Some u) =>
          if is_active_user u
          then Return (create_access_token settings (access_token_data u)
                         None now,
                       create_refresh_token settings (user_id_of u) now)
          else Raise (AuthenticationError "User not found or inactive")
      end
  end.

(** ** Session rows over time *)

(** Two states of one session row: the same key, owner and token. *)
Definition same_session (x x' : UserSession) : Prop :=
  session_id_of x' = session_id_of x
  /\ session_user_id x' = session_user_id x
  /\ session_token x' = session_token x.

(** From [t] to [t'] every session row stays at its position in the table,
    remains the same session, and stays inactive if it was inactive. *)
Definition sessions_kept (t t' : Tables) : Prop :=
  forall (i : nat) (x : UserSession),
    sessions t !! i = Some x ->
    exists x', sessions t' !! i = Some x'
               /\ same_session x x'
               /\ (is_active x = false -> is_active x' = false).

(** A coroutine keeps the sessions of [t0] when both views of the session it
    runs in do so afterwards, provided they did before. *)
Definition keeps {A} (m : Svc A) : Prop :=
  forall (t0 : Tables) (s s' : AsyncSession) (o : Outcome A),
    sessions_kept t0 (pending s) -> sessions_kept t0 (persisted s) ->
    m s = (s', o) ->
    sessions_kept t0 (pending s') /\ sessions_kept t0 (persisted s').

(** ** A small database to evaluate the service on *)

Module Sample.

Definition settings : Settings := default_settings "server-secret".

Definition bcrypt_hash (password : string) : string := "$2b$12$" +:+ password.

Definition bcrypt_verify (plain hashed : string) : bool :=
  String.eqb hashed (bcrypt_hash plain).

(** An active, verified user who holds a reset token that expires at 5000. *)
Definition alice : User :=
  {| user_id_of := 1;
     email := "alice@example.com";
     password_hash := bcrypt_hash "Secr3t!A";
     first_name := "Alice";
     last_name := "A";
     full_name := "Alice A";
     organization_id := None;
     role := USER;
     status := ACTIVE;
     email_verified := true;
     email_verified_at := Some 100;
     verification_token := None;
     password_reset_token := Some "reset-alice";
     password_reset_expires := Some 5000;
     password_changed_at := None;
     failed_login_count := 0;
     locked_until := None;
     last_login_at := None |}.

(** An active, verified user whose account is locked until 9000. *)
Definition bob : User :=
  {| user_id_of := 2;
     email := "bob@example.com";
     password_hash := bcrypt_hash "Passw0rd!B";
     first_name := "Bob";
     last_name := "B";
     full_name := "Bob B";
     organization_id := None;
     role := USER;
     status := ACTIVE;
     email_verified := true;
     email_verified_at := Some 100;
     verification_token := None;
     password_reset_token := None;
     password_reset_expires := None;
     password_changed_at := None;
     failed_login_count := 5;
     locked_until := Some 9000;
     last_login_at := None |}.

(** A freshly registered user: pending, with a verification token. *)
Definition carol : User :=
  {| user_id_of := 3;
     email := "carol@example.com";
     password_hash := bcrypt_hash "Str0ng#Cc";
     first_name := "Carol";
     last_name := "C";
     full_name := "Carol C";
     organization_id := None;
     role := USER;
     status := PENDING;
     email_verified := false;
     email_verified_at := None;
     verification_token := Some "verify-carol";
     password_reset_token := None;
     password_reset_expires := None;
     password_changed_at := None;
     failed_login_count := 0;
     locked_until := None;
     last_login_at := None |}.

Definition session (i user : Z) (token : string) (active : bool)
    (reason : option string) : UserSession :=
  {| session_id_of := i;
     session_user_id := user;
     session_token := token;
     ip_address := None;
     user_agent := None;
     expires_at := 700000;
     is_active := active;
     revoked_reason := reason |}.

Definition db : Tables :=
  {| users := [alice; bob; carol];
     sessions := [session 1 1 "s-1" true None;
                  session 2 1 "s-2" false (Some "expired");
                  session 3 2 "s-3" true None];
     organizations := [] |}.

Definition authenticate := authenticate_user settings bcrypt_verify 5 900.

End Sample.


(** * The rest of the code *)

(** ** [try: ... except Exception as e: raise err] *)

(** Every exception of the model is an [Exception] of Python, so the handler
    replaces whatever the body raises. *)
Definition except_exception {A} (body : Svc A) (err : Exception) : Svc A :=
  fun s => match body s with
           | (s', Return a) => (s', Return a)
           | (s', Raise _) => (s', Raise err)
           end.

(** ** The other endpoints ([api/v1/endpoints/auth.py]) *)

(** [MessageResponse]: [success] takes its default. *)
Record MessageResponse : Type := mkMessageResponse {
  message : string;
  success : bool
}.

(** [AuthResponse]: [UserResponse.from_orm(user)] reads columns of the user
    row, and is kept here as the row. *)
Record AuthResponse : Type := mkAuthResponse {
  user : User;
  tokens : TokenResponse
}.

(** An endpoint's answer: the handlers turn a raised exception into an error
    response. *)
Definition respond {A} (r : Tables * Outcome A)
    : Tables * (ErrorResponse + A) :=
  match r with
  | (db, Return a) => (db, inr a)
  | (db, Raise e) => (db, inl (exception_handler e))
  end.

Module Endpoints.

Section Endpoints.

Variable settings : Settings.
Variable pwd_context_hash : string -> string.
Variable pwd_context_verify : string -> string -> bool.
Variables (MAX_FAILED_LOGINS LOCKOUT_SECONDS : Z).

Local Abbreviation AuthService_register_user :=
  (register_user settings pwd_context_hash).
Local Abbreviation AuthService_authenticate_user :=
  (authenticate_user settings pwd_context_verify
     MAX_FAILED_LOGINS LOCKOUT_SECONDS).
Local Abbreviation AuthService_logout_user := logout_user.
Local Abbreviation AuthService_verify_email := verify_email.
Local Abbreviation AuthService_request_password_reset := request_password_reset.
Local Abbreviation AuthService_reset_password :=
  (reset_password settings pwd_context_hash).

(** [POST /register]: the user is registered and then logged in by the same
    request.  [rnd] and [suffix] are the random values of the registration,
    [session_rnd] that of the login. *)
Definition register_user (email' password first_name' last_name' : string)
    (organization_name ip_address' user_agent' : option string)
    (now : Z) (rnd suffix session_rnd : string) (db : Tables)
    : Tables * (ErrorResponse + AuthResponse) :=
  respond (get_db
    (_ ← AuthService_register_user email' password first_name' last_name'
           organization_name rnd suffix;
     r ← AuthService_authenticate_user email' password ip_address'
           user_agent' now session_rnd;
     let '(user, access_token, refresh_token) := r in
     mret (mkAuthResponse user
             (mkTokenResponse access_token refresh_token "bearer" 1800)))
    db).

(** [POST /login] *)
Definition login_user (email' password : string)
    (ip_address' user_agent' : option string) (now : Z) (session_rnd : string)
    (db : Tables) : Tables * (ErrorResponse + AuthResponse) :=
  respond (get_db
    (r ← AuthService_authenticate_user email' password ip_address'
           user_agent' now session_rnd;
     let '(user, access_token, refresh_token) := r in
     mret (mkAuthResponse user
             (mkTokenResponse access_token refresh_token "bearer" 1800)))
    db).

(** [POST /logout]: [credentials] is the bearer token of the request. *)
Definition logout_user (credentials : jwt.Token) (now : Z) (db : Tables)
    : Tables * (ErrorResponse + MessageResponse) :=
  respond (get_db
    (except_exception
       (payload ← lift_outcome (verify_token settings credentials now);
        user_id ← lift_outcome (py_int (dict_get payload "sub"));
        AuthService_logout_user user_id None;;
        mret (mkMessageResponse "Successfully logged out" true))
       (AuthenticationError "Failed to logout"))
    db).

(** [POST /verify-email] *)
Definition verify_email (token : string) (now : Z) (db : Tables)
    : Tables * (ErrorResponse + MessageResponse) :=
  respond (get_db
    (_ ← AuthService_verify_email token now;
     mret (mkMessageResponse "Email verified successfully" true))
    db).

(** [POST /password-reset-request] *)
Definition request_password_reset (email' : string) (now : Z) (rnd : string)
    (db : Tables) : Tables * (ErrorResponse + MessageResponse) :=
  respond (get_db
    (AuthService_request_password_reset email' now rnd;;
     mret (mkMessageResponse
             "If this email is registered, you will receive reset instructions"
             true))
    db).

(** [POST /password-reset-confirm] *)
Definition confirm_password_reset (token new_password : string) (now : Z)
    (db : Tables) : Tables * (ErrorResponse + MessageResponse) :=
  respond (get_db
    (_ ← AuthService_reset_password token new_password now;
     mret (mkMessageResponse "Password reset successfully" true))
    db).

(** [GET /me] *)
Definition get_current_user (credentials : jwt.Token) (now : Z) (db : Tables)
    : Tables * (ErrorResponse + User) :=
  respond (get_db
    (except_exception
       (payload ← lift_outcome (verify_token settings credentials now);
        user_id ← lift_outcome (py_int (dict_get payload "sub"));
        user ← execute_scalar users (fun u => user_id_of u =? user_id);
        match user with
        | None => raise (AuthenticationError "User not found or inactive")
        | Some user =>
            if negb (is_active_user user)
            then raise (AuthenticationError "User not found or inactive")
            else mret user
        end)
       (AuthenticationError "Invalid authentication credentials"))
    db).

End Endpoints.

End Endpoints.

(** ** Settings validators ([core/config.py]) *)

Module config.

(** [str.upper] on one ASCII character; [lower] is its counterpart. *)
Definition upper (c : ascii) : ascii :=
  if islower c then ascii_of_N (N_of_ascii c - 32) else c.

Definition str_upper (s : string) : string :=
  string_of_list_ascii (List.map upper (list_ascii_of_string s)).

Definition str_lower (s : string) : string :=
  string_of_list_ascii (List.map lower (list_ascii_of_string s)).

Definition valid_levels : list string :=
  ["DEBUG"; "INFO"; "WARNING"; "ERROR"; "CRITICAL"].

Definition validate_log_level (v : string) : Outcome string :=
  if negb (bool_decide (str_upper v ∈ valid_levels))
  then Raise ValueError
  else Return (str_upper v).

Definition valid_envs : list string :=
  ["development"; "staging"; "production"].

Definition validate_environment (v : string) : Outcome string :=
  if negb (bool_decide (str_lower v ∈ valid_envs))
  then Raise ValueError
  else Return (str_lower v).

(** The properties [is_development] and [is_production], of the validated
    [ENVIRONMENT]. *)
Definition is_development (environment : string) : bool :=
  String.eqb environment "development".

Definition is_production (environment : string) : bool :=
  String.eqb environment "production".

(** [str.split(sep)] for a one-character separator. *)
Fixpoint split (sep : ascii) (l : list ascii) : list (list ascii) :=
  match l with
  | [] => [[]]
  | c :: r =>
      if Ascii.eqb c sep then [] :: split sep r
      else match split sep r with
           | h :: t => (c :: h) :: t
           | [] => [[c]]
           end
  end.

(** What an environment variable can hold before validation. *)
Inductive RawValue : Type :=
| RawStr (s : string)
| RawList (l : list string)
| RawOther.

Definition startswith_bracket (s : string) : bool :=
  match s with
  | String c _ => Ascii.eqb c "["%char
  | EmptyString => false
  end.

(** The validators [assemble_cors_origins] and [assemble_file_types], which
    have one body. *)
Definition assemble_cors_origins (v : RawValue) : Outcome RawValue :=
  match v with
  | RawStr s =>
      if negb (startswith_bracket s)
      then Return (RawList
             (List.map (fun i => string_of_list_ascii (strip i))
                       (split ","%char (list_ascii_of_string s))))
      else Return v
  | RawList _ => Return v
  | RawOther => Raise ValueError
  end.

End config.

(** ** Models ([core/database.py]) *)

Module database.

(** [engine_kwargs["poolclass"] = NullPool] is set when this holds. *)
Definition uses_null_pool (environment : string) : bool :=
  String.eqb environment "test".

(** [MetadataMixin]: the column may hold [None]. *)
Definition set_metadata (metadata_ : option (gmap string JVal))
    (key : string) (value : JVal) : option (gmap string JVal) :=
  let metadata_ := match metadata_ with
                   | None => ∅
                   | Some m => m
                   end in
  Some (<[key := value]> metadata_).

Definition get_metadata (metadata_ : option (gmap string JVal))
    (key : string) (default' : JVal) : JVal :=
  match metadata_ with
  | None => default'
  | Some m => default default' (m !! key)
  end.

(** [if self.metadata_ and key in self.metadata_: del ...]; an empty dict is
    false in the condition. *)
Definition remove_metadata (metadata_ : option (gmap string JVal))
    (key : string) : option (gmap string JVal) :=
  match metadata_ with
  | None => None
  | Some m =>
      if negb (bool_decide (m = ∅)) && bool_decide (is_Some (m !! key))
      then Some (delete key m)
      else Some m
  end.

End database.

(** ** What a coroutine can raise, and when it commits *)

(** Every exception the coroutine can raise satisfies [P]. *)
Definition raises_only {A} (P : Exception -> Prop) (m : Svc A) : Prop :=
  forall (s s' : AsyncSession) (e : Exception), m s = (s', Raise e) -> P e.

(** The coroutine never commits. *)
Definition never_commits {A} (m : Svc A) : Prop :=
  forall (s s' : AsyncSession) (o : Outcome A),
    m s = (s', o) -> persisted s' = persisted s.

(** The coroutine has committed nothing when it raises. *)
Definition commits_only_on_return {A} (m : Svc A) : Prop :=
  forall (s s' : AsyncSession) (e : Exception),
    m s = (s', Raise e) -> persisted s' = persisted s.

(** A session table extended: the rows of [l0], followed by new rows that
    are all active. *)
Definition extended (l0 l : list UserSession) : Prop :=
  exists new, l = (l0 ++ new)%list /\ Forall (fun x => is_active x = true) new.

(** The coroutine preserves a relation between a session table [l0] and the
    session tables of both views of the session it runs in. *)
Definition preserves {A} (P : list UserSession -> list UserSession -> Prop)
    (m : Svc A) : Prop :=
  forall (l0 : list UserSession) (s s' : AsyncSession) (o : Outcome A),
    P l0 (sessions (pending s)) -> P l0 (sessions (persisted s)) ->
    m s = (s', o) ->
    P l0 (sessions (pending s')) /\ P l0 (sessions (persisted s')).

(** The row [register_user] builds with [User(...)] and the role it then
    assigns; [id] is the key the row takes when it is added. *)
Definition registered_user (pwd_context_hash : string -> string)
    (email' password first_name' last_name' : string)
    (organization_id' : option Z) (role' : UserRole) (rnd : string) (id : Z)
    : User :=
  {| user_id_of := id;
     email := email';
     password_hash := hash_password pwd_context_hash password;
     first_name := first_name';
     last_name := last_name';
     full_name :=
       string_of_list_ascii
         (strip (list_ascii_of_string (first_name' +:+ " " +:+ last_name')));
     organization_id := organization_id';
     role := role';
     status := PENDING;
     email_verified := false;
     email_verified_at := None;
     verification_token := Some rnd;
     password_reset_token := None;
     password_reset_expires := None;
     password_changed_at := None;
     failed_login_count := 0;
     locked_until := None;
     last_login_at := None |}.

(** The row [register_user] builds for an organization that does not exist
    yet. *)
Definition new_organization (name suffix : string) (id : Z) : Organization :=
  {| org_id_of := id;
     org_name := name;
     org_slug := generate_org_slug name suffix;
     user_count := 0 |}.

(** The session row a successful login adds. *)
Definition login_session (settings : Settings) (user_id : Z)
    (ip_address' user_agent' : option string) (now : Z) (rnd : string) (id : Z)
    : UserSession :=
  {| session_id_of := id;
     session_user_id := user_id;
     session_token := rnd;
     ip_address := ip_address';
     user_agent := user_agent';
     expires_at := now + timedelta_days (JWT_REFRESH_TOKEN_EXPIRE_DAYS settings);
     is_active := true;
     revoked_reason := None |}.

(** The user row as [request_password_reset] leaves it. *)
Definition after_reset_request (now : Z) (rnd : string) (u : User) : User :=
  set_password_reset_expires (Some (now + timedelta_hours 1))
    (set_password_reset_token (Some rnd) u).

(** When the coroutine returns, everything it changed is committed. *)
Definition returns_committed {A} (m : Svc A) : Prop :=
  forall (s s' : AsyncSession) (a : A),
    m s = (s', Return a) -> persisted s' = pending s'.

(** The two error responses of the endpoints that catch every exception:
    what the handlers make of the [AuthenticationError] they raise. *)
Definition failed_to_logout : ErrorResponse :=
  {| http_status := 401;
     err_code := "AUTHENTICATION_ERROR";
     err_message := "Failed to logout" |}.

Definition invalid_credentials : ErrorResponse :=
  {| http_status := 401;
     err_code := "AUTHENTICATION_ERROR";
     err_message := "Invalid authentication credentials" |}.

(** The name of the class of an exception. *)
Definition exception_class (e : Exception) : string :=
  match e with
  | AuthenticationError _ => "AuthenticationError"
  | ValidationError _ => "ValidationError"
  | NotFoundError _ => "NotFoundError"
  | ConflictError _ => "ConflictError"
  | TypeError => "TypeError"
  | ValueError => "ValueError"
  | AttributeError => "AttributeError"
  | MultipleResultsFound => "MultipleResultsFound"
  end.

Definition raised {A} (o : Outcome A) : option Exception :=
  match o with
  | Return _ => None
  | Raise e => Some e
  end.

Section OperationOutcome.

Variable settings : Settings.
Variable pwd_context_hash : string -> string.
Variable pwd_context_verify : string -> string -> bool.
Variables (MAX_FAILED_LOGINS LOCKOUT_SECONDS : Z).

(** The exception one request raises, if it raises. *)
Definition operation_exception (op : Operation) (db : Tables)
    : option Exception :=
  match op with
  | OpRegister e p f l o r x =>
      raised (snd (get_db (register_user settings pwd_context_hash
                             e p f l o r x) db))
  | OpAuthenticate e p i a n r =>
      raised (snd (get_db (authenticate_user settings pwd_context_verify
                             MAX_FAILED_LOGINS LOCKOUT_SECONDS e p i a n r) db))
  | OpVerifyEmail t n => raised (snd (get_db (verify_email t n) db))
  | OpRequestPasswordReset e n r =>
      raised (snd (get_db (request_password_reset e n r) db))
  | OpResetPassword t p n =>
      raised (snd (get_db (reset_password settings pwd_context_hash t p n) db))
  | OpRefresh t n =>
      raised (snd (get_db (refresh_access_token settings t n) db))
  | OpLogout u t => raised (snd (get_db (logout_user u t) db))
  end.

End OperationOutcome.

(** The classes of exception each operation of the service can raise, read
    off its [raise] statements and the calls it does not guard. *)
Definition may_raise (op : Operation) : list string :=
  match op with
  | OpRegister _ _ _ _ _ _ _ => ["ValidationError"; "MultipleResultsFound"]
  | OpAuthenticate _ _ _ _ _ _ =>
      ["AuthenticationError"; "MultipleResultsFound"]
  | OpVerifyEmail _ _ => ["NotFoundError"; "MultipleResultsFound"]
  | OpRequestPasswordReset _ _ _ => ["NotFoundError"; "MultipleResultsFound"]
  | OpResetPassword _ _ _ =>
      ["NotFoundError"; "ValidationError"; "TypeError"; "AttributeError";
       "MultipleResultsFound"]
  | OpRefresh _ _ =>
      ["AuthenticationError"; "TypeError"; "ValueError"; "MultipleResultsFound"]
  | OpLogout _ _ => ["AttributeError"]
  end.

Definition is_login (op : Operation) : bool :=
  match op with
  | OpAuthenticate _ _ _ _ _ _ => true
  | _ => false
  end.

(** The value of a list of decimal digits, most significant first. *)
Definition digits_value (acc : Z) (l : list ascii) : Z :=
  fold_left (fun a c => 10 * a + digit_value c) l acc.


(** * Properties *)

(** Unfolds the session monad down to the tables. *)
Ltac svc_unfold :=
  unfold get_db, mbind, Svc_bind, svc_bind, mret, Svc_ret, svc_ret, raise,
    modify, commit, execute_scalar, lift_outcome, pending_tables.

Lemma select_where_elem {A} (p : A -> bool) (rows : list A) (r : A) :
  r ∈ select_where p rows <-> r ∈ rows /\ p r = true.
Proof.
  unfold select_where. rewrite !list_elem_of_In, filter_In. tauto.
Qed.

Lemma select_where_single {A} (p : A -> bool) (rows : list A) (r : A) :
  select_where p rows = [r] -> r ∈ rows /\ p r = true.
Proof.
  intros H. apply select_where_elem. rewrite H. apply list_elem_of_here.
Qed.

Lemma select_where_none {A} (p : A -> bool) (rows : list A) :
  (forall r, r ∈ rows -> p r = false) -> select_where p rows = [].
Proof.
  intros H. destruct (select_where p rows) as [|r l] eqn:E; [done|].
  assert (Hr : r ∈ select_where p rows) by (rewrite E; apply list_elem_of_here).
  apply select_where_elem in Hr as [Hin Hp]. rewrite (H r Hin) in Hp. done.
Qed.

(** [flow_ai_exception_handler] answers with the status and the code the
    exception was constructed with. *)
Lemma exception_handler_status (e : Exception) (c : Z) (k : string) :
  status_code e = Some c -> error_code e = Some k ->
  http_status (exception_handler e) = c /\ err_code (exception_handler e) = k.
Proof. destruct e; cbn; intros [= <-] [= <-]; by split. Qed.

(** ** Registration *)

Section RegisterProperties.

Variable settings : Settings.
Variable pwd_context_hash : string -> string.

(** C1, as amended.  A registration whose email is the email of a stored user
    raises [ValidationError("Email address already registered")], which the
    handlers answer with status 422 and code [VALIDATION_ERROR], whatever the
    other fields of the request are (the password is not looked at), and it
    leaves the stored tables as they were. *)
Theorem register_user_duplicate_email :
  forall (db : Tables) (email' password first_name' last_name' : string)
         (organization_name : option string) (rnd suffix : string) (u : User),
    select_where (fun r => String.eqb (email r) email') (users db) = [u] ->
    get_db (register_user settings pwd_context_hash email' password
              first_name' last_name' organization_name rnd suffix) db
    = (db, Raise (ValidationError "Email address already registered"))
    /\ exception_handler (ValidationError "Email address already registered")
       = {| http_status := 422;
            err_code := "VALIDATION_ERROR";
            err_message := "Email address already registered" |}.
Proof.
  intros db email' password fn ln org rnd suffix u Hsel.
  split; [|reflexivity].
  unfold register_user. svc_unfold. cbn [pending persisted].
  rewrite Hsel. reflexivity.
Qed.

End RegisterProperties.

(** The amended C1 at the sample database: Alice's email, a password that
    fails the strength policy. *)
Lemma register_user_duplicate_email_witness :
  get_db (register_user Sample.settings Sample.bcrypt_hash
            "alice@example.com" "weak" "Al" "Ice" None "tok" "0a1b2c3d")
         Sample.db
  = (Sample.db, Raise (ValidationError "Email address already registered"))
  /\ exception_handler (ValidationError "Email address already registered")
     = {| http_status := 422;
          err_code := "VALIDATION_ERROR";
          err_message := "Email address already registered" |}.
Proof.
  apply (register_user_duplicate_email Sample.settings Sample.bcrypt_hash
           Sample.db "alice@example.com" "weak" "Al" "Ice" None "tok"
           "0a1b2c3d" Sample.alice).
  reflexivity.
Defined.

(** C1 as stated fails: registering Alice's email again, with a password that
    satisfies the policy, raises a [ValidationError], not a [ConflictError],
    and the response status is 422, not 409. *)
Lemma register_user_duplicate_is_not_conflict :
  let r := get_db (register_user Sample.settings Sample.bcrypt_hash
                     "alice@example.com" "Secr3t!A" "Al" "Ice" None "tok"
                     "0a1b2c3d") Sample.db in
  select_where (fun r => String.eqb (email r) "alice@example.com")
               (users Sample.db) = [Sample.alice]
  /\ snd r = Raise (ValidationError "Email address already registered")
  /\ (forall m, snd r <> Raise (ConflictError m))
  /\ http_status
       (exception_handler (ValidationError "Email address already registered"))
     = 422.
Proof.
  vm_compute. repeat split. intros m; discriminate.
Qed.

(** ** Tokens *)

Lemma int_claim_inr (v : JVal) (z : Z) :
  jwt.int_claim v = inr z <-> py_int v = Return z.
Proof.
  unfold jwt.int_claim.
  destruct (py_int v) as [z'|e]; [|destruct e]; split; intros [=]; by subst.
Qed.

Lemma validate_iat_spec (claims : gmap string JVal) :
  jwt.validate_iat claims = None
  <-> forall v, claims !! "iat" = Some v -> exists z, py_int v = Return z.
Proof.
  unfold jwt.validate_iat. destruct (claims !! "iat") as [v|]; [|by split].
  destruct (jwt.int_claim v) as [e|z] eqn:Hv; split.
  - discriminate.
  - intros H. destruct (H v eq_refl) as [z Hz].
    apply int_claim_inr in Hz. congruence.
  - intros _ v' [= <-]. exists z. by apply int_claim_inr.
  - done.
Qed.

Lemma validate_nbf_spec (claims : gmap string JVal) (now : Z) :
  jwt.validate_nbf claims now = None
  <-> forall v, claims !! "nbf" = Some v ->
        exists z, py_int v = Return z /\ z <= now.
Proof.
  unfold jwt.validate_nbf. destruct (claims !! "nbf") as [v|]; [|by split].
  destruct (jwt.int_claim v) as [e|z] eqn:Hv.
  - split; [discriminate|]. intros H. destruct (H v eq_refl) as (z & Hz & _).
    apply int_claim_inr in Hz. congruence.
  - apply int_claim_inr in Hv. destruct (Z.ltb_spec now z) as [Hlt|Hge]; split.
    + discriminate.
    + intros Hall. destruct (Hall v eq_refl) as (z' & Hz & Hle).
      assert (z' = z) by congruence. lia.
    + intros _ v' [= <-]. by exists z.
    + done.
Qed.

Lemma validate_exp_spec (claims : gmap string JVal) (now : Z) :
  jwt.validate_exp claims now = None <-> expiry_not_passed claims now.
Proof.
  unfold jwt.validate_exp, expiry_not_passed.
  destruct (claims !! "exp") as [v|]; [|by split].
  destruct (jwt.int_claim v) as [e|z] eqn:Hv.
  - split; [discriminate|]. intros H. destruct (H v eq_refl) as (z & Hz & _).
    apply int_claim_inr in Hz. congruence.
  - apply int_claim_inr in Hv. destruct (Z.ltb_spec z now) as [Hlt|Hge]; split.
    + discriminate.
    + intros Hall. destruct (Hall v eq_refl) as (z' & Hz & Hle).
      assert (z' = z) by congruence. lia.
    + intros _ v' [= <-]. by exists z.
    + done.
Qed.

Lemma validate_str_spec (name : string) (claims : gmap string JVal) :
  jwt.validate_str name claims = None
  <-> forall v, claims !! name = Some v -> exists s, v = JStr s.
Proof.
  unfold jwt.validate_str. destruct (claims !! name) as [[| | |s]|]; split;
    try discriminate; try done.
  - intros H. by destruct (H _ eq_refl).
  - intros H. by destruct (H _ eq_refl).
  - intros H. by destruct (H _ eq_refl).
  - intros _ v [= <-]. by exists s.
Qed.

(** The validation of a claim set passes exactly when its registered claims
    are valid and its expiry has not passed. *)
Lemma validate_claims_spec (claims : gmap string JVal) (now : Z) :
  jwt.validate_claims claims now = None
  <-> registered_claims_valid claims now /\ expiry_not_passed claims now.
Proof.
  unfold registered_claims_valid.
  rewrite <- validate_iat_spec, <- validate_nbf_spec, <- validate_exp_spec,
    <- !validate_str_spec.
  unfold jwt.validate_claims, jwt.validate_aud, jwt.validate_at_hash.
  cbn [foldr].
  destruct (jwt.validate_iat claims); [by intuition|].
  destruct (jwt.validate_nbf claims now); [by intuition|].
  destruct (jwt.validate_exp claims now); [by intuition|].
  destruct (claims !! "aud"); [by intuition|].
  destruct (jwt.validate_str "sub" claims); [by intuition|].
  destruct (jwt.validate_str "jti" claims); [by intuition|].
  destruct (claims !! "at_hash"); by intuition.
Qed.

(** With valid registered claims, the validation raises what the validation
    of [exp] raises. *)
Lemma validate_claims_registered (claims : gmap string JVal) (now : Z) :
  registered_claims_valid claims now ->
  jwt.validate_claims claims now = jwt.validate_exp claims now.
Proof.
  intros (Hiat & Hnbf & Haud & Hsub & Hjti & Hhash).
  apply validate_iat_spec in Hiat. apply validate_nbf_spec in Hnbf.
  apply validate_str_spec in Hsub. apply validate_str_spec in Hjti.
  unfold jwt.validate_claims, jwt.validate_aud, jwt.validate_at_hash.
  cbn [foldr]. rewrite Hiat, Hnbf, Haud, Hsub, Hjti, Hhash.
  by destruct (jwt.validate_exp claims now).
Qed.

(** The [exp] claim is none of the other registered claims. *)
Lemma registered_claims_valid_exp (claims : gmap string JVal) (v : JVal)
    (now : Z) :
  registered_claims_valid (<["exp" := v]> claims) now
  <-> registered_claims_valid claims now.
Proof.
  unfold registered_claims_valid. by rewrite !lookup_insert_ne by done.
Qed.

Lemma validate_exp_insert (claims : gmap string JVal) (e now : Z) :
  jwt.validate_exp (<["exp" := JInt e]> claims) now
  = if e <? now then Some (jwt.IsJWTError jwt.ExpiredSignatureError) else None.
Proof. unfold jwt.validate_exp. by rewrite lookup_insert_eq. Qed.

Section TokenProperties.

Variable settings : Settings.

Lemma decode_own_token (claims : gmap string JVal) (now : Z) :
  jwt.decode (jwt.encode claims (JWT_SECRET settings) (JWT_ALGORITHM settings))
             (JWT_SECRET settings) [JWT_ALGORITHM settings] now
  = match jwt.validate_claims claims now with
    | Some e => inl e
    | None => inr claims
    end.
Proof.
  unfold jwt.decode, jwt.encode.
  rewrite bool_decide_eq_true_2 by apply list_elem_of_here.
  rewrite String.eqb_refl. reflexivity.
Qed.

(** A token that decodes under the server's secret is signed with it, under
    the server's algorithm, and its claims pass the validation. *)
Lemma decode_accepts (token : jwt.Token) (now : Z) (payload : gmap string JVal) :
  jwt.decode token (JWT_SECRET settings) [JWT_ALGORITHM settings] now
  = inr payload
  <-> token = jwt.Signed (JWT_ALGORITHM settings) (JWT_SECRET settings) payload
      /\ registered_claims_valid payload now
      /\ expiry_not_passed payload now.
Proof.
  split.
  - destruct token as [alg key claims|raw]; [|discriminate]. cbn [jwt.decode].
    destruct (decide (alg ∈ [JWT_ALGORITHM settings])) as [Halg|Halg].
    2:{ by rewrite bool_decide_eq_false_2. }
    rewrite bool_decide_eq_true_2 by done. cbn [negb].
    apply list_elem_of_singleton in Halg.
    destruct (String.eqb_spec key (JWT_SECRET settings)); [|discriminate].
    cbn [negb].
    destruct (jwt.validate_claims claims now) eqn:Hv; [discriminate|].
    intros [= <-]. split; [by subst|]. by apply validate_claims_spec.
  - intros (-> & Hvalid). apply validate_claims_spec in Hvalid.
    fold (jwt.encode payload (JWT_SECRET settings) (JWT_ALGORITHM settings)).
    by rewrite decode_own_token, Hvalid.
Qed.

(** What [jwt.decode] makes of a token of [create_access_token] whose data
    has valid registered claims. *)
Lemma decode_access_token (data : gmap string JVal) (expires_delta : option Z)
    (now now' : Z) :
  registered_claims_valid data now' ->
  jwt.decode (create_access_token settings data expires_delta now)
             (JWT_SECRET settings) [JWT_ALGORITHM settings] now'
  = if access_expire settings expires_delta now <? now'
    then inl (jwt.IsJWTError jwt.ExpiredSignatureError)
    else inr (<["exp" := JInt (access_expire settings expires_delta now)]> data).
Proof.
  intros Hvalid. unfold create_access_token. cbv zeta.
  rewrite decode_own_token, validate_claims_registered
    by (by apply registered_claims_valid_exp).
  rewrite validate_exp_insert.
  by destruct (_ <? _).
Qed.

(** C4, as amended.  Take a claim set whose registered claims the library
    accepts ([sub] and [jti] strings, [iat] and [nbf] integers with [nbf] not
    in the future, no [aud] and no [at_hash]) and a lifetime that keeps the
    expiry a [datetime].  The token [create_access_token] makes of it
    verifies, at any instant that its expiry has not passed, to the claims
    with the [exp] claim set to the expiry, and no token of
    [create_access_token] verifies to anything else or for any other claim
    set.  Once the expiry has passed, [verify_token] raises
    [AuthenticationError("Invalid token")]; it raises the same exception for
    a token signed with another key and for a string that is no token, so the
    exception does not tell expiry apart. *)
Theorem access_token_round_trip :
  forall (data : gmap string JVal) (expires_delta : option Z) (now now' : Z),
    let token := create_access_token settings data expires_delta now in
    let expire := access_expire settings expires_delta now in
    is_datetime now ->
    is_datetime expire ->
    (registered_claims_valid data now' ->
     (now' <= expire ->
      verify_token settings token now'
      = Return (<["exp" := JInt expire]> data))
     /\ (expire < now' ->
         verify_token settings token now'
         = Raise (AuthenticationError "Invalid token")))
    /\ (forall payload,
          verify_token settings token now' = Return payload ->
          registered_claims_valid data now'
          /\ now' <= expire
          /\ payload = <["exp" := JInt expire]> data)
    /\ (forall alg key claims,
          key <> JWT_SECRET settings ->
          verify_token settings (jwt.Signed alg key claims) now'
          = Raise (AuthenticationError "Invalid token"))
    /\ (forall raw,
          verify_token settings (jwt.Opaque raw) now'
          = Raise (AuthenticationError "Invalid token")).
Proof.
  intros data expires_delta now now' token expire _ _.
  split; [|split; [|split]].
  - intros Hvalid. unfold verify_token, token.
    rewrite decode_access_token by done. fold expire.
    split; intros H; destruct (Z.ltb_spec expire now'); done || lia.
  - intros payload. unfold verify_token.
    destruct (jwt.decode token _ _ now') as [[e|]|claims] eqn:Hdec;
      try discriminate.
    intros [= ->]. apply decode_accepts in Hdec as (Htok & Hvalid & Hexp).
    unfold token, create_access_token, jwt.encode in Htok. cbv zeta in Htok.
    injection Htok as <-. fold expire in Hexp |- *.
    split; [by apply registered_claims_valid_exp in Hvalid|].
    split; [|reflexivity].
    destruct (Hexp (JInt expire)) as (e & [= <-] & Hle);
      [apply lookup_insert_eq | exact Hle].
  - intros alg key claims Hkey. unfold verify_token, jwt.decode.
    destruct (negb (bool_decide (alg ∈ [JWT_ALGORITHM settings])));
      [reflexivity|].
    destruct (String.eqb_spec key (JWT_SECRET settings)); [done | reflexivity].
  - intros raw. reflexivity.
Qed.

End TokenProperties.

(** The amended C4 at the sample settings: a token issued at 1000 for the
    default thirty minutes verifies at 1000 and at its expiry 2800, and is
    refused at 2801. *)
Lemma access_token_round_trip_witness :
  let data : gmap string JVal := {[ "sub" := JStr "1" ]} in
  let token := create_access_token Sample.settings data None 1000 in
  verify_token Sample.settings token 1000
  = Return (<["exp" := JInt 2800]> data)
  /\ verify_token Sample.settings token 2800
     = Return (<["exp" := JInt 2800]> data)
  /\ verify_token Sample.settings token 2801
     = Raise (AuthenticationError "Invalid token").
Proof.
  intros data token.
  assert (Hnow : is_datetime 1000) by (vm_compute; split; discriminate).
  assert (Hexpire : is_datetime (access_expire Sample.settings None 1000))
    by (vm_compute; split; discriminate).
  assert (Hvalid : forall now', 1000 <= now' ->
                     registered_claims_valid data now').
  { intros now' _. unfold registered_claims_valid, data.
    split_and!; try done; intros v Hv;
      try (rewrite lookup_singleton_ne in Hv by done; discriminate).
    rewrite lookup_singleton_eq in Hv. injection Hv as <-. by eexists. }
  pose proof (access_token_round_trip Sample.settings data None 1000 1000
                Hnow Hexpire) as (H1 & _).
  pose proof (access_token_round_trip Sample.settings data None 1000 2800
                Hnow Hexpire) as (H2 & _).
  pose proof (access_token_round_trip Sample.settings data None 1000 2801
                Hnow Hexpire) as (H3 & _).
  split; [apply H1; [apply Hvalid; lia | vm_compute; discriminate]|].
  split; [apply H2; [apply Hvalid; lia | vm_compute; discriminate]|].
  apply H3; [apply Hvalid; lia | reflexivity].
Defined.

(** C4 as stated fails in both halves.  The claim set [{"sub": 1}] does not
    survive the round trip: its token is refused at the instant of issue,
    long before its expiry, because the library wants [sub] to be a string.
    And an expired token, a token signed with another key and a string that
    is no token are refused with one and the same exception, which names no
    expiry. *)
Lemma access_token_round_trip_fails :
  let numeric : gmap string JVal := {[ "sub" := JInt 1 ]} in
  let data : gmap string JVal := {[ "sub" := JStr "1" ]} in
  let expired := create_access_token Sample.settings data (Some 60) 1000 in
  let forged := jwt.Signed "HS256" "another-secret" data in
  let garbage := jwt.Opaque "not.a.token" in
  access_expire Sample.settings None 1000 = 2800
  /\ verify_token Sample.settings
       (create_access_token Sample.settings numeric None 1000) 1000
     = Raise (AuthenticationError "Invalid token")
  /\ jwt.decode expired "server-secret" ["HS256"] 2000
     = inl (jwt.IsJWTError jwt.ExpiredSignatureError)
  /\ jwt.decode forged "server-secret" ["HS256"] 2000
     = inl (jwt.IsJWTError jwt.SignatureFailed)
  /\ jwt.decode garbage "server-secret" ["HS256"] 2000
     = inl (jwt.IsJWTError jwt.DecodeError)
  /\ verify_token Sample.settings expired 2000
     = Raise (AuthenticationError "Invalid token")
  /\ verify_token Sample.settings expired 2000
     = verify_token Sample.settings forged 2000
  /\ verify_token Sample.settings expired 2000
     = verify_token Sample.settings garbage 2000.
Proof. vm_compute. repeat split. Qed.

(** ** Login *)

Lemma scalar_one_or_none_some {A} (rows : list A) (r : A) :
  scalar_one_or_none rows = Return (Some r) -> rows = [r].
Proof.
  destruct rows as [|a [|b rows]]; simpl; intros H; try discriminate.
  by injection H as ->.
Qed.

Lemma scalar_one_or_none_none {A} (rows : list A) :
  scalar_one_or_none rows = Return None -> rows = [].
Proof. destruct rows as [|a [|b rows]]; simpl; intros H; by try discriminate. Qed.

Lemma store_user_elem (u u' : User) (t : Tables) :
  u ∈ users t -> user_id_of u' = user_id_of u -> u' ∈ users (store_user u' t).
Proof.
  intros Hin Hid. unfold store_user, update_where; simpl.
  apply list_elem_of_fmap. exists u. split; [|done].
  rewrite Hid, Z.eqb_refl. reflexivity.
Qed.

Lemma update_login_tracking_id (u : User) (now : Z) :
  user_id_of (update_login_tracking u now) = user_id_of u.
Proof. by destruct u. Qed.

Section LoginProperties.

Variable settings : Settings.
Variable pwd_context_verify : string -> string -> bool.
Variables (MAX_FAILED_LOGINS LOCKOUT_SECONDS : Z).

Local Abbreviation authenticate :=
  (authenticate_user settings pwd_context_verify
     MAX_FAILED_LOGINS LOCKOUT_SECONDS).
Local Abbreviation increment := (increment_failed_login MAX_FAILED_LOGINS LOCKOUT_SECONDS).

Lemma increment_failed_login_id (u : User) (now : Z) :
  user_id_of (increment u now) = user_id_of u.
Proof.
  unfold increment_failed_login. destruct u; simpl.
  destruct (MAX_FAILED_LOGINS <=? _); reflexivity.
Qed.

Lemma increment_failed_login_count (u : User) (now : Z) :
  failed_login_count (increment u now) = failed_login_count u + 1.
Proof.
  unfold increment_failed_login. destruct u; simpl.
  destruct (MAX_FAILED_LOGINS <=? _); reflexivity.
Qed.

(** What a login does, by the result of its query and of the checks on the
    row found, in the order of the source. *)
Lemma authenticate_user_cases (db : Tables) (email' password : string)
    (ip_address' user_agent' : option string) (now : Z) (rnd : string)
    (ou : option User) :
  scalar_one_or_none
    (select_where (fun u => String.eqb (email u) email') (users db))
  = Return ou ->
  get_db (authenticate email' password ip_address' user_agent' now rnd) db
  = match ou with
    | None => (db, Raise (AuthenticationError "Invalid email or password"))
    | Some u =>
        if is_locked u now
        then (db, Raise (AuthenticationError
               "Account is temporarily locked due to failed login attempts"))
        else if negb (pwd_context_verify password (password_hash u))
        then (store_user (increment u now) db,
              Raise (AuthenticationError "Invalid email or password"))
        else if negb (bool_decide (status u = ACTIVE))
        then (db, Raise (AuthenticationError "Account is not active"))
        else if negb (email_verified u)
        then (db, Raise (AuthenticationError "Email address not verified"))
        else
          let u' := update_login_tracking u now in
          (add_new_session (fun i =>
             {| session_id_of := i;
                session_user_id := user_id_of u';
                session_token := rnd;
                ip_address := ip_address';
                user_agent := user_agent';
                expires_at :=
                  now + timedelta_days (JWT_REFRESH_TOKEN_EXPIRE_DAYS settings);
                is_active := true;
                revoked_reason := None |}) (store_user u' db),
           Return (u',
                   create_access_token settings (access_token_data u') None now,
                   create_refresh_token settings (user_id_of u') now))
    end.
Proof.
  intros Hsel. unfold authenticate_user. svc_unfold. cbn [pending persisted].
  rewrite Hsel. destruct ou as [u|]; [|reflexivity].
  unfold verify_password, is_verified.
  destruct (is_locked u now); [reflexivity|].
  destruct (pwd_context_verify password (password_hash u)); [|reflexivity].
  destruct (bool_decide (status u = ACTIVE)); [|reflexivity].
  destruct (email_verified u); reflexivity.
Qed.

(** C2.  When at most one stored user has the email of a login attempt, the
    attempt is decided by the first check, in the order user exists, not
    locked, password verifies, status active, email verified, that it
    violates: it raises an [AuthenticationError] with the message of that
    check, and the stored tables change only when that check is the password
    check, by the increment of the user's [failed_login_count].  When no
    check is violated the login returns the user and a pair of tokens.
    Consequently a locked account is refused whatever the password is, an
    attempt refused for an inactive or unverified account carried a password
    that verifies, and the failed-login count is stored incremented when it
    is the password check that fails and otherwise no failure stores
    anything. *)
Theorem authenticate_user_ordered_checks :
  forall (db : Tables) (email' password : string)
         (ip_address' user_agent' : option string) (now : Z) (rnd : string)
         (ou : option User),
    scalar_one_or_none
      (select_where (fun u => String.eqb (email u) email') (users db))
    = Return ou ->
    let r :=
      get_db (authenticate email' password ip_address' user_agent' now rnd) db
    in
    match first_violated pwd_context_verify ou password now with
    | Some c =>
        snd r = Raise (AuthenticationError (check_message c))
        /\ fst r = match c, ou with
                   | PasswordVerifies, Some u => store_user (increment u now) db
                   | _, _ => db
                   end
    | None =>
        exists u, ou = Some u
          /\ snd r
             = Return (update_login_tracking u now,
                       create_access_token settings
                         (access_token_data (update_login_tracking u now))
                         None now,
                       create_refresh_token settings (user_id_of u) now)
    end
    /\ (forall u, ou = Some u -> is_locked u now = true ->
        forall password',
          get_db (authenticate email' password' ip_address' user_agent'
                    now rnd) db
          = (db, Raise (AuthenticationError (check_message NotLocked))))
    /\ (forall c, c = StatusActive \/ c = EmailVerified ->
        first_violated pwd_context_verify ou password now = Some c ->
        exists u, ou = Some u
          /\ pwd_context_verify password (password_hash u) = true)
    /\ (first_violated pwd_context_verify ou password now
        = Some PasswordVerifies ->
        exists u u', ou = Some u
          /\ u' ∈ users (fst r)
          /\ user_id_of u' = user_id_of u
          /\ failed_login_count u' = failed_login_count u + 1)
    /\ (forall c, first_violated pwd_context_verify ou password now = Some c ->
        c <> PasswordVerifies -> fst r = db).
Proof.
  intros db email' password ip ua now rnd ou Hsel r.
  assert (Hr := authenticate_user_cases db email' password ip ua now rnd ou Hsel).
  fold r in Hr.
  assert (Hin : forall u, ou = Some u -> u ∈ users db).
  { intros u ->. apply scalar_one_or_none_some in Hsel.
    by apply select_where_single in Hsel as [? _]. }
  split; [|split; [|split; [|split]]].
  - rewrite Hr. unfold first_violated, login_checks, check_passes; simpl.
    destruct ou as [u|]; simpl; [|done].
    destruct (is_locked u now); simpl; [done|].
    destruct (pwd_context_verify password (password_hash u)); simpl; [|done].
    destruct (bool_decide (status u = ACTIVE)); simpl; [|done].
    destruct (email_verified u); simpl; [|done].
    exists u. split; [done|]. by rewrite update_login_tracking_id.
  - intros u -> Hlocked password'.
    rewrite (authenticate_user_cases db email' password' ip ua now rnd (Some u) Hsel).
    rewrite Hlocked. reflexivity.
  - intros c Hc. unfold first_violated, login_checks, check_passes; simpl.
    destruct ou as [u|]; simpl; [|destruct Hc; congruence].
    destruct (is_locked u now); simpl; [destruct Hc; congruence|].
    destruct (pwd_context_verify password (password_hash u)) eqn:Hv; simpl;
      [|destruct Hc; congruence].
    intros _. exists u. split; [reflexivity | exact Hv].
  - rewrite Hr. unfold first_violated, login_checks, check_passes; simpl.
    destruct ou as [u|]; simpl; [|congruence].
    destruct (is_locked u now); simpl; [congruence|].
    destruct (pwd_context_verify password (password_hash u)); simpl.
    + destruct (bool_decide (status u = ACTIVE)); simpl; [|congruence].
      destruct (email_verified u); simpl; congruence.
    + intros _. exists u, (increment u now).
      split; [done|]. split; [|split].
      * apply (store_user_elem u);
          [by apply Hin | apply increment_failed_login_id].
      * apply increment_failed_login_id.
      * apply increment_failed_login_count.
  - intros c. rewrite Hr.
    unfold first_violated, login_checks, check_passes; simpl.
    destruct ou as [u|]; simpl; [|done].
    destruct (is_locked u now); simpl; [done|].
    destruct (pwd_context_verify password (password_hash u)); simpl;
      [|congruence].
    destruct (bool_decide (status u = ACTIVE)); simpl; [|done].
    destruct (email_verified u); simpl; [congruence | done].
Qed.

(** C3, as amended.  A login attempt with an email that no stored user has,
    and one with the email of a stored user who is not locked and a password
    that does not verify, raise the same exception,
    [AuthenticationError("Invalid email or password")]. *)
Theorem authenticate_user_generic_failure :
  forall (db1 db2 : Tables) (email1 password1 email2 password2 : string)
         (ip1 ua1 ip2 ua2 : option string) (now1 now2 : Z) (rnd1 rnd2 : string)
         (u : User),
    select_where (fun r => String.eqb (email r) email1) (users db1) = [] ->
    select_where (fun r => String.eqb (email r) email2) (users db2) = [u] ->
    is_locked u now2 = false ->
    pwd_context_verify password2 (password_hash u) = false ->
    snd (get_db (authenticate email1 password1 ip1 ua1 now1 rnd1) db1)
    = Raise (AuthenticationError "Invalid email or password")
    /\ snd (get_db (authenticate email2 password2 ip2 ua2 now2 rnd2) db2)
       = snd (get_db (authenticate email1 password1 ip1 ua1 now1 rnd1) db1).
Proof.
  intros db1 db2 e1 p1 e2 p2 ip1 ua1 ip2 ua2 now1 now2 rnd1 rnd2 u H1 H2 Hl Hv.
  rewrite (authenticate_user_cases db1 e1 p1 ip1 ua1 now1 rnd1 None)
    by (rewrite H1; reflexivity).
  rewrite (authenticate_user_cases db2 e2 p2 ip2 ua2 now2 rnd2 (Some u))
    by (rewrite H2; reflexivity).
  rewrite Hl, Hv. split; reflexivity.
Qed.

End LoginProperties.

(** C2 at the sample database: Alice, who is active, verified and not locked,
    with a wrong password; the password check is the first one violated and
    her incremented row is stored. *)
Lemma authenticate_user_ordered_checks_witness :
  let r := get_db (Sample.authenticate "alice@example.com" "wrong"
                     None None 1000 "rnd") Sample.db in
  snd r = Raise (AuthenticationError "Invalid email or password")
  /\ fst r = store_user (increment_failed_login 5 900 Sample.alice 1000)
                        Sample.db.
Proof.
  intros r.
  pose proof (authenticate_user_ordered_checks Sample.settings
                Sample.bcrypt_verify 5 900 Sample.db "alice@example.com"
                "wrong" None None 1000 "rnd" (Some Sample.alice) eq_refl)
    as [H _].
  exact H.
Defined.

(** The amended C3 at the sample database: an unknown email, and Alice's email
    with a wrong password. *)
Lemma authenticate_user_generic_failure_witness :
  snd (get_db (Sample.authenticate "nobody@example.com" "Secr3t!A"
                 None None 1000 "r1") Sample.db)
  = Raise (AuthenticationError "Invalid email or password")
  /\ snd (get_db (Sample.authenticate "alice@example.com" "wrong"
                    None None 1000 "r2") Sample.db)
     = snd (get_db (Sample.authenticate "nobody@example.com" "Secr3t!A"
                      None None 1000 "r1") Sample.db).
Proof.
  apply (authenticate_user_generic_failure Sample.settings
           Sample.bcrypt_verify 5 900 Sample.db Sample.db
           "nobody@example.com" "Secr3t!A" "alice@example.com" "wrong"
           None None None None 1000 1000 "r1" "r2" Sample.alice);
    reflexivity.
Defined.

(** C3 as stated fails: Bob is a stored user whose account is locked; a login
    with his email and a wrong password is refused with the lock message,
    which differs from the message for an unknown email. *)
Lemma authenticate_user_locked_message_differs :
  select_where (fun r => String.eqb (email r) "nobody@example.com")
               (users Sample.db) = []
  /\ select_where (fun r => String.eqb (email r) "bob@example.com")
                  (users Sample.db) = [Sample.bob]
  /\ Sample.bcrypt_verify "wrong" (password_hash Sample.bob) = false
  /\ snd (get_db (Sample.authenticate "nobody@example.com" "wrong"
                    None None 1000 "r") Sample.db)
     = Raise (AuthenticationError "Invalid email or password")
  /\ snd (get_db (Sample.authenticate "bob@example.com" "wrong"
                    None None 1000 "r") Sample.db)
     = Raise (AuthenticationError
                "Account is temporarily locked due to failed login attempts")
  /\ snd (get_db (Sample.authenticate "bob@example.com" "wrong"
                    None None 1000 "r") Sample.db)
     <> snd (get_db (Sample.authenticate "nobody@example.com" "wrong"
                       None None 1000 "r") Sample.db).
Proof.
  vm_compute. repeat split; discriminate.
Qed.

(** ** Password reset *)

Lemma update_where_elem {A} (p : A -> bool) (f : A -> A) (rows : list A)
    (x : A) :
  x ∈ update_where p f rows ->
  exists r, r ∈ rows /\ x = if p r then f r else r.
Proof.
  unfold update_where. intros H. apply list_elem_of_fmap in H as (r & -> & Hr).
  by exists r.
Qed.

Section ResetProperties.

Variable settings : Settings.
Variable pwd_context_hash : string -> string.

Local Abbreviation reset := (reset_password settings pwd_context_hash).

Local Abbreviation after_reset := (after_reset pwd_context_hash).

(** C5 does not hold of the code.  When exactly one user holds the reset
    token, its expiry has not passed ([now <= expires]) and the new password
    satisfies the policy, [reset_password] makes its four assignments to the
    loaded row and then raises [AttributeError] at the statement meant to
    revoke the user's sessions, which calls [update] on a [Select]; this is
    before [db.commit()], so [get_db] rolls the assignments back.  Nothing
    is stored: the user keeps the old hash and still holds the token, every
    session row is as it was, and the endpoint answers 500
    [INTERNAL_ERROR]. *)
Theorem reset_password_raises_attribute_error :
  forall (db : Tables) (token new_password : string) (now : Z)
         (u : User) (expires : Z),
    select_where (fun r => bool_decide (password_reset_token r = Some token))
                 (users db) = [u] ->
    password_reset_expires u = Some expires ->
    now <= expires ->
    validate_password_strength settings new_password = Return tt ->
    let r := get_db (reset token new_password now) db in
    reset token new_password now {| pending := db; persisted := db |}
    = ({| pending := store_user (after_reset new_password now u) db;
          persisted := db |},
       Raise AttributeError)
    /\ r = (db, Raise AttributeError)
    /\ u ∈ users (fst r)
    /\ select_where (fun r => bool_decide (password_reset_token r = Some token))
                    (users (fst r)) = [u]
    /\ sessions (fst r) = sessions db
    /\ Endpoints.confirm_password_reset settings pwd_context_hash
         token new_password now db
       = (db, inl {| http_status := 500;
                     err_code := "INTERNAL_ERROR";
                     err_message := "An unexpected error occurred" |}).
Proof.
  intros db token new_password now u expires Hsel Hexp Hnow Hpw r.
  assert (Hrun :
    reset token new_password now {| pending := db; persisted := db |}
    = ({| pending := store_user (after_reset new_password now u) db;
          persisted := db |},
       Raise AttributeError)).
  { unfold reset_password, execute_select_update. svc_unfold.
    cbn [pending persisted].
    rewrite Hsel. cbn [scalar_one_or_none]. rewrite Hexp.
    destruct (Z.ltb_spec expires now); [lia|].
    rewrite Hpw. reflexivity. }
  assert (Hr : r = (db, Raise AttributeError)).
  { unfold r, get_db. by rewrite Hrun. }
  split; [exact Hrun|]. split; [exact Hr|].
  rewrite Hr. cbn [fst].
  split; [by apply select_where_single in Hsel as [? _]|].
  split; [exact Hsel|]. split; [reflexivity|].
  unfold Endpoints.confirm_password_reset, get_db, mbind, Svc_bind, svc_bind.
  by rewrite Hrun.
Qed.

(** C6.  [reset_password] raises [NotFoundError] when no user holds the
    token, and [ValidationError] when a user holds it and its expiry has
    passed ([expires < now]); in both cases the stored tables are unchanged,
    so that after a refusal for expiry the user still holds the token. *)
Theorem reset_password_refused :
  forall (db : Tables) (token new_password : string) (now : Z),
    (select_where (fun r => bool_decide (password_reset_token r = Some token))
                  (users db) = [] ->
     get_db (reset token new_password now) db
     = (db, Raise (NotFoundError "Invalid reset token")))
    /\ (forall (u : User) (expires : Z),
          select_where
            (fun r => bool_decide (password_reset_token r = Some token))
            (users db) = [u] ->
          password_reset_expires u = Some expires ->
          expires < now ->
          get_db (reset token new_password now) db
          = (db, Raise (ValidationError "Reset token has expired"))
          /\ u ∈ users (fst (get_db (reset token new_password now) db))
          /\ password_reset_token u = Some token
          /\ select_where
               (fun r => bool_decide (password_reset_token r = Some token))
               (users (fst (get_db (reset token new_password now) db)))
             = [u]).
Proof.
  intros db token new_password now. split.
  - intros Hsel. unfold reset_password. svc_unfold. cbn [pending persisted].
    rewrite Hsel. reflexivity.
  - intros u expires Hsel Hexp Hlt.
    assert (Hrun : get_db (reset token new_password now) db
                   = (db, Raise (ValidationError "Reset token has expired"))).
    { unfold reset_password. svc_unfold. cbn [pending persisted].
      rewrite Hsel. cbn [scalar_one_or_none]. rewrite Hexp.
      destruct (Z.ltb_spec expires now); [reflexivity | lia]. }
    rewrite Hrun. cbn [fst].
    destruct (select_where_single _ _ _ Hsel) as [Hin Hp].
    split; [reflexivity|]. split; [exact Hin|].
    split; [by apply bool_decide_eq_true_1 in Hp | exact Hsel].
Qed.

End ResetProperties.

(** C5 at the sample database: Alice resets her password at 4000, before her
    token expires at 5000.  The request raises [AttributeError]; her row,
    with the old hash and the token, and her active session are stored as
    before. *)
Lemma reset_password_raises_attribute_error_witness :
  get_db (reset_password Sample.settings Sample.bcrypt_hash
            "reset-alice" "N3w!Passw" 4000) Sample.db
  = (Sample.db, Raise AttributeError)
  /\ password_hash Sample.alice = Sample.bcrypt_hash "Secr3t!A"
  /\ password_reset_token Sample.alice = Some "reset-alice"
  /\ sessions Sample.db !! 0%nat = Some (Sample.session 1 1 "s-1" true None).
Proof.
  pose proof (reset_password_raises_attribute_error Sample.settings
                Sample.bcrypt_hash Sample.db "reset-alice" "N3w!Passw" 4000
                Sample.alice 5000 eq_refl eq_refl
                ltac:(vm_compute; discriminate) eq_refl)
    as (_ & H & _).
  split; [exact H|]. by split_and!.
Defined.

(** C6 at the sample database: an unknown token, and Alice's token at 6000,
    after it expired at 5000. *)
Lemma reset_password_refused_witness :
  get_db (reset_password Sample.settings Sample.bcrypt_hash
            "no-such-token" "N3w!Passw" 6000) Sample.db
  = (Sample.db, Raise (NotFoundError "Invalid reset token"))
  /\ get_db (reset_password Sample.settings Sample.bcrypt_hash
               "reset-alice" "N3w!Passw" 6000) Sample.db
     = (Sample.db, Raise (ValidationError "Reset token has expired")).
Proof.
  pose proof (reset_password_refused Sample.settings Sample.bcrypt_hash
                Sample.db "no-such-token" "N3w!Passw" 6000) as [H1 _].
  pose proof (reset_password_refused Sample.settings Sample.bcrypt_hash
                Sample.db "reset-alice" "N3w!Passw" 6000) as [_ H2].
  split; [apply H1; reflexivity|].
  apply (H2 Sample.alice 5000); reflexivity.
Defined.

(** ** Email verification *)

Lemma after_verify_email_id (now : Z) (u : User) :
  user_id_of (after_verify_email now u) = user_id_of u.
Proof. by destruct u. Qed.

(** Once the only holder of a token has been stored without it, no row holds
    the token. *)
Lemma token_consumed (token : string) (u u' : User) (t : Tables) :
  select_where (fun r => bool_decide (verification_token r = Some token))
               (users t) = [u] ->
  user_id_of u' = user_id_of u ->
  verification_token u' = None ->
  select_where (fun r => bool_decide (verification_token r = Some token))
               (users (store_user u' t)) = [].
Proof.
  intros Hsel Hid Htok. apply select_where_none. intros x Hx.
  unfold store_user in Hx. cbn [users] in Hx.
  apply update_where_elem in Hx as (r & Hr & ->).
  destruct (Z.eqb_spec (user_id_of r) (user_id_of u')) as [Heq|Hne].
  - rewrite Htok. by apply bool_decide_eq_false_2.
  - destruct (bool_decide (verification_token r = Some token)) eqn:Hp; [|done].
    assert (Hin : r ∈ select_where
                    (fun r => bool_decide (verification_token r = Some token))
                    (users t)) by (by apply select_where_elem).
    rewrite Hsel in Hin. apply list_elem_of_singleton in Hin. congruence.
Qed.

(** C7.  When exactly one user holds a verification token, [verify_email]
    with that token returns the user and stores it with
    [email_verified = true], [status = ACTIVE] and a null
    [verification_token]; any later call with the same token raises
    [NotFoundError], as does every call whose token no stored user holds. *)
Theorem verify_email_single_use :
  forall (db : Tables) (token : string) (now : Z),
    (forall u : User,
       select_where (fun r => bool_decide (verification_token r = Some token))
                    (users db) = [u] ->
       let u' := after_verify_email now u in
       let db' := store_user u' db in
       get_db (verify_email token now) db = (db', Return u')
       /\ u' ∈ users db'
       /\ email_verified u' = true
       /\ status u' = ACTIVE
       /\ verification_token u' = None
       /\ forall now2,
            get_db (verify_email token now2) db'
            = (db', Raise (NotFoundError "Invalid verification token")))
    /\ (select_where (fun r => bool_decide (verification_token r = Some token))
                     (users db) = [] ->
        get_db (verify_email token now) db
        = (db, Raise (NotFoundError "Invalid verification token"))).
Proof.
  intros db token now. split.
  - intros u Hsel u' db'.
    split.
    { unfold verify_email. svc_unfold. cbn [pending persisted].
      rewrite Hsel. reflexivity. }
    split.
    { apply (store_user_elem u); [|apply after_verify_email_id].
      by apply select_where_single in Hsel as [? _]. }
    split; [by destruct u|]. split; [by destruct u|]. split; [by destruct u|].
    intros now2. unfold verify_email. svc_unfold. cbn [pending persisted].
    unfold db'. rewrite (token_consumed token u u' db Hsel);
      [reflexivity | apply after_verify_email_id | by destruct u].
  - intros Hsel. unfold verify_email. svc_unfold. cbn [pending persisted].
    rewrite Hsel. reflexivity.
Qed.

(** C7 at the sample database: Carol verifies her email at 1500, and a second
    call with her token at 1600 finds no user. *)
Lemma verify_email_single_use_witness :
  let carol' := after_verify_email 1500 Sample.carol in
  let db' := store_user carol' Sample.db in
  get_db (verify_email "verify-carol" 1500) Sample.db = (db', Return carol')
  /\ get_db (verify_email "verify-carol" 1600) db'
     = (db', Raise (NotFoundError "Invalid verification token"))
  /\ get_db (verify_email "no-such-token" 1500) Sample.db
     = (Sample.db, Raise (NotFoundError "Invalid verification token")).
Proof.
  intros carol' db'.
  pose proof (verify_email_single_use Sample.db "verify-carol" 1500) as [H _].
  pose proof (verify_email_single_use Sample.db "no-such-token" 1500) as [_ H0].
  destruct (H Sample.carol eq_refl) as (H1 & _ & _ & _ & _ & H2).
  split; [exact H1|]. split; [exact (H2 1600)|]. exact (H0 eq_refl).
Defined.

Local Open Scope list_scope.

(** ** [int] and [str] *)

Lemma isdigit_not_space (c : ascii) : isdigit c = true -> isspace c = false.
Proof.
  destruct c as [[] [] [] [] [] [] [] []]; vm_compute; congruence.
Qed.

Lemma lstrip_head (c : ascii) (l : list ascii) :
  isspace c = false -> lstrip (c :: l) = c :: l.
Proof. intros H. cbn. by rewrite H. Qed.

(** [strip] leaves alone a string that neither starts nor ends with white
    space. *)
Lemma strip_unchanged (c d : ascii) (l : list ascii) :
  isspace c = false -> isspace d = false ->
  strip (c :: l ++ [d]) = c :: l ++ [d].
Proof.
  intros Hc Hd. unfold strip. rewrite lstrip_head by done.
  change (c :: l ++ [d])%list with ((c :: l) ++ [d])%list.
  rewrite rev_app_distr. cbn [rev app]. rewrite lstrip_head by done.
  change (d :: rev l ++ [c])%list with ([d] ++ rev (c :: l))%list.
  rewrite rev_app_distr, rev_involutive. reflexivity.
Qed.

Lemma strip_single (c : ascii) : isspace c = false -> strip [c] = [c].
Proof. intros H. unfold strip. cbn. rewrite H. cbn. by rewrite H. Qed.

Lemma strip_digits (l : list ascii) :
  Forall (fun c => isdigit c = true) l -> strip l = l.
Proof.
  intros Hl. destruct l as [|c l]; [reflexivity|].
  destruct (rev l) as [|d m] eqn:Hrev.
  - apply (f_equal (@rev ascii)) in Hrev. rewrite rev_involutive in Hrev.
    subst l. apply strip_single, isdigit_not_space. by inversion Hl.
  - apply (f_equal (@rev ascii)) in Hrev. rewrite rev_involutive in Hrev.
    cbn in Hrev. subst l. apply strip_unchanged.
    + apply isdigit_not_space. by inversion Hl.
    + apply isdigit_not_space. inversion Hl as [|? ? _ Hl']. subst.
      apply Forall_app in Hl' as [_ Hd]. by inversion Hd.
Qed.

Lemma int_digits_value (l : list ascii) (acc : Z) (after_digit : bool) :
  Forall (fun c => isdigit c = true) l ->
  l <> [] \/ after_digit = true ->
  int_digits acc after_digit l = Some (digits_value acc l).
Proof.
  revert acc after_digit.
  induction l as [|c l IH]; intros acc af Hl Hne.
  - destruct Hne as [?| ->]; [done | reflexivity].
  - inversion Hl as [|? ? Hc Hl']; subst. cbn [int_digits]. rewrite Hc.
    rewrite IH by (done || by right). reflexivity.
Qed.

Lemma pretty_N_char_digit (d : N) :
  (d < 10)%N ->
  isdigit (pretty_N_char d) = true
  /\ digit_value (pretty_N_char d) = Z.of_N d.
Proof.
  intros Hd.
  assert (d = 0 \/ d = 1 \/ d = 2 \/ d = 3 \/ d = 4 \/ d = 5 \/ d = 6
          \/ d = 7 \/ d = 8 \/ d = 9)%N as H by lia.
  repeat (destruct H as [-> | H]; [by vm_compute|]). subst. by vm_compute.
Qed.

Lemma pretty_N_go_app (x : N) (s : string) :
  list_ascii_of_string (pretty_N_go x s)
  = list_ascii_of_string (pretty_N_go x EmptyString)
    ++ list_ascii_of_string s.
Proof.
  revert s. induction (N.lt_wf_0 x) as [x _ IH]; intros s.
  assert (x = 0 \/ 0 < x)%N as [-> | Hx] by lia.
  - by rewrite !pretty_N_go_0.
  - rewrite !(pretty_N_go_step x) by done.
    rewrite (IH (x `div` 10)%N) by (by apply N.div_lt).
    rewrite (IH (x `div` 10)%N ltac:(by apply N.div_lt) (String _ EmptyString)).
    cbn [list_ascii_of_string]. by rewrite <- app_assoc.
Qed.

Lemma pretty_N_go_digits (x : N) :
  let l := list_ascii_of_string (pretty_N_go x EmptyString) in
  Forall (fun c => isdigit c = true) l
  /\ digits_value 0 l = Z.of_N x
  /\ ((0 < x)%N -> l <> []).
Proof.
  induction (N.lt_wf_0 x) as [x _ IH].
  assert (x = 0 \/ 0 < x)%N as [-> | Hx] by lia.
  - rewrite pretty_N_go_0. cbn. repeat split; [constructor | lia].
  - cbv zeta. rewrite pretty_N_go_step, pretty_N_go_app by done.
    cbn [list_ascii_of_string].
    destruct (IH (x `div` 10)%N ltac:(by apply N.div_lt)) as (Hd & Hv & _).
    destruct (pretty_N_char_digit (x `mod` 10)%N) as [Hc Hcv];
      [by apply N.mod_lt|].
    split; [|split].
    + apply Forall_app. split; [exact Hd | by repeat constructor].
    + unfold digits_value in *. rewrite fold_left_app. cbn [fold_left].
      rewrite Hv, Hcv. rewrite (N.div_mod x 10) at 3 by done. lia.
    + intros _ H. by apply app_eq_nil in H as [_ ?].
Qed.

Lemma int_of_str_unsigned (s : string) (c : ascii) (r : list ascii) :
  strip (list_ascii_of_string s) = c :: r ->
  isdigit c = true ->
  int_of_str s = int_digits 0 false (c :: r).
Proof.
  intros Hs Hc. unfold int_of_str. rewrite Hs.
  destruct c as [[] [] [] [] [] [] [] []]; vm_compute in Hc;
    try discriminate; reflexivity.
Qed.

Lemma int_of_str_positive (p : positive) :
  int_of_str (pretty (N.pos p)) = Some (Z.pos p).
Proof.
  unfold pretty, pretty_N. rewrite decide_False by done.
  destruct (pretty_N_go_digits (N.pos p)) as (Hd & Hv & Hne).
  cbv zeta in *.
  destruct (list_ascii_of_string (pretty_N_go (N.pos p) EmptyString))
    as [|c r] eqn:Hl; [by destruct Hne|].
  rewrite (int_of_str_unsigned _ c r).
  - rewrite int_digits_value by (done || by left). by rewrite Hv.
  - rewrite Hl. by apply strip_digits.
  - by inversion Hd.
Qed.

Lemma int_of_str_py_str (n : Z) : int_of_str (py_str n) = Some n.
Proof.
  unfold py_str.
  destruct n as [|p|p].
  - reflexivity.
  - apply int_of_str_positive.
  - change (pretty (Z.neg p)) with ("-" +:+ pretty (N.pos p)).
    unfold int_of_str, pretty, pretty_N. rewrite decide_False by done.
    destruct (pretty_N_go_digits (N.pos p)) as (Hd & Hv & Hne).
    cbv zeta in *.
    change (list_ascii_of_string ("-" +:+ pretty_N_go (N.pos p) EmptyString))
      with ("-"%char
            :: list_ascii_of_string (pretty_N_go (N.pos p) EmptyString)).
    remember (list_ascii_of_string (pretty_N_go (N.pos p) EmptyString))
      as l eqn:Hl. clear Hl.
    assert (Hs : strip ("-"%char :: l) = "-"%char :: l).
    { destruct (rev l) as [|d m] eqn:Hrev.
      - apply (f_equal (@rev ascii)) in Hrev. rewrite rev_involutive in Hrev.
        by destruct Hne.
      - apply (f_equal (@rev ascii)) in Hrev. rewrite rev_involutive in Hrev.
        cbn [rev] in Hrev. rewrite Hrev. apply strip_unchanged; [reflexivity|].
        apply isdigit_not_space. rewrite Hrev in Hd.
        apply Forall_app in Hd as [_ Hd]. by inversion Hd. }
    rewrite Hs. rewrite int_digits_value by (done || left; by apply Hne).
    rewrite Hv. reflexivity.
Qed.

Lemma py_int_str (n : Z) : py_int (JStr (py_str n)) = Return n.
Proof. unfold py_int. by rewrite int_of_str_py_str. Qed.

(** X1.  [int(str(n)) == n] for every integer [n]: the decimal text that
    [str] prints is read back by [int] without error. *)
Theorem py_int_py_str :
  forall n : Z, py_int (JStr (py_str n)) = Return n.
Proof. exact py_int_str. Qed.

(** ** Tokens the service issues *)

Section IssuedTokens.

Variable settings : Settings.

Local Abbreviation refresh_expire now :=
  (now + timedelta_days (JWT_REFRESH_TOKEN_EXPIRE_DAYS settings)).

(** The claims of the tokens the service issues have valid registered
    claims: [sub] is a string, and the others are absent. *)
Lemma refresh_token_data_valid (sub : string) (expire now : Z) :
  registered_claims_valid
    (<["sub" := JStr sub]>
       (<["type" := JStr "refresh"]> (<["exp" := JInt expire]> ∅))) now.
Proof.
  unfold registered_claims_valid.
  split_and!; try done; intros v Hv; simplify_map_eq; by eexists.
Qed.

Lemma access_token_data_valid (u : User) (now : Z) :
  registered_claims_valid (access_token_data u) now.
Proof.
  unfold registered_claims_valid, access_token_data.
  split_and!; try done; intros v Hv; simplify_map_eq; by eexists.
Qed.

Lemma decode_refresh_token (user_id now now' : Z) :
  jwt.decode (create_refresh_token settings user_id now)
             (JWT_SECRET settings) [JWT_ALGORITHM settings] now'
  = if refresh_expire now <? now'
    then inl (jwt.IsJWTError jwt.ExpiredSignatureError)
    else inr (<["sub" := JStr (py_str user_id)]>
                (<["type" := JStr "refresh"]>
                   (<["exp" := JInt (refresh_expire now)]> ∅))).
Proof.
  unfold create_refresh_token. cbv zeta.
  rewrite decode_own_token, validate_claims_registered
    by apply refresh_token_data_valid.
  unfold jwt.validate_exp.
  rewrite lookup_insert_ne by done. rewrite lookup_insert_ne by done.
  rewrite lookup_insert_eq. cbn [jwt.int_claim py_int].
  by destruct (_ <? _).
Qed.

Lemma refresh_claims_issued (user_id now now' : Z) :
  now' <= refresh_expire now ->
  refresh_claims settings (create_refresh_token settings user_id now) now'
  = Return user_id.
Proof.
  intros H. unfold refresh_claims. rewrite decode_refresh_token.
  destruct (Z.ltb_spec (refresh_expire now) now'); [lia|].
  unfold dict_get. rewrite lookup_insert_eq.
  change (default JNull (Some (JStr (py_str user_id))))
    with (JStr (py_str user_id)).
  rewrite py_int_str.
  rewrite lookup_insert_ne by done. rewrite lookup_insert_eq. reflexivity.
Qed.

(** X2.  A refresh token made by [create_refresh_token] passes the [try]
    block of [refresh_access_token] at every instant up to its expiry and
    yields the user id it was made for; after its expiry it is refused with
    [AuthenticationError("Invalid refresh token")].  So the conversion
    [int(payload.get("sub"))] never fails on a token the service issued. *)
Theorem issued_refresh_token_claims :
  forall (user_id now now' : Z),
    (now' <= refresh_expire now ->
     refresh_claims settings (create_refresh_token settings user_id now) now'
     = Return user_id)
    /\ (refresh_expire now < now' ->
        refresh_claims settings (create_refresh_token settings user_id now) now'
        = Raise (AuthenticationError "Invalid refresh token")).
Proof.
  intros user_id now now'. split; intros H.
  - by apply refresh_claims_issued.
  - unfold refresh_claims. rewrite decode_refresh_token.
    destruct (Z.ltb_spec (refresh_expire now) now'); [reflexivity | lia].
Qed.

(** X3.  An access token, as [authenticate_user] and [refresh_access_token]
    build it, is not accepted as a refresh token: before its expiry the [try]
    block refuses it with [AuthenticationError("Invalid token type")]. *)
Theorem access_token_is_no_refresh_token :
  forall (u : User) (expires_delta : option Z) (now now' : Z),
    now' <= access_expire settings expires_delta now ->
    refresh_claims settings
      (create_access_token settings (access_token_data u) expires_delta now)
      now'
    = Raise (AuthenticationError "Invalid token type").
Proof.
  intros u expires_delta now now' H. unfold refresh_claims.
  rewrite decode_access_token by apply access_token_data_valid.
  destruct (Z.ltb_spec (access_expire settings expires_delta now) now'); [lia|].
  unfold dict_get, access_token_data.
  rewrite lookup_insert_ne by done. rewrite lookup_insert_eq.
  change (default JNull (Some (JStr (py_str (user_id_of u)))))
    with (JStr (py_str (user_id_of u))).
  rewrite py_int_str.
  repeat (rewrite lookup_insert_ne by done). rewrite lookup_empty.
  reflexivity.
Qed.

(** X4.  [verify_token] does not look at the [type] claim: it accepts a
    refresh token made by [create_refresh_token], up to its expiry, and
    returns its claims, whose subject reads back as the user id. *)
Theorem verify_token_accepts_refresh_token :
  forall (user_id now now' : Z),
    now' <= refresh_expire now ->
    exists payload,
      verify_token settings (create_refresh_token settings user_id now) now'
      = Return payload
      /\ payload !! "type" = Some (JStr "refresh")
      /\ py_int (dict_get payload "sub") = Return user_id.
Proof.
  intros user_id now now' H. unfold verify_token.
  rewrite decode_refresh_token.
  destruct (Z.ltb_spec (refresh_expire now) now'); [lia|].
  eexists. split; [reflexivity|]. split.
  - rewrite lookup_insert_ne by done. by rewrite lookup_insert_eq.
  - unfold dict_get. rewrite lookup_insert_eq. apply py_int_str.
Qed.

End IssuedTokens.

Lemma issued_refresh_token_claims_witness :
  refresh_claims Sample.settings
    (create_refresh_token Sample.settings 42 1000) (1000 + 7 * 86400)
  = Return 42
  /\ refresh_claims Sample.settings
       (create_refresh_token Sample.settings 42 1000) (1001 + 7 * 86400)
     = Raise (AuthenticationError "Invalid refresh token").
Proof.
  split.
  - apply (issued_refresh_token_claims Sample.settings 42 1000).
    vm_compute; discriminate.
  - apply (issued_refresh_token_claims Sample.settings 42 1000). reflexivity.
Defined.

Lemma access_token_is_no_refresh_token_witness :
  refresh_claims Sample.settings
    (create_access_token Sample.settings (access_token_data Sample.alice)
       None 1000) 1500
  = Raise (AuthenticationError "Invalid token type").
Proof.
  apply (access_token_is_no_refresh_token Sample.settings Sample.alice None
           1000 1500).
  vm_compute; discriminate.
Defined.

Lemma verify_token_accepts_refresh_token_witness :
  exists payload,
    verify_token Sample.settings
      (create_refresh_token Sample.settings 1 1000) 2000 = Return payload
    /\ payload !! "type" = Some (JStr "refresh")
    /\ py_int (dict_get payload "sub") = Return 1.
Proof.
  apply (verify_token_accepts_refresh_token Sample.settings 1 1000 2000).
  vm_compute; discriminate.
Defined.

(** ** Token refresh *)

Section RefreshProperties.

Variable settings : Settings.

Local Abbreviation server_decode token now :=
  (jwt.decode token (JWT_SECRET settings) [JWT_ALGORITHM settings] now).

Local Abbreviation refresh_outcome := (refresh_outcome settings).

Lemma refresh_access_token_run (token : jwt.Token) (now : Z) (db : Tables) :
  get_db (refresh_access_token settings token now) db
  = (db, refresh_outcome token now (users db)).
Proof.
  unfold refresh_access_token, refresh_outcome. svc_unfold.
  cbn [pending persisted].
  destruct (refresh_claims settings token now) as [user_id|e]; [|reflexivity].
  destruct (scalar_one_or_none _) as [[u|]|e]; try reflexivity.
  destruct (is_active_user u); reflexivity.
Qed.

Lemma refresh_claims_return (token : jwt.Token) (now : Z) (user_id : Z) :
  refresh_claims settings token now = Return user_id
  <-> exists payload,
        server_decode token now = inr payload
        /\ py_int (dict_get payload "sub") = Return user_id
        /\ dict_get payload "type" = JStr "refresh".
Proof.
  unfold refresh_claims. split.
  - destruct (server_decode token now) as [[e|]|payload]; try discriminate.
    destruct (py_int (dict_get payload "sub")) as [i|e] eqn:Hi; [|discriminate].
    destruct (decide (dict_get payload "type" = JStr "refresh")) as [Ht|Ht].
    + rewrite bool_decide_eq_true_2 by done. cbn. intros [= <-].
      exists payload. split; [reflexivity|]. split; assumption.
    + rewrite bool_decide_eq_false_2 by done. discriminate.
  - intros (payload & -> & -> & ->). reflexivity.
Qed.

(** The tokens that pass the [try] block: signed with the server's secret
    under its algorithm, with valid registered claims, an expiry that has
    not passed, the type ["refresh"], and a subject that is the text of an
    integer. *)
Lemma refresh_claims_accepts (token : jwt.Token) (now : Z) (user_id : Z) :
  refresh_claims settings token now = Return user_id
  <-> exists claims sub,
        token = jwt.Signed (JWT_ALGORITHM settings) (JWT_SECRET settings) claims
        /\ registered_claims_valid claims now
        /\ expiry_not_passed claims now
        /\ claims !! "type" = Some (JStr "refresh")
        /\ claims !! "sub" = Some (JStr sub)
        /\ int_of_str sub = Some user_id.
Proof.
  rewrite refresh_claims_return. split.
  - intros (claims & Hdec & Hsub & Hty).
    apply decode_accepts in Hdec as (-> & Hvalid & Hexp).
    assert (Hty' : claims !! "type" = Some (JStr "refresh")).
    { unfold dict_get in Hty.
      destruct (claims !! "type") as [v|]; cbn in Hty; [by subst | done]. }
    unfold dict_get in Hsub.
    destruct (claims !! "sub") as [v|] eqn:Hv; [|discriminate].
    pose proof Hvalid as (_ & _ & _ & Hstr & _).
    destruct (Hstr v Hv) as [sub ->]. cbn in Hsub.
    destruct (int_of_str sub) as [z|] eqn:Hz; [|discriminate].
    injection Hsub as ->. by exists claims, sub.
  - intros (claims & sub & -> & Hvalid & Hexp & Hty & Hsub & Hint).
    exists claims. split; [by apply decode_accepts|].
    unfold dict_get. rewrite Hsub, Hty. cbn. by rewrite Hint.
Qed.

(** C8, as amended.  [refresh_access_token] returns exactly when the token
    is signed with the server's secret under its algorithm, its registered
    claims are valid and its expiry has not passed, its [type] claim is
    ["refresh"], and its subject is the text of an integer that is the key
    of one stored user, who is active.  The pair it returns is issued at
    [now] for that user: the access token verifies to the user's subject,
    email, role and organization until [JWT_ACCESS_TOKEN_EXPIRE_MINUTES]
    later and is refused afterwards, and the refresh token is itself
    accepted for the same user until [JWT_REFRESH_TOKEN_EXPIRE_DAYS] later
    and refused afterwards.  Returning or raising, the request leaves the
    stored tables, and so every session row, as they were, and its outcome
    is the same on any two databases with the same users: no session row
    is read. *)
Theorem refresh_access_token_frame :
  forall (db : Tables) (token : jwt.Token) (now : Z),
    let r := get_db (refresh_access_token settings token now) db in
    let access_until :=
      now + timedelta_minutes (JWT_ACCESS_TOKEN_EXPIRE_MINUTES settings) in
    let refresh_until :=
      now + timedelta_days (JWT_REFRESH_TOKEN_EXPIRE_DAYS settings) in
    fst r = db
    /\ sessions (fst r) = sessions db
    /\ (succeeds (snd r)
        <-> exists claims sub user_id u,
              token = jwt.Signed (JWT_ALGORITHM settings) (JWT_SECRET settings)
                        claims
              /\ registered_claims_valid claims now
              /\ expiry_not_passed claims now
              /\ claims !! "type" = Some (JStr "refresh")
              /\ claims !! "sub" = Some (JStr sub)
              /\ int_of_str sub = Some user_id
              /\ select_where (fun x => user_id_of x =? user_id) (users db)
                 = [u]
              /\ is_active_user u = true)
    /\ (forall access refresh,
          snd r = Return (access, refresh) ->
          exists u payload,
            u ∈ users db
            /\ is_active_user u = true
            /\ refresh_claims settings token now = Return (user_id_of u)
            /\ (forall now', now' <= access_until ->
                verify_token settings access now' = Return payload)
            /\ payload !! "sub" = Some (JStr (py_str (user_id_of u)))
            /\ payload !! "email" = Some (JStr (email u))
            /\ payload !! "role" = Some (JStr (role_value (role u)))
            /\ payload !! "org_id"
               = Some (match organization_id u with
                       | Some i => JInt i
                       | None => JNull
                       end)
            /\ payload !! "exp" = Some (JInt access_until)
            /\ (forall now', access_until < now' ->
                verify_token settings access now'
                = Raise (AuthenticationError "Invalid token"))
            /\ (forall now', now' <= refresh_until ->
                refresh_claims settings refresh now' = Return (user_id_of u))
            /\ (forall now', refresh_until < now' ->
                refresh_claims settings refresh now'
                = Raise (AuthenticationError "Invalid refresh token")))
    /\ (forall db2 : Tables,
          users db2 = users db ->
          snd (get_db (refresh_access_token settings token now) db2) = snd r).
Proof.
  intros db token now r access_until refresh_until. unfold r.
  rewrite refresh_access_token_run. cbn [fst snd].
  split; [reflexivity|]. split; [reflexivity|].
  split; [|split].
  - unfold refresh_outcome. split.
    + destruct (refresh_claims settings token now) as [user_id|e] eqn:Hc;
        [|by cbn].
      apply refresh_claims_accepts in Hc
        as (claims & sub & Htok & Hvalid & Hexp & Hty & Hsub & Hint).
      destruct (scalar_one_or_none _) as [[u|]|e] eqn:Hsel; try (by cbn).
      apply scalar_one_or_none_some in Hsel.
      destruct (is_active_user u) eqn:Hact; [|by cbn].
      intros _. by exists claims, sub, user_id, u.
    + intros (claims & sub & user_id & u & Htok & Hvalid & Hexp & Hty & Hsub
              & Hint & Hsel & Hact).
      assert (Hc : refresh_claims settings token now = Return user_id)
        by (apply refresh_claims_accepts; by exists claims, sub).
      rewrite Hc, Hsel. cbn [scalar_one_or_none]. by rewrite Hact.
  - intros access refresh. unfold refresh_outcome.
    destruct (refresh_claims settings token now) as [user_id|e] eqn:Hc;
      [|discriminate].
    destruct (scalar_one_or_none _) as [[u|]|e] eqn:Hsel; try discriminate.
    apply scalar_one_or_none_some, select_where_single in Hsel as [Hin Hid].
    apply Z.eqb_eq in Hid. subst user_id.
    destruct (is_active_user u) eqn:Hact; [|discriminate].
    intros [= <- <-].
    exists u, (<["exp" := JInt access_until]> (access_token_data u)).
    assert (Hdec : forall now',
      jwt.decode (create_access_token settings (access_token_data u) None now)
        (JWT_SECRET settings) [JWT_ALGORITHM settings] now'
      = if access_until <? now'
        then inl (jwt.IsJWTError jwt.ExpiredSignatureError)
        else inr (<["exp" := JInt access_until]> (access_token_data u))).
    { intros now'. by rewrite decode_access_token
        by apply access_token_data_valid. }
    split_and!; try done.
    + intros now' Hle. unfold verify_token. rewrite Hdec.
      destruct (Z.ltb_spec access_until now'); [lia | reflexivity].
    + intros now' Hlt. unfold verify_token. rewrite Hdec.
      destruct (Z.ltb_spec access_until now'); [reflexivity | lia].
    + intros now' Hle. by apply refresh_claims_issued.
    + intros now' Hlt. unfold refresh_claims. rewrite decode_refresh_token.
      fold refresh_until.
      destruct (Z.ltb_spec refresh_until now'); [reflexivity | lia].
  - intros db2 Hu. rewrite refresh_access_token_run. cbn [snd].
    by rewrite Hu.
Qed.

(** C10.  For a claim set that the server's own key signs and that has not
    expired: when it has no ["sub"] claim, [int] raises a [TypeError], and
    when its ["sub"] is a string that is no integer literal, a [ValueError];
    [refresh_access_token] lets either escape, and the [/auth/refresh]
    endpoint answers 500 [INTERNAL_ERROR].  A token that fails to decode
    with a [JWTError] is answered 401 [AUTHENTICATION_ERROR]. *)
Theorem refresh_token_conversion_error :
  forall (db : Tables) (claims : gmap string JVal) (now : Z),
    let token :=
      jwt.encode claims (JWT_SECRET settings) (JWT_ALGORITHM settings) in
    server_decode token now = inr claims ->
    (claims !! "sub" = None ->
     get_db (refresh_access_token settings token now) db = (db, Raise TypeError)
     /\ refresh_token settings token now db
        = (db, inl {| http_status := 500;
                      err_code := "INTERNAL_ERROR";
                      err_message := "An unexpected error occurred" |}))
    /\ (forall s, claims !! "sub" = Some (JStr s) -> int_of_str s = None ->
        get_db (refresh_access_token settings token now) db
        = (db, Raise ValueError)
        /\ refresh_token settings token now db
           = (db, inl {| http_status := 500;
                         err_code := "INTERNAL_ERROR";
                         err_message := "An unexpected error occurred" |}))
    /\ (forall token' e, server_decode token' now = inl (jwt.IsJWTError e) ->
        get_db (refresh_access_token settings token' now) db
        = (db, Raise (AuthenticationError "Invalid refresh token"))
        /\ refresh_token settings token' now db
           = (db, inl {| http_status := 401;
                         err_code := "AUTHENTICATION_ERROR";
                         err_message := "Invalid refresh token" |})).
Proof.
  intros db claims now token Hdec.
  split; [|split].
  - intros Hsub. unfold refresh_token.
    rewrite refresh_access_token_run. unfold refresh_outcome, refresh_claims.
    rewrite Hdec. unfold dict_get. rewrite Hsub. split; reflexivity.
  - intros s Hsub Hint. unfold refresh_token.
    rewrite refresh_access_token_run. unfold refresh_outcome, refresh_claims.
    rewrite Hdec. unfold dict_get. rewrite Hsub.
    change (default JNull (Some (JStr s))) with (JStr s). cbn [py_int].
    rewrite Hint. split; reflexivity.
  - intros token' e He. unfold refresh_token.
    rewrite refresh_access_token_run. unfold refresh_outcome, refresh_claims.
    rewrite He. split; reflexivity.
Qed.

End RefreshProperties.

(** The amended C8 at the sample database: the refresh token issued to Alice
    at 1000, presented at 2000, meets every condition, so the refresh
    returns, and it stores nothing. *)
Lemma refresh_access_token_frame_witness :
  let r := get_db (refresh_access_token Sample.settings
                     (create_refresh_token Sample.settings 1 1000) 2000)
                  Sample.db in
  succeeds (snd r) /\ fst r = Sample.db.
Proof.
  intros r.
  pose proof (refresh_access_token_frame Sample.settings Sample.db
                (create_refresh_token Sample.settings 1 1000) 2000) as H.
  cbv zeta in H. destruct H as (Hfst & _ & Hiff & _).
  split; [|exact Hfst].
  apply Hiff.
  exists (<["sub" := JStr "1"]>
            (<["type" := JStr "refresh"]> (<["exp" := JInt 605800]> ∅))),
         "1", 1, Sample.alice.
  split_and!; try reflexivity.
  - apply refresh_token_data_valid.
  - intros v Hv. simplify_map_eq. eexists. split; [reflexivity|].
    vm_compute; discriminate.
Defined.

(** C8 as stated fails: the refresh token issued to Alice at 1000, presented
    at 700000, after its expiry at 605800.  Its signature verifies (the
    claims are those the server signed, and at 1000 the token decodes), its
    type is ["refresh"], and Alice is stored and active; yet the refresh is
    refused. *)
Lemma refresh_access_token_refuses_expired :
  let token := create_refresh_token Sample.settings 1 1000 in
  let claims : gmap string JVal :=
    <["sub" := JStr "1"]>
      (<["type" := JStr "refresh"]> (<["exp" := JInt 605800]> ∅)) in
  token = jwt.Signed "HS256" "server-secret" claims
  /\ jwt.decode token "server-secret" ["HS256"] 1000 = inr claims
  /\ claims !! "type" = Some (JStr "refresh")
  /\ select_where (fun x => user_id_of x =? 1) (users Sample.db)
     = [Sample.alice]
  /\ is_active_user Sample.alice = true
  /\ get_db (refresh_access_token Sample.settings token 700000) Sample.db
     = (Sample.db, Raise (AuthenticationError "Invalid refresh token"))
  /\ ~ succeeds
         (snd (get_db (refresh_access_token Sample.settings token 700000)
                 Sample.db)).
Proof. vm_compute. split_and!; try reflexivity. intros []. Qed.

(** C10 at the sample database: a refresh-typed claim set without a subject,
    and one whose subject is ["abc"], both signed by the server. *)
Lemma refresh_token_conversion_error_witness :
  let no_sub : gmap string JVal := {[ "type" := JStr "refresh" ]} in
  let bad_sub : gmap string JVal :=
    <["sub" := JStr "abc"]> {[ "type" := JStr "refresh" ]} in
  refresh_token Sample.settings (jwt.encode no_sub "server-secret" "HS256")
                1000 Sample.db
  = (Sample.db, inl {| http_status := 500;
                       err_code := "INTERNAL_ERROR";
                       err_message := "An unexpected error occurred" |})
  /\ get_db (refresh_access_token Sample.settings
               (jwt.encode no_sub "server-secret" "HS256") 1000) Sample.db
     = (Sample.db, Raise TypeError)
  /\ get_db (refresh_access_token Sample.settings
               (jwt.encode bad_sub "server-secret" "HS256") 1000) Sample.db
     = (Sample.db, Raise ValueError)
  /\ refresh_token Sample.settings (jwt.Opaque "garbage") 1000 Sample.db
     = (Sample.db, inl {| http_status := 401;
                          err_code := "AUTHENTICATION_ERROR";
                          err_message := "Invalid refresh token" |}).
Proof.
  intros no_sub bad_sub.
  pose proof (refresh_token_conversion_error Sample.settings Sample.db
                no_sub 1000 eq_refl) as (H1 & _ & H3).
  pose proof (refresh_token_conversion_error Sample.settings Sample.db
                bad_sub 1000 eq_refl) as (_ & H2 & _).
  destruct (H1 eq_refl) as [H1a H1b].
  destruct (H2 "abc" eq_refl eq_refl) as [H2a _].
  destruct (H3 (jwt.Opaque "garbage") jwt.DecodeError eq_refl) as [_ H3b].
  split; [exact H1b|]. split; [exact H1a|]. split; [exact H2a | exact H3b].
Defined.

(** ** Sessions are never re-activated *)

Lemma sessions_kept_refl (t : Tables) : sessions_kept t t.
Proof. intros i x Hx. exists x. by repeat split. Qed.

Lemma sessions_kept_trans (t1 t2 t3 : Tables) :
  sessions_kept t1 t2 -> sessions_kept t2 t3 -> sessions_kept t1 t3.
Proof.
  intros H12 H23 i x Hx.
  destruct (H12 i x Hx) as (x2 & Hx2 & (Ha & Hb & Hc) & Hact2).
  destruct (H23 i x2 Hx2) as (x3 & Hx3 & (Ha' & Hb' & Hc') & Hact3).
  exists x3. split; [done|]. split.
  - repeat split; congruence.
  - auto.
Qed.

Lemma sessions_kept_same (t t' : Tables) :
  sessions t' = sessions t -> sessions_kept t t'.
Proof. intros H i x Hx. exists x. rewrite H. by repeat split. Qed.

Lemma sessions_kept_add (t : Tables) (x : UserSession) :
  sessions_kept t (add_session x t).
Proof.
  intros i y Hy. exists y. split; [|by repeat split].
  cbn [add_session sessions]. by apply lookup_app_l_Some.
Qed.

Lemma keeps_ret {A} (a : A) : keeps (mret a).
Proof. intros t0 s s' o Hp Hq [= <- <-]. by split. Qed.

Lemma keeps_raise {A} (e : Exception) : keeps (@raise A e).
Proof. intros t0 s s' o Hp Hq [= <- <-]. by split. Qed.

Lemma keeps_execute_select_update {A} (tbl : Tables -> list A)
    (p : A -> bool) (values : A -> A) :
  keeps (execute_select_update tbl p values).
Proof. apply keeps_raise. Qed.

Lemma keeps_lift_outcome {A} (x : Outcome A) : keeps (lift_outcome x).
Proof. intros t0 s s' o Hp Hq [= <- <-]. by split. Qed.

Lemma keeps_execute_scalar {A} (tbl : Tables -> list A) (p : A -> bool) :
  keeps (execute_scalar tbl p).
Proof. intros t0 s s' o Hp Hq [= <- <-]. by split. Qed.

Lemma keeps_pending_tables : keeps pending_tables.
Proof. intros t0 s s' o Hp Hq [= <- <-]. by split. Qed.

Lemma keeps_commit : keeps commit.
Proof. intros t0 s s' o Hp Hq [= <- <-]. by split. Qed.

Lemma keeps_modify (f : Tables -> Tables) :
  (forall t, sessions_kept t (f t)) -> keeps (modify f).
Proof.
  intros Hf t0 s s' o Hp Hq [= <- <-]. cbn [pending persisted].
  split; [|done]. eapply sessions_kept_trans; [exact Hp | apply Hf].
Qed.

Lemma keeps_bind {A B} (m : Svc A) (k : A -> Svc B) :
  keeps m -> (forall a, keeps (k a)) -> keeps (m ≫= k).
Proof.
  intros Hm Hk t0 s s' o Hp Hq. unfold mbind, Svc_bind, svc_bind.
  destruct (m s) as [s1 [a|e]] eqn:Hms.
  - destruct (Hm t0 s s1 _ Hp Hq Hms) as [Hp1 Hq1]. by apply Hk.
  - intros [= <- <-]. by apply (Hm t0 s s1 _ Hp Hq Hms).
Qed.

(** What [get_db] stores after a coroutine that keeps the sessions. *)
Lemma keeps_get_db {A} (m : Svc A) (db : Tables) :
  keeps m -> sessions_kept db (fst (get_db m db)).
Proof.
  intros Hm. unfold get_db.
  destruct (m _) as [s' [a|e]] eqn:Hms;
    destruct (Hm db {| pending := db; persisted := db |} s' _
                (sessions_kept_refl db) (sessions_kept_refl db) Hms);
    done.
Qed.

(** One step of the structural proof that a coroutine keeps the sessions. *)
Ltac keeps_step :=
  first
    [ apply keeps_ret | apply keeps_raise | apply keeps_lift_outcome
    | apply keeps_execute_scalar | apply keeps_pending_tables
    | apply keeps_commit | apply keeps_execute_select_update
    | apply keeps_modify; intros ?;
      first [ apply sessions_kept_same; reflexivity
            | apply sessions_kept_add ]
    | apply keeps_bind; [|intros ?]
    | match goal with
      | |- keeps (match ?x with _ => _ end) => destruct x
      | |- keeps (let _ := _ in _) => cbv zeta
      end ].

Section SessionInvariant.

Variable settings : Settings.
Variable pwd_context_hash : string -> string.
Variable pwd_context_verify : string -> string -> bool.
Variables (MAX_FAILED_LOGINS LOCKOUT_SECONDS : Z).

Lemma keeps_authenticate_user e p i a n r :
  keeps (authenticate_user settings pwd_context_verify MAX_FAILED_LOGINS
           LOCKOUT_SECONDS e p i a n r).
Proof.
  unfold authenticate_user, add_new_session. repeat keeps_step.
Qed.

Lemma keeps_register_user e p f l o r x :
  keeps (register_user settings pwd_context_hash e p f l o r x).
Proof.
  unfold register_user, find_or_create_organization. repeat keeps_step.
Qed.

Lemma keeps_verify_email t n : keeps (verify_email t n).
Proof. unfold verify_email. repeat keeps_step. Qed.

Lemma keeps_request_password_reset e n r :
  keeps (request_password_reset e n r).
Proof. unfold request_password_reset. repeat keeps_step. Qed.

Lemma keeps_reset_password t p n :
  keeps (reset_password settings pwd_context_hash t p n).
Proof. unfold reset_password. repeat keeps_step. Qed.

Lemma keeps_refresh_access_token t n :
  keeps (refresh_access_token settings t n).
Proof. unfold refresh_access_token. repeat keeps_step. Qed.

Lemma keeps_logout_user u t : keeps (logout_user u t).
Proof. unfold logout_user. repeat keeps_step. Qed.

Lemma run_operation_keeps (op : Operation) (db : Tables) :
  sessions_kept db
    (run_operation settings pwd_context_hash pwd_context_verify
       MAX_FAILED_LOGINS LOCKOUT_SECONDS op db).
Proof.
  destruct op; cbn [run_operation]; apply keeps_get_db.
  - apply keeps_register_user.
  - apply keeps_authenticate_user.
  - apply keeps_verify_email.
  - apply keeps_request_password_reset.
  - apply keeps_reset_password.
  - apply keeps_refresh_access_token.
  - apply keeps_logout_user.
Qed.

(** C9.  Over any sequence of requests to the service (login, logout and
    password reset among them), a stored session row that is inactive is
    still stored, at its position, with its key, owner and token, and is
    still inactive at the end: no operation sets [is_active] back to
    true.  A login adds a row after the existing ones; a logout and a
    password reset raise before they change any row. *)
Theorem sessions_never_reactivated :
  forall (ops : list Operation) (db : Tables) (i : nat) (x : UserSession),
    sessions db !! i = Some x ->
    is_active x = false ->
    exists x',
      sessions (run_operations settings pwd_context_hash pwd_context_verify
                  MAX_FAILED_LOGINS LOCKOUT_SECONDS ops db) !! i = Some x'
      /\ same_session x x'
      /\ is_active x' = false.
Proof.
  assert (H : forall ops db,
             sessions_kept db
               (run_operations settings pwd_context_hash pwd_context_verify
                  MAX_FAILED_LOGINS LOCKOUT_SECONDS ops db)).
  { induction ops as [|op ops IH]; intros db.
    - apply sessions_kept_refl.
    - cbn [run_operations fold_left].
      eapply sessions_kept_trans; [apply run_operation_keeps | apply IH]. }
  intros ops db i x Hx Hact.
  destruct (H ops db i x Hx) as (x' & Hx' & Hsame & Hkeep).
  exists x'. auto.
Qed.

End SessionInvariant.

(** C9 at the sample database: Alice's inactive session (row 1) through a
    login that opens a new session, a password reset request and a logout
    request. *)
Lemma sessions_never_reactivated_witness :
  let ops :=
    [OpAuthenticate "alice@example.com" "Secr3t!A" None None 1000 "s-4";
     OpResetPassword "reset-alice" "N3w!Passw" 2000;
     OpLogout 1 None] in
  exists x',
    sessions (run_operations Sample.settings Sample.bcrypt_hash
                Sample.bcrypt_verify 5 900 ops Sample.db) !! 1%nat = Some x'
    /\ same_session (Sample.session 2 1 "s-2" false (Some "expired")) x'
    /\ is_active x' = false.
Proof.
  intros ops.
  apply (sessions_never_reactivated Sample.settings Sample.bcrypt_hash
           Sample.bcrypt_verify 5 900 ops Sample.db 1%nat); reflexivity.
Defined.

(** * Further properties of the code *)

(** ** The password policy *)

Lemma any_char_spec (p : ascii -> bool) (s : string) :
  any_char p s = true
  <-> exists c, In c (list_ascii_of_string s) /\ p c = true.
Proof. unfold any_char. apply existsb_exists. Qed.

Lemma is_special_spec (c : ascii) :
  existsb (Ascii.eqb c) (list_ascii_of_string special_characters) = true
  <-> In c (list_ascii_of_string special_characters).
Proof.
  rewrite existsb_exists. split.
  - intros (x & Hx & Heq). apply Ascii.eqb_eq in Heq. by subst.
  - intros H. exists c. split; [done | apply Ascii.eqb_refl].
Qed.

(** X5.  [validate_password_strength] returns exactly for the passwords that
    have at least [PASSWORD_MIN_LENGTH] characters and, for each class the
    settings require, a character of that class (an upper-case letter, a
    lower-case letter, a digit, one of the listed special characters); for
    every other password it raises a [ValidationError], and nothing else. *)
Theorem validate_password_strength_accepts :
  forall (settings : Settings) (password : string),
    (validate_password_strength settings password = Return tt
     <-> PASSWORD_MIN_LENGTH settings <= Z.of_nat (String.length password)
         /\ (PASSWORD_REQUIRE_UPPERCASE settings = true ->
             exists c, In c (list_ascii_of_string password)
                       /\ isupper c = true)
         /\ (PASSWORD_REQUIRE_LOWERCASE settings = true ->
             exists c, In c (list_ascii_of_string password)
                       /\ islower c = true)
         /\ (PASSWORD_REQUIRE_NUMBERS settings = true ->
             exists c, In c (list_ascii_of_string password)
                       /\ isdigit c = true)
         /\ (PASSWORD_REQUIRE_SPECIAL settings = true ->
             exists c, In c (list_ascii_of_string password)
                       /\ In c (list_ascii_of_string special_characters)))
    /\ (forall e, validate_password_strength settings password = Raise e ->
        exists m, e = ValidationError m).
Proof.
  intros settings password. unfold validate_password_strength.
  set (special := fun c : ascii =>
         existsb (Ascii.eqb c) (list_ascii_of_string special_characters)).
  assert (Hspecial :
    any_char special password = true
    <-> exists c, In c (list_ascii_of_string password)
                  /\ In c (list_ascii_of_string special_characters)).
  { rewrite any_char_spec. unfold special.
    split; intros (c & Hc & H); exists c; (split; [done|]);
      by apply is_special_spec. }
  rewrite <- !any_char_spec, <- Hspecial.
  destruct (Z.ltb_spec (Z.of_nat (String.length password))
              (PASSWORD_MIN_LENGTH settings)) as [Hlen|Hlen].
  { split; [|intros e [= <-]; eauto]. split; [discriminate|]. lia. }
  destruct (PASSWORD_REQUIRE_UPPERCASE settings),
           (any_char isupper password); cbn [andb negb];
    try (split; [|intros e [= <-]; eauto];
         split; [discriminate|]; intros (_ & H & _); by specialize (H eq_refl)).
  all: destruct (PASSWORD_REQUIRE_LOWERCASE settings),
         (any_char islower password); cbn [andb negb];
    try (split; [|intros e [= <-]; eauto];
         split; [discriminate|];
         intros (_ & _ & H & _); by specialize (H eq_refl)).
  all: destruct (PASSWORD_REQUIRE_NUMBERS settings),
         (any_char isdigit password); cbn [andb negb];
    try (split; [|intros e [= <-]; eauto];
         split; [discriminate|];
         intros (_ & _ & _ & H & _); by specialize (H eq_refl)).
  all: destruct (PASSWORD_REQUIRE_SPECIAL settings),
         (any_char special password); cbn [andb negb];
    try (split; [|intros e [= <-]; eauto];
         split; [discriminate|];
         intros (_ & _ & _ & _ & H); by specialize (H eq_refl)).
  all: split; [|discriminate]; split; [|done]; intros _;
    repeat split; (lia || done).
Qed.

(** ** Organization slugs *)

Lemma lstrip_char_suffix (x : ascii) (l : list ascii) :
  exists pre, l = pre ++ lstrip_char x l.
Proof.
  induction l as [|c l [pre IH]]; [by exists []|].
  cbn [lstrip_char]. destruct (Ascii.eqb c x).
  - exists (c :: pre). cbn. by rewrite <- IH.
  - by exists [].
Qed.

Lemma lstrip_char_head (x c : ascii) (l r : list ascii) :
  lstrip_char x l = c :: r -> c <> x.
Proof.
  induction l as [|d l IH]; [discriminate|].
  cbn [lstrip_char]. destruct (Ascii.eqb_spec d x) as [->|Hne]; [exact IH|].
  by intros [= <- _].
Qed.

Lemma lstrip_char_Forall (P : ascii -> Prop) (x : ascii) (l : list ascii) :
  Forall P l -> Forall P (lstrip_char x l).
Proof.
  intros H. destruct (lstrip_char_suffix x l) as [pre Hpre].
  rewrite Hpre in H. by apply Forall_app in H as [_ ?].
Qed.

Lemma hyphenate_Forall (P : ascii -> Prop) (in_space : bool) (l : list ascii) :
  P "-"%char ->
  Forall (fun c => isspace c = false -> P c) l ->
  Forall P (hyphenate in_space l).
Proof.
  intros Hh Hl. revert in_space.
  induction Hl as [|c l Hc Hl IH]; intros in_space; cbn [hyphenate];
    [constructor|].
  destruct (isspace c) eqn:Hs.
  - destruct in_space; [apply IH | constructor; [done | apply IH]].
  - constructor; [by apply Hc | apply IH].
Qed.

Lemma lower_slug_char (c : ascii) :
  let d := lower c in
  islower d || isupper d || isdigit d || isspace d || Ascii.eqb d "-"%char
  = true ->
  isspace d = false ->
  islower d || isdigit d || Ascii.eqb d "-"%char = true.
Proof.
  destruct c as [[] [] [] [] [] [] [] []]; vm_compute; congruence.
Qed.

(** X6.  [generate_org_slug] returns a body, a hyphen and the random suffix;
    the body consists of lower-case letters, digits and hyphens only, and
    neither starts nor ends with a hyphen (it can be empty, when the name has
    no letter or digit). *)
Theorem generate_org_slug_shape :
  forall (name suffix : string),
    exists body : list ascii,
      generate_org_slug name suffix
      = string_of_list_ascii body +:+ "-" +:+ suffix
      /\ Forall (fun c => islower c || isdigit c || Ascii.eqb c "-"%char = true)
                body
      /\ (forall t, body <> "-"%char :: t)
      /\ (forall t, body <> t ++ ["-"%char]).
Proof.
  intros name suffix. unfold generate_org_slug. cbv zeta.
  set (kept := List.filter _ _).
  set (slug := hyphenate false kept).
  set (a := lstrip_char "-"%char slug).
  set (b := lstrip_char "-"%char (rev a)).
  exists (rev b). split; [reflexivity|].
  assert (Hslug : Forall (fun c => islower c || isdigit c
                                   || Ascii.eqb c "-"%char = true) slug).
  { apply hyphenate_Forall; [reflexivity|].
    apply Forall_forall. intros c Hc Hs. unfold kept in Hc.
    apply list_elem_of_In, filter_In in Hc as [Hc Hq].
    apply in_map_iff in Hc as (c0 & <- & _).
    by apply lower_slug_char. }
  split; [|split].
  - apply Forall_rev. unfold b. apply lstrip_char_Forall, Forall_rev.
    unfold a. by apply lstrip_char_Forall.
  - intros t Ht.
    destruct (lstrip_char_suffix "-"%char (rev a)) as [pre Hpre]. fold b in Hpre.
    apply (f_equal (@rev ascii)) in Hpre.
    rewrite rev_involutive, rev_app_distr, Ht in Hpre. cbn in Hpre.
    by apply (lstrip_char_head _ _ slug _ Hpre).
  - intros t Ht. apply (f_equal (@rev ascii)) in Ht.
    rewrite rev_involutive, rev_app_distr in Ht. cbn in Ht.
    by apply (lstrip_char_head _ _ (rev a) _ Ht).
Qed.

(** ** Rows and keys *)

Lemma next_id_above (ids : list Z) (i : Z) : In i ids -> i < next_id ids.
Proof.
  unfold next_id. induction ids as [|j ids IH]; [done|].
  cbn [foldr]. intros [->|Hin]; [lia|]. specialize (IH Hin). lia.
Qed.

Lemma next_id_positive (ids : list Z) : 0 < next_id ids.
Proof.
  unfold next_id. induction ids as [|j ids IH]; cbn [foldr]; lia.
Qed.

Lemma update_where_unchanged {A} (p : A -> bool) (f : A -> A) (rows : list A) :
  (forall r, In r rows -> p r = false) -> update_where p f rows = rows.
Proof.
  intros H. unfold update_where. induction rows as [|r rows IH]; [done|].
  cbn [List.map]. rewrite (H r) by (by left). f_equal.
  apply IH. intros x Hx. apply H. by right.
Qed.

Lemma update_where_app {A} (p : A -> bool) (f : A -> A) (l1 l2 : list A) :
  update_where p f (l1 ++ l2) = update_where p f l1 ++ update_where p f l2.
Proof. unfold update_where. apply List.map_app. Qed.

Lemma select_where_app {A} (p : A -> bool) (l1 l2 : list A) :
  select_where p (l1 ++ l2) = select_where p l1 ++ select_where p l2.
Proof. unfold select_where. apply List.filter_app. Qed.

(** ** Registration that succeeds *)

Section RegisterSuccess.

Variable settings : Settings.
Variable pwd_context_hash : string -> string.

Local Abbreviation register := (register_user settings pwd_context_hash).
Local Abbreviation registered := (registered_user pwd_context_hash).

(** [store_organization] on a table to which the organization was just
    added. *)
Lemma store_new_organization (o o' : Organization) (t : Tables) :
  org_id_of o = next_id (List.map org_id_of (organizations t)) ->
  org_id_of o' = org_id_of o ->
  store_organization o' (add_organization o t)
  = add_organization o' t.
Proof.
  intros Hid Hid'. unfold store_organization, add_organization.
  cbn [users sessions organizations]. f_equal.
  rewrite update_where_app. cbn [update_where List.map].
  rewrite Hid', Z.eqb_refl. f_equal.
  apply update_where_unchanged. intros r Hr. apply Z.eqb_neq.
  pose proof (next_id_above (List.map org_id_of (organizations t))
                (org_id_of r) (in_map _ _ _ Hr)). lia.
Qed.

(** What a registration stores and returns, once the email is free and the
    password satisfies the policy, by the organization named. *)
Lemma register_user_run (db : Tables)
    (email' password first_name' last_name' : string)
    (organization_name : option string) (rnd suffix : string) :
  select_where (fun r => String.eqb (email r) email') (users db) = [] ->
  validate_password_strength settings password = Return tt ->
  let id := next_id (List.map user_id_of (users db)) in
  let name := default EmptyString organization_name in
  let found := select_where (fun o => String.eqb (org_name o) name)
                            (organizations db) in
  let new_user := registered email' password first_name' last_name' in
  (truthy_str organization_name = false ->
   get_db (register email' password first_name' last_name' organization_name
             rnd suffix) db
   = (add_user (new_user None USER rnd id) db,
      Return (new_user None USER rnd id)))
  /\ (truthy_str organization_name = true -> found = [] ->
      let o := new_organization name suffix
                 (next_id (List.map org_id_of (organizations db))) in
      let u := new_user (Some (org_id_of o)) ADMIN rnd id in
      get_db (register email' password first_name' last_name'
                organization_name rnd suffix) db
      = (add_user u (add_organization (increment_usage o) db), Return u))
  /\ (forall o : Organization,
        truthy_str organization_name = true -> found = [o] ->
        let u := new_user (Some (org_id_of o))
                   (if user_count o =? 0 then ADMIN else USER) rnd id in
        get_db (register email' password first_name' last_name'
                  organization_name rnd suffix) db
        = (add_user u (store_organization (increment_usage o) db), Return u)).
Proof.
  intros Hsel Hpw id name found new_user.
  split; [|split].
  - intros Horg. unfold register_user. svc_unfold. cbn [pending persisted].
    rewrite Hsel. cbn [scalar_one_or_none]. rewrite Hpw, Horg. reflexivity.
  - intros Horg Hfound o u. unfold register_user, find_or_create_organization.
    svc_unfold. cbn [pending persisted].
    rewrite Hsel. cbn [scalar_one_or_none]. rewrite Hpw, Horg.
    cbn [pending persisted]. unfold found, name in Hfound. rewrite Hfound.
    cbn [scalar_one_or_none pending persisted].
    fold name.
    fold (new_organization name suffix
            (next_id (List.map org_id_of (organizations db)))). fold o.
    rewrite store_new_organization by reflexivity.
    reflexivity.
  - intros o Horg Hfound u. unfold register_user, find_or_create_organization.
    svc_unfold. cbn [pending persisted].
    rewrite Hsel. cbn [scalar_one_or_none]. rewrite Hpw, Horg.
    cbn [pending persisted]. unfold found, name in Hfound. rewrite Hfound.
    cbn [scalar_one_or_none]. reflexivity.
Qed.

Lemma register_user_stores :
  forall (db : Tables) (email' password first_name' last_name' : string)
         (organization_name : option string) (rnd suffix : string),
    select_where (fun r => String.eqb (email r) email') (users db) = [] ->
    validate_password_strength settings password = Return tt ->
    (truthy_str organization_name = true ->
     (length (select_where
                (fun o => String.eqb (org_name o)
                            (default EmptyString organization_name))
                (organizations db)) <= 1)%nat) ->
    exists (u : User) (db' : Tables),
      get_db (register email' password first_name' last_name'
                organization_name rnd suffix) db = (db', Return u)
      /\ users db' = users db ++ [u]
      /\ sessions db' = sessions db
      /\ (exists org_id role', u = registered email' password first_name'
                                     last_name' org_id role' rnd
                                     (next_id (List.map user_id_of (users db))))
      /\ email u = email'
      /\ password_hash u = hash_password pwd_context_hash password
      /\ status u = PENDING
      /\ email_verified u = false
      /\ verification_token u = Some rnd
      /\ (forall r, In r (users db) -> user_id_of r < user_id_of u).
Proof.
  intros db email' password fn ln org rnd suffix Hsel Hpw Horg.
  destruct (register_user_run db email' password fn ln org rnd suffix Hsel Hpw)
    as (HA & HB & HC).
  assert (Hfresh : forall org_id role' r, In r (users db) ->
            user_id_of r
            < user_id_of (registered email' password fn ln org_id role' rnd
                            (next_id (List.map user_id_of (users db))))).
  { intros org_id role' r Hr. cbn [registered_user user_id_of].
    apply next_id_above, in_map, Hr. }
  destruct (truthy_str org) eqn:Ht.
  - specialize (Horg eq_refl).
    destruct (select_where _ (organizations db)) as [|o [|o2 l]] eqn:Hfound.
    + eexists _, _. split; [apply HB; done|].
      repeat split; eauto.
    + eexists _, _. split; [apply (HC o); done|].
      repeat split; eauto.
    + cbn in Horg. lia.
  - eexists _, _. split; [apply HA; done|].
    repeat split; eauto.
Qed.

(** X7.  A registration whose email no stored user has, whose password
    satisfies the policy, and whose organization name, if any, at most one
    stored organization has, returns a new user and stores it after the
    existing users, which are unchanged, as are the sessions.  The new user
    has the email, names and hash of the request, is pending and unverified,
    holds the verification token, has no failed logins, no lock and no reset
    token, and a key above every existing key. *)
Theorem register_user_success :
  forall (db : Tables) (email' password first_name' last_name' : string)
         (organization_name : option string) (rnd suffix : string),
    select_where (fun r => String.eqb (email r) email') (users db) = [] ->
    validate_password_strength settings password = Return tt ->
    (truthy_str organization_name = true ->
     (length (select_where
                (fun o => String.eqb (org_name o)
                            (default EmptyString organization_name))
                (organizations db)) <= 1)%nat) ->
    exists (u : User) (db' : Tables),
      get_db (register email' password first_name' last_name'
                organization_name rnd suffix) db = (db', Return u)
      /\ users db' = users db ++ [u]
      /\ sessions db' = sessions db
      /\ (exists org_id role', u = registered email' password first_name'
                                     last_name' org_id role' rnd
                                     (next_id (List.map user_id_of (users db))))
      /\ email u = email'
      /\ password_hash u = hash_password pwd_context_hash password
      /\ status u = PENDING
      /\ email_verified u = false
      /\ verification_token u = Some rnd
      /\ (forall r, In r (users db) -> user_id_of r < user_id_of u).
Proof. exact register_user_stores. Qed.

(** X8.  The role and organization of a newly registered user.  Without an
    organization name (none, or the empty string) the user has role [USER]
    and no organization, and no organization row changes.  With the name of
    no stored organization, an organization of that name is added with a
    fresh key, a generated slug and a user count of one, and the user is its
    [ADMIN].  With the name of a stored organization, the user joins it, its
    user count grows by one, and the user is [ADMIN] exactly when the
    organization had no user before. *)
Theorem register_user_role :
  forall (db : Tables) (email' password first_name' last_name' : string)
         (organization_name : option string) (rnd suffix : string),
    select_where (fun r => String.eqb (email r) email') (users db) = [] ->
    validate_password_strength settings password = Return tt ->
    let r := get_db (register email' password first_name' last_name'
                       organization_name rnd suffix) db in
    let name := default EmptyString organization_name in
    let found := select_where (fun o => String.eqb (org_name o) name)
                              (organizations db) in
    (truthy_str organization_name = false ->
     exists u, snd r = Return u
       /\ role u = USER /\ organization_id u = None
       /\ organizations (fst r) = organizations db)
    /\ (truthy_str organization_name = true -> found = [] ->
        exists u o, snd r = Return u
          /\ role u = ADMIN /\ organization_id u = Some (org_id_of o)
          /\ organizations (fst r) = organizations db ++ [o]
          /\ org_name o = name
          /\ org_slug o = generate_org_slug name suffix
          /\ user_count o = 1
          /\ (forall x, In x (organizations db) -> org_id_of x < org_id_of o))
    /\ (forall o, truthy_str organization_name = true -> found = [o] ->
        exists u, snd r = Return u
          /\ role u = (if user_count o =? 0 then ADMIN else USER)
          /\ organization_id u = Some (org_id_of o)
          /\ organizations (fst r)
             = update_where (fun x => org_id_of x =? org_id_of o)
                 (fun _ => increment_usage o) (organizations db)
          /\ user_count (increment_usage o) = user_count o + 1).
Proof.
  intros db email' password fn ln org rnd suffix Hsel Hpw r name found.
  destruct (register_user_run db email' password fn ln org rnd suffix Hsel Hpw)
    as (HA & HB & HC).
  split; [|split].
  - intros Ht. unfold r. rewrite (HA Ht). eexists. by repeat split.
  - intros Ht Hf. unfold r. rewrite (HB Ht Hf).
    eexists _, (increment_usage
                  (new_organization name suffix
                     (next_id (List.map org_id_of (organizations db))))).
    split; [reflexivity|]. split_and!; try reflexivity.
    intros x Hx. cbn. apply next_id_above, in_map, Hx.
  - intros o Ht Hf. unfold r. rewrite (HC o Ht Hf). eexists.
    by repeat split.
Qed.

End RegisterSuccess.

(** ** Login that succeeds *)

Section LoginSuccess.

Variable settings : Settings.
Variable pwd_context_hash : string -> string.
Variable pwd_context_verify : string -> string -> bool.
Variables (MAX_FAILED_LOGINS LOCKOUT_SECONDS : Z).

Local Abbreviation authenticate :=
  (authenticate_user settings pwd_context_verify
     MAX_FAILED_LOGINS LOCKOUT_SECONDS).

(** X9.  A login that passes the five checks stores the user with its
    failure count reset, its lock cleared and [last_login_at = now], and adds
    one session row after the existing ones: active, owned by the user, with
    the random token, a key above every existing key, and the expiry
    [now + JWT_REFRESH_TOKEN_EXPIRE_DAYS].  The refresh token returned is
    accepted by the [try] block of [refresh_access_token] until that same
    expiry and names the user; the access token verifies, until its own
    expiry, to the user's claims. *)
Theorem authenticate_user_success :
  forall (db : Tables) (email' password : string)
         (ip_address' user_agent' : option string) (now : Z) (rnd : string)
         (u : User),
    select_where (fun r => String.eqb (email r) email') (users db) = [u] ->
    is_locked u now = false ->
    pwd_context_verify password (password_hash u) = true ->
    status u = ACTIVE ->
    email_verified u = true ->
    let u' := update_login_tracking u now in
    let x := login_session settings (user_id_of u) ip_address' user_agent'
               now rnd (next_id (List.map session_id_of (sessions db))) in
    exists access refresh,
      get_db (authenticate email' password ip_address' user_agent' now rnd) db
      = (add_session x (store_user u' db), Return (u', access, refresh))
      /\ sessions (add_session x (store_user u' db)) = sessions db ++ [x]
      /\ (forall y, In y (sessions db) -> session_id_of y < session_id_of x)
      /\ failed_login_count u' = 0
      /\ locked_until u' = None
      /\ last_login_at u' = Some now
      /\ (forall now', now' <= expires_at x ->
          refresh_claims settings refresh now' = Return (user_id_of u))
      /\ (forall now', now' <= access_expire settings None now ->
          verify_token settings access now'
          = Return (<["exp" := JInt (access_expire settings None now)]>
                      (access_token_data u'))).
Proof.
  intros db email' password ip ua now rnd u Hsel Hl Hv Hs He u' x.
  subst u' x.
  exists (create_access_token settings
            (access_token_data (update_login_tracking u now)) None now),
         (create_refresh_token settings (user_id_of u) now).
  split.
  { rewrite (authenticate_user_cases settings pwd_context_verify
               MAX_FAILED_LOGINS LOCKOUT_SECONDS db email' password ip ua now
               rnd (Some u)) by (by rewrite Hsel).
    rewrite Hl, Hv, Hs, He. cbn [negb]. rewrite bool_decide_eq_true_2 by done.
    cbn [negb]. cbv zeta. unfold add_new_session.
    rewrite update_login_tracking_id. reflexivity. }
  split_and!.
  - reflexivity.
  - intros y Hy. cbn. apply next_id_above, in_map, Hy.
  - by destruct u.
  - by destruct u.
  - by destruct u.
  - intros now' Hnow'. by apply refresh_claims_issued.
  - intros now' Hnow'. unfold verify_token.
    rewrite decode_access_token by apply access_token_data_valid.
    destruct (Z.ltb_spec (access_expire settings None now) now'); [lia|done].
Qed.

End LoginSuccess.

(** X9 at the sample database: Alice logs in at 1000. *)
Lemma authenticate_user_success_witness :
  exists access refresh,
    get_db (Sample.authenticate "alice@example.com" "Secr3t!A"
              None None 1000 "s-4") Sample.db
    = (add_session (login_session Sample.settings 1 None None 1000 "s-4" 4)
         (store_user (update_login_tracking Sample.alice 1000) Sample.db),
       Return (update_login_tracking Sample.alice 1000, access, refresh)).
Proof.
  destruct (authenticate_user_success Sample.settings Sample.bcrypt_verify
              5 900 Sample.db "alice@example.com" "Secr3t!A" None None 1000
              "s-4" Sample.alice eq_refl eq_refl eq_refl eq_refl eq_refl)
    as (access & refresh & H & _).
  exists access, refresh. exact H.
Defined.

(** ** Sequencing under [get_db] *)

Lemma returns_committed_raise {A} (e : Exception) :
  returns_committed (@raise A e).
Proof. intros s s' a [= _ ?]. Qed.

Lemma returns_committed_commit_ret {A} (a : A) :
  returns_committed (commit ≫= fun _ => mret a).
Proof. intros s s' a' [= <- _]. reflexivity. Qed.

Lemma returns_committed_bind {A B} (m : Svc A) (k : A -> Svc B) :
  (forall a, returns_committed (k a)) -> returns_committed (m ≫= k).
Proof.
  intros Hk s s' b. unfold mbind, Svc_bind, svc_bind.
  destruct (m s) as [s1 [a|e]]; [apply Hk | discriminate].
Qed.

Ltac returns_committed_step :=
  first
    [ apply returns_committed_raise
    | apply returns_committed_commit_ret
    | apply returns_committed_bind; intros ?
    | match goal with
      | |- returns_committed (match ?x with _ => _ end) => destruct x
      | |- returns_committed (let _ := _ in _) => cbv zeta
      end ].

(** Under [get_db], a coroutine that has committed when it returns can be
    followed by another as if the second ran in a request of its own on the
    tables the first stored. *)
Lemma get_db_bind {A B} (m : Svc A) (k : A -> Svc B) (db : Tables) :
  returns_committed m ->
  get_db (m ≫= k) db
  = match get_db m db with
    | (db1, Return a) => get_db (k a) db1
    | (db1, Raise e) => (db1, Raise e)
    end.
Proof.
  intros Hm. unfold get_db, mbind, Svc_bind, svc_bind.
  destruct (m _) as [s1 [a|e]] eqn:Hms; [|reflexivity].
  specialize (Hm _ _ _ Hms). destruct s1 as [p q]. cbn in *. by subst.
Qed.

Lemma returns_committed_register_user settings pwd_context_hash e p f l o r x :
  returns_committed (register_user settings pwd_context_hash e p f l o r x).
Proof.
  unfold register_user. repeat returns_committed_step.
Qed.

Lemma returns_committed_verify_email t n :
  returns_committed (verify_email t n).
Proof. unfold verify_email. repeat returns_committed_step. Qed.

Lemma returns_committed_request_password_reset e n r :
  returns_committed (request_password_reset e n r).
Proof. unfold request_password_reset. repeat returns_committed_step. Qed.

(** ** From registration to the first login *)

Lemma store_user_appended (u u' : User) (rows : list User)
    (sess : list UserSession) (orgs : list Organization) :
  (forall r, In r rows -> user_id_of r < user_id_of u) ->
  user_id_of u' = user_id_of u ->
  store_user u' (mkTables (rows ++ [u]) sess orgs)
  = mkTables (rows ++ [u']) sess orgs.
Proof.
  intros Hlt Hid. unfold store_user. cbn [users sessions organizations].
  f_equal. rewrite update_where_app. cbn [update_where List.map].
  rewrite Hid, Z.eqb_refl. f_equal.
  apply update_where_unchanged. intros r Hr. apply Z.eqb_neq.
  specialize (Hlt r Hr). lia.
Qed.

Lemma verify_email_run (db : Tables) (token : string) (now : Z) (u : User) :
  select_where (fun r => bool_decide (verification_token r = Some token))
               (users db) = [u] ->
  get_db (verify_email token now) db
  = (store_user (after_verify_email now u) db,
     Return (after_verify_email now u)).
Proof.
  intros Hsel. unfold verify_email. svc_unfold. cbn [pending persisted].
  rewrite Hsel. reflexivity.
Qed.

Lemma select_where_appended {A} (p : A -> bool) (rows : list A) (x : A) :
  select_where p rows = [] -> p x = true -> select_where p (rows ++ [x]) = [x].
Proof.
  intros H Hx. rewrite select_where_app, H. unfold select_where.
  cbn [List.filter]. by rewrite Hx.
Qed.

Section FirstLogin.

Variable settings : Settings.
Variable pwd_context_hash : string -> string.
Variable pwd_context_verify : string -> string -> bool.
Variables (MAX_FAILED_LOGINS LOCKOUT_SECONDS : Z).

Local Abbreviation register := (register_user settings pwd_context_hash).
Local Abbreviation registered := (registered_user pwd_context_hash).
Local Abbreviation authenticate :=
  (authenticate_user settings pwd_context_verify
     MAX_FAILED_LOGINS LOCKOUT_SECONDS).

(** A registration that returns found the email free, and stored the user
    it returns after the users there were, with a key above theirs. *)
Lemma register_user_returns (db db1 : Tables)
    (email' password first_name' last_name' : string)
    (organization_name : option string) (rnd suffix : string) (u : User) :
  get_db (register email' password first_name' last_name' organization_name
            rnd suffix) db = (db1, Return u) ->
  select_where (fun r => String.eqb (email r) email') (users db) = []
  /\ users db1 = users db ++ [u]
  /\ sessions db1 = sessions db
  /\ (exists org_id role', u = registered email' password first_name'
                                 last_name' org_id role' rnd
                                 (next_id (List.map user_id_of (users db)))).
Proof.
  intros Hrun.
  destruct (select_where (fun r => String.eqb (email r) email') (users db))
    as [|a [|b l]] eqn:Hsel;
    [| exfalso; revert Hrun; unfold register_user; svc_unfold;
       cbn [pending persisted]; rewrite Hsel; discriminate ..].
  destruct (validate_password_strength settings password) as [[]|e] eqn:Hpw;
    [| exfalso; revert Hrun; unfold register_user; svc_unfold;
       cbn [pending persisted]; rewrite Hsel; cbn [scalar_one_or_none];
       rewrite Hpw; discriminate].
  destruct (register_user_run settings pwd_context_hash db email' password
              first_name' last_name' organization_name rnd suffix Hsel Hpw)
    as (HA & HB & HC).
  destruct (truthy_str organization_name) eqn:Ht.
  - destruct (select_where
                (fun o => String.eqb (org_name o)
                            (default EmptyString organization_name))
                (organizations db)) as [|o [|o2 l]] eqn:Hfound.
    + rewrite (HB eq_refl eq_refl) in Hrun. injection Hrun as <- <-.
      split; [done|]. split_and!; eauto.
    + rewrite (HC o eq_refl eq_refl) in Hrun. injection Hrun as <- <-.
      split; [done|]. split_and!; eauto.
    + exfalso. revert Hrun.
      unfold register_user, find_or_create_organization. svc_unfold.
      cbn [pending persisted]. rewrite Hsel. cbn [scalar_one_or_none].
      rewrite Hpw, Ht. cbn [pending persisted]. rewrite Hfound. discriminate.
  - rewrite (HA eq_refl) in Hrun. injection Hrun as <- <-.
    split; [done|]. split_and!; eauto.
Qed.

(** A login with the email and password of a registration, on the tables the
    registration stored, or on those tables with the new user's row replaced
    by one with the same email, hash and lock state. *)
Lemma authenticate_registered (db : Tables)
    (email' password : string) (ip_address' user_agent' : option string)
    (now : Z) (rnd : string) (u : User) :
  select_where (fun r => String.eqb (email r) email') (users db) = [] ->
  email u = email' ->
  locked_until u = None ->
  get_db (authenticate email' password ip_address' user_agent' now rnd)
         (mkTables (users db ++ [u]) (sessions db) (organizations db))
  = let t := mkTables (users db ++ [u]) (sessions db) (organizations db) in
    if negb (pwd_context_verify password (password_hash u))
    then (store_user (increment_failed_login MAX_FAILED_LOGINS LOCKOUT_SECONDS
                        u now) t,
          Raise (AuthenticationError "Invalid email or password"))
    else if negb (bool_decide (status u = ACTIVE))
    then (t, Raise (AuthenticationError "Account is not active"))
    else if negb (email_verified u)
    then (t, Raise (AuthenticationError "Email address not verified"))
    else
      let u' := update_login_tracking u now in
      (add_new_session
         (login_session settings (user_id_of u') ip_address' user_agent'
            now rnd) (store_user u' t),
       Return (u', create_access_token settings (access_token_data u') None now,
               create_refresh_token settings (user_id_of u') now)).
Proof.
  intros Hsel He Hl.
  rewrite (authenticate_user_cases settings pwd_context_verify
             MAX_FAILED_LOGINS LOCKOUT_SECONDS _ email' password ip_address'
             user_agent' now rnd (Some u)).
  - unfold is_locked. rewrite Hl. reflexivity.
  - cbn [users]. rewrite (select_where_appended _ _ u Hsel); [done|].
    rewrite He. apply String.eqb_refl.
Qed.

(** X10.  The path from registration to the first login.  After a
    registration that succeeds, a login with the same email and password is
    refused with ["Account is not active"], provided the hasher verifies the
    password it hashed; once [verify_email] is called with the token of the
    registration, which no other user holds, the same login returns the
    registered user. *)
Theorem register_verify_login :
  forall (db : Tables) (email' password first_name' last_name' : string)
         (organization_name : option string) (rnd suffix : string)
         (ip_address' user_agent' : option string) (now1 now2 : Z)
         (session_rnd : string),
    select_where (fun r => String.eqb (email r) email') (users db) = [] ->
    validate_password_strength settings password = Return tt ->
    (truthy_str organization_name = true ->
     (length (select_where
                (fun o => String.eqb (org_name o)
                            (default EmptyString organization_name))
                (organizations db)) <= 1)%nat) ->
    select_where (fun r => bool_decide (verification_token r = Some rnd))
                 (users db) = [] ->
    pwd_context_verify password (pwd_context_hash password) = true ->
    exists (u : User) (db1 db2 : Tables) (u2 : User) (access refresh : jwt.Token),
      get_db (register email' password first_name' last_name'
                organization_name rnd suffix) db = (db1, Return u)
      /\ snd (get_db (authenticate email' password ip_address' user_agent'
                        now2 session_rnd) db1)
         = Raise (AuthenticationError "Account is not active")
      /\ get_db (verify_email rnd now1) db1
         = (db2, Return (after_verify_email now1 u))
      /\ snd (get_db (authenticate email' password ip_address' user_agent'
                        now2 session_rnd) db2)
         = Return (u2, access, refresh)
      /\ user_id_of u2 = user_id_of u
      /\ email u2 = email'.
Proof.
  intros db email' password fn ln org rnd suffix ip ua now1 now2 srnd
         Hsel Hpw Horg Htok Hverify.
  destruct (register_user_stores settings pwd_context_hash db email' password
              fn ln org rnd suffix Hsel Hpw Horg)
    as (u & db1 & Hrun & _).
  destruct (register_user_returns db db1 email' password fn ln org rnd suffix
              u Hrun) as (_ & Husers & Hsess & org_id & role' & Hu).
  assert (Hdb1 : db1 = mkTables (users db ++ [u]) (sessions db)
                         (organizations db1)).
  { destruct db1; cbn in *; by subst. }
  set (u' := after_verify_email now1 u).
  assert (Hlt : forall r, In r (users db) -> user_id_of r < user_id_of u).
  { intros r Hr. rewrite Hu. cbn. apply next_id_above, in_map, Hr. }
  assert (Hdb2 : store_user u' db1
                 = mkTables (users db ++ [u']) (sessions db)
                     (organizations db1)).
  { rewrite Hdb1 at 1.
    apply store_user_appended; [done | apply after_verify_email_id]. }
  exists u, db1, (store_user u' db1), (update_login_tracking u' now2).
  eexists _, _. split; [exact Hrun|]. split_and!.
  - rewrite Hdb1.
    rewrite (authenticate_registered
               (mkTables (users db) (sessions db) (organizations db1)))
      by (done || by rewrite Hu).
    rewrite Hu. cbn [password_hash registered_user].
    unfold hash_password. rewrite Hverify. reflexivity.
  - apply verify_email_run. rewrite Husers.
    apply select_where_appended; [done|]. rewrite Hu. cbn.
    by apply bool_decide_eq_true_2.
  - rewrite Hdb2.
    rewrite (authenticate_registered
               (mkTables (users db) (sessions db) (organizations db1)))
      by (done || (unfold u'; by rewrite Hu)).
    unfold u'. rewrite Hu.
    cbn [password_hash registered_user after_verify_email set_status
         set_verification_token set_email_verified_at set_email_verified
         status email_verified].
    unfold hash_password. rewrite Hverify. reflexivity.
  - unfold u'. by destruct u.
  - unfold u'. rewrite Hu. reflexivity.
Qed.

(** X11.  [POST /register] never answers with its success response.  The
    endpoint logs the user in right after registering, and the user just
    stored is pending: whenever the registration itself succeeds the request
    raises, so every call ends in an error response.  When the hasher
    verifies the password it hashed, that response is 401 ["Account is not
    active"], and the tables stored are those the registration committed,
    new user included. *)
Theorem register_endpoint_never_succeeds :
  forall (db : Tables) (email' password first_name' last_name' : string)
         (organization_name ip_address' user_agent' : option string)
         (now : Z) (rnd suffix session_rnd : string),
    let r := Endpoints.register_user settings pwd_context_hash
               pwd_context_verify MAX_FAILED_LOGINS LOCKOUT_SECONDS
               email' password first_name' last_name' organization_name
               ip_address' user_agent' now rnd suffix session_rnd db in
    (exists err, snd r = inl err)
    /\ (forall db1 u,
          get_db (register email' password first_name' last_name'
                    organization_name rnd suffix) db = (db1, Return u) ->
          pwd_context_verify password (pwd_context_hash password) = true ->
          r = (db1, inl {| http_status := 401;
                           err_code := "AUTHENTICATION_ERROR";
                           err_message := "Account is not active" |})
          /\ In u (users db1)).
Proof.
  intros db email' password fn ln org ip ua now rnd suffix srnd r.
  unfold r, Endpoints.register_user.
  rewrite get_db_bind by apply returns_committed_register_user.
  destruct (get_db (register email' password fn ln org rnd suffix) db)
    as [db1 [u|e]] eqn:Hrun.
  2:{ split; [by eexists | intros ? ? [=]]. }
  destruct (register_user_returns db db1 email' password fn ln org rnd suffix
              u Hrun) as (Hsel & Husers & Hsess & org_id & role' & Hu).
  assert (Hdb1 : db1 = mkTables (users db ++ [u]) (sessions db)
                         (organizations db1)).
  { destruct db1; cbn in *; by subst. }
  assert (Hbody :
    get_db (authenticate email' password ip ua now srnd ≫=
              (fun r0 => let '(user, access_token, refresh_token) := r0 in
                 mret (mkAuthResponse user
                         (mkTokenResponse access_token refresh_token
                            "bearer" 1800)))) db1
    = if negb (pwd_context_verify password (password_hash u))
      then (store_user (increment_failed_login MAX_FAILED_LOGINS
                          LOCKOUT_SECONDS u now) db1,
            Raise (AuthenticationError "Invalid email or password"))
      else (db1, Raise (AuthenticationError "Account is not active"))).
  { pose proof (authenticate_registered
                  (mkTables (users db) (sessions db) (organizations db1))
                  email' password ip ua now srnd u Hsel
                  ltac:(by rewrite Hu) ltac:(by rewrite Hu)) as Hauth.
    cbn [users sessions organizations] in Hauth. rewrite <- Hdb1 in Hauth.
    assert (Hst : status u = PENDING) by (by rewrite Hu).
    rewrite Hst in Hauth. cbn [negb] in Hauth.
    rewrite bool_decide_eq_false_2 in Hauth by done. cbn [negb] in Hauth.
    revert Hauth. unfold get_db, mbind, Svc_bind, svc_bind.
    destruct (authenticate email' password ip ua now srnd _)
      as [s1 [a|e]];
      destruct (negb (pwd_context_verify password (password_hash u)));
      intros [= <- <-] || intros [=]; reflexivity. }
  rewrite Hbody. split.
  - destruct (negb _); by eexists.
  - intros db1' u' [= <- <-] Hverify.
    rewrite Hu at 1. cbn [password_hash registered_user].
    unfold hash_password. rewrite Hverify. cbn [negb respond].
    split; [reflexivity|]. rewrite Husers. apply in_app_iff. right. by left.
Qed.

End FirstLogin.

(** ** The life of a reset token *)

Lemma store_user_middle (w x : User) (l1 l2 : list User) (t : Tables) :
  users t = l1 ++ x :: l2 ->
  (forall r, In r (l1 ++ l2) -> user_id_of r <> user_id_of w) ->
  user_id_of x = user_id_of w ->
  users (store_user w t) = l1 ++ w :: l2.
Proof.
  intros Ht Hne Hid. unfold store_user. cbn [users]. rewrite Ht.
  rewrite update_where_app.
  change (update_where (fun r => user_id_of r =? user_id_of w)
            (fun _ => w) (x :: l2))
    with ((if user_id_of x =? user_id_of w then w else x)
          :: update_where (fun r => user_id_of r =? user_id_of w)
               (fun _ => w) l2).
  rewrite Hid, Z.eqb_refl.
  rewrite !update_where_unchanged; [done|..];
    intros r Hr; apply Z.eqb_neq, Hne, in_app_iff; auto.
Qed.

(** A stored row, when keys are unique, splits the table into the rows
    before and after it, none of which has its key. *)
Lemma users_split (u : User) (t : Tables) :
  NoDup (List.map user_id_of (users t)) ->
  In u (users t) ->
  exists l1 l2,
    users t = l1 ++ u :: l2
    /\ forall r, In r (l1 ++ l2) -> user_id_of r <> user_id_of u.
Proof.
  intros Hnd Hin. apply in_split in Hin as (l1 & l2 & Hsplit).
  exists l1, l2. split; [done|].
  rewrite Hsplit, List.map_app in Hnd. cbn [List.map] in Hnd.
  apply NoDup_app in Hnd as (_ & Hdisj & Hnd2).
  apply NoDup_cons in Hnd2 as [Hnot2 _].
  intros r Hr Heq. apply in_app_iff in Hr as [Hr|Hr].
  - apply (Hdisj (user_id_of r)).
    + apply list_elem_of_In, in_map, Hr.
    + rewrite Heq. apply list_elem_of_here.
  - apply Hnot2. rewrite <- Heq. apply list_elem_of_In, in_map, Hr.
Qed.

Lemma select_where_middle {A} (p : A -> bool) (l1 l2 : list A) (x : A) :
  (forall r, In r (l1 ++ l2) -> p r = false) ->
  select_where p (l1 ++ x :: l2) = if p x then [x] else [].
Proof.
  intros H. rewrite select_where_app. unfold select_where.
  cbn [List.filter].
  assert (H1 : List.filter p l1 = []).
  { apply (select_where_none p l1). intros r Hr. apply H, in_app_iff.
    left. by apply list_elem_of_In. }
  assert (H2 : List.filter p l2 = []).
  { apply (select_where_none p l2). intros r Hr. apply H, in_app_iff.
    right. by apply list_elem_of_In. }
  rewrite H1, H2. by destruct (p x).
Qed.

Section ResetLifecycle.

Variable settings : Settings.
Variable pwd_context_hash : string -> string.
Variable pwd_context_verify : string -> string -> bool.
Variables (MAX_FAILED_LOGINS LOCKOUT_SECONDS : Z).

Local Abbreviation reset := (reset_password settings pwd_context_hash).
Local Abbreviation authenticate :=
  (authenticate_user settings pwd_context_verify
     MAX_FAILED_LOGINS LOCKOUT_SECONDS).
Local Abbreviation holds_reset_token token :=
  (fun r : User => bool_decide (password_reset_token r = Some token)).

Lemma request_password_reset_run (db : Tables) (email' : string) (now : Z)
    (rnd : string) (u : User) :
  select_where (fun r => String.eqb (email r) email') (users db) = [u] ->
  get_db (request_password_reset email' now rnd) db
  = (store_user (after_reset_request now rnd u) db,
     Return (after_reset_request now rnd u)).
Proof.
  intros Hsel. unfold request_password_reset. svc_unfold.
  cbn [pending persisted]. rewrite Hsel. reflexivity.
Qed.

(** A [reset_password] request whose token one user holds: it raises, for
    an expired token, for a password the policy refuses, and otherwise at
    the statement that calls [update] on a [Select]; nothing is stored. *)
Lemma reset_password_run (db : Tables) (token new_password : string) (now : Z)
    (u : User) (expires : Z) :
  select_where (holds_reset_token token) (users db) = [u] ->
  password_reset_expires u = Some expires ->
  get_db (reset token new_password now) db
  = (db, Raise (if expires <? now
                then ValidationError "Reset token has expired"
                else match validate_password_strength settings new_password with
                     | Raise e => e
                     | Return _ => AttributeError
                     end)).
Proof.
  intros Hsel Hexp. unfold reset_password, execute_select_update. svc_unfold.
  cbn [pending persisted]. rewrite Hsel. cbn [scalar_one_or_none].
  rewrite Hexp. destruct (expires <? now); [reflexivity|].
  by destruct (validate_password_strength settings new_password) as [[]|e].
Qed.


(** X12.  The life of a reset token.  When keys are unique, the email
    belongs to one user and no stored user holds the random token,
    [request_password_reset] stores the token on that user, who is then its
    only holder, with an expiry one hour later.  Every [reset_password] with
    that token then raises and stores nothing, so the token is never
    consumed: after the hour it is refused as expired; within the hour a
    password the policy refuses raises the policy's [ValidationError], and a
    password that satisfies it raises [AttributeError]. *)
Theorem reset_token_lifecycle :
  forall (db : Tables) (email' : string) (now : Z) (rnd : string) (u : User),
    NoDup (List.map user_id_of (users db)) ->
    select_where (fun r => String.eqb (email r) email') (users db) = [u] ->
    (forall r, In r (users db) -> password_reset_token r <> Some rnd) ->
    let u1 := after_reset_request now rnd u in
    let db1 := store_user u1 db in
    get_db (request_password_reset email' now rnd) db = (db1, Return u1)
    /\ password_reset_token u1 = Some rnd
    /\ password_reset_expires u1 = Some (now + 3600)
    /\ select_where (holds_reset_token rnd) (users db1) = [u1]
    /\ (forall new_password now2,
          now + 3600 < now2 ->
          get_db (reset rnd new_password now2) db1
          = (db1, Raise (ValidationError "Reset token has expired")))
    /\ (forall new_password now2 e,
          now2 <= now + 3600 ->
          validate_password_strength settings new_password = Raise e ->
          get_db (reset rnd new_password now2) db1 = (db1, Raise e))
    /\ (forall new_password now2,
          now2 <= now + 3600 ->
          validate_password_strength settings new_password = Return tt ->
          get_db (reset rnd new_password now2) db1
          = (db1, Raise AttributeError)).
Proof.
  intros db email' now rnd u Hnd Hsel Hfresh u1 db1.
  destruct (select_where_single _ _ _ Hsel) as [Hin _].
  apply list_elem_of_In in Hin.
  destruct (users_split u db Hnd Hin) as (l1 & l2 & Hsplit & Hids).
  assert (Hid1 : user_id_of u1 = user_id_of u) by (by destruct u).
  assert (Hother : forall r, In r (l1 ++ l2) ->
                     holds_reset_token rnd r = false).
  { intros r Hr. apply bool_decide_eq_false_2, Hfresh. rewrite Hsplit.
    apply in_app_iff in Hr as [?|?]; apply in_app_iff; [by left|].
    right. by right. }
  assert (Husers1 : users db1 = l1 ++ u1 :: l2).
  { apply (store_user_middle u1 u l1 l2 db Hsplit); [|done].
    intros r Hr. rewrite Hid1. by apply Hids. }
  assert (Hsel1 : select_where (holds_reset_token rnd) (users db1) = [u1]).
  { rewrite Husers1, select_where_middle by done.
    rewrite bool_decide_eq_true_2; [done | by destruct u]. }
  assert (Hexp1 : password_reset_expires u1 = Some (now + 3600))
    by (by destruct u).
  split; [by apply request_password_reset_run|].
  split; [by destruct u|]. split; [exact Hexp1|]. split; [exact Hsel1|].
  split_and!.
  - intros pw now2 Hlate.
    rewrite (reset_password_run db1 rnd pw now2 u1 _ Hsel1 Hexp1).
    destruct (Z.ltb_spec (now + 3600) now2); [done | lia].
  - intros pw now2 e Hearly Hpw.
    rewrite (reset_password_run db1 rnd pw now2 u1 _ Hsel1 Hexp1).
    destruct (Z.ltb_spec (now + 3600) now2); [lia|]. by rewrite Hpw.
  - intros pw now2 Hearly Hpw.
    rewrite (reset_password_run db1 rnd pw now2 u1 _ Hsel1 Hexp1).
    destruct (Z.ltb_spec (now + 3600) now2); [lia|]. by rewrite Hpw.
Qed.


End ResetLifecycle.

(** ** Logout *)

(** X14.  [logout_user] raises [AttributeError] on every call, with a
    session token, with an empty one and with none: both branches call
    [update] on a [Select], before [db.commit()].  The session it runs in
    is left as it was, so a logout request stores nothing and every session
    row that was active still is; the handlers answer the exception with
    500 [INTERNAL_ERROR]. *)
Theorem logout_user_raises :
  forall (user_id : Z) (session_token' : option string) (s : AsyncSession)
         (db : Tables),
    logout_user user_id session_token' s = (s, Raise AttributeError)
    /\ get_db (logout_user user_id session_token') db
       = (db, Raise AttributeError)
    /\ sessions (fst (get_db (logout_user user_id session_token') db))
       = sessions db
    /\ exception_handler AttributeError
       = {| http_status := 500;
            err_code := "INTERNAL_ERROR";
            err_message := "An unexpected error occurred" |}.
Proof.
  intros user_id tok s db.
  assert (H : forall s, logout_user user_id tok s = (s, Raise AttributeError)).
  { intros s0. unfold logout_user, execute_select_update. svc_unfold.
    by destruct (truthy_str tok). }
  split; [apply H|]. unfold get_db. rewrite H. by split_and!.
Qed.

(** ** Sessions are never revoked *)

Lemma extended_refl (l : list UserSession) : extended l l.
Proof. exists []. split; [by rewrite app_nil_r | constructor]. Qed.

Lemma extended_trans (l1 l2 l3 : list UserSession) :
  extended l1 l2 -> extended l2 l3 -> extended l1 l3.
Proof.
  intros (n1 & -> & Ha1) (n2 & -> & Ha2). exists (n1 ++ n2).
  split; [by rewrite app_assoc | by apply Forall_app].
Qed.

Section Preserves.

Context {A : Type} (P : list UserSession -> list UserSession -> Prop).

(** A coroutine that leaves the session it runs in as it was. *)
Lemma preserves_unchanged (m : Svc A) :
  (forall s, exists o, m s = (s, o)) -> preserves P m.
Proof.
  intros Hm l0 s s' o Hp Hq Hms. destruct (Hm s) as [o' Ho'].
  rewrite Ho' in Hms. injection Hms as <- _. by split.
Qed.

Lemma preserves_bind {B} (m : Svc B) (k : B -> Svc A) :
  preserves P m -> (forall b, preserves P (k b)) -> preserves P (m ≫= k).
Proof.
  intros Hm Hk l0 s s' o Hp Hq. unfold mbind, Svc_bind, svc_bind.
  destruct (m s) as [s1 [b|e]] eqn:Hms.
  - destruct (Hm l0 s s1 _ Hp Hq Hms) as [Hp1 Hq1]. by apply Hk.
  - intros [= <- <-]. by apply (Hm l0 s s1 _ Hp Hq Hms).
Qed.

(** The stored session table after a request that preserves [P]. *)
Lemma preserves_get_db (m : Svc A) (db : Tables) :
  P (sessions db) (sessions db) -> preserves P m ->
  P (sessions db) (sessions (fst (get_db m db))).
Proof.
  intros Hrefl Hm. unfold get_db.
  destruct (m _) as [s' [a|e]] eqn:Hms;
    destruct (Hm (sessions db) {| pending := db; persisted := db |} s' _
                Hrefl Hrefl Hms); done.
Qed.

End Preserves.

Lemma preserves_commit (P : list UserSession -> list UserSession -> Prop) :
  preserves P commit.
Proof. intros l0 s s' o Hp Hq [= <- <-]. by split. Qed.

(** A change of the pending view that is no change of its session table. *)
Lemma preserves_modify (P : list UserSession -> list UserSession -> Prop)
    (f : Tables -> Tables) :
  (forall t, sessions (f t) = sessions t) -> preserves P (modify f).
Proof.
  intros Hf l0 s s' o Hp Hq [= <- <-]. cbn [pending persisted].
  by rewrite Hf.
Qed.

(** [db.add] of a session row that is active. *)
Lemma preserves_add_new_session (mk : Z -> UserSession) :
  (forall i, is_active (mk i) = true) ->
  preserves extended (modify (add_new_session mk)).
Proof.
  intros Hmk l0 s s' o Hp Hq [= <- <-].
  cbn [pending persisted add_new_session add_session sessions].
  split; [|done]. eapply extended_trans; [exact Hp|].
  eexists [_]. split; [reflexivity|]. by repeat constructor.
Qed.

(** One step of the structural proof that a coroutine preserves a
    relation. *)
Ltac preserves_step :=
  first
    [ apply preserves_unchanged; intros ?; eexists; reflexivity
    | apply preserves_commit
    | apply preserves_modify; intros ?; reflexivity
    | apply preserves_add_new_session; intros ?; reflexivity
    | apply preserves_bind; [|intros ?]
    | match goal with
      | |- preserves _ (match ?x with _ => _ end) => destruct x
      | |- preserves _ (let _ := _ in _) => cbv zeta
      end ].

Section SessionsNeverRevoked.

Variable settings : Settings.
Variable pwd_context_hash : string -> string.
Variable pwd_context_verify : string -> string -> bool.
Variables (MAX_FAILED_LOGINS LOCKOUT_SECONDS : Z).

Local Abbreviation run :=
  (run_operation settings pwd_context_hash pwd_context_verify
     MAX_FAILED_LOGINS LOCKOUT_SECONDS).
Local Abbreviation run_all :=
  (run_operations settings pwd_context_hash pwd_context_verify
     MAX_FAILED_LOGINS LOCKOUT_SECONDS).

Lemma run_operation_extended (op : Operation) (db : Tables) :
  extended (sessions db) (sessions (run op db)).
Proof.
  destruct op; cbn [run_operation];
    apply preserves_get_db; try apply extended_refl.
  - unfold register_user, find_or_create_organization.
    repeat preserves_step.
  - unfold authenticate_user. repeat preserves_step.
  - unfold verify_email. repeat preserves_step.
  - unfold request_password_reset. repeat preserves_step.
  - unfold reset_password. repeat preserves_step.
  - unfold refresh_access_token. repeat preserves_step.
  - unfold logout_user. repeat preserves_step.
Qed.

(** X15.  No request revokes a session.  Over any sequence of requests to
    the service, the session table at the end is the table at the start
    followed by new rows, all of them active: every stored row keeps its
    position and every one of its fields, so a session that is active stays
    active through every logout and every password reset request.  A
    request that is no login leaves the table exactly as it was. *)
Theorem sessions_never_revoked :
  forall (ops : list Operation) (db : Tables),
    (exists new,
       sessions (run_all ops db) = sessions db ++ new
       /\ Forall (fun x => is_active x = true) new)
    /\ (forall i x, sessions db !! i = Some x ->
        sessions (run_all ops db) !! i = Some x)
    /\ (forall op, is_login op = false -> sessions (run op db) = sessions db).
Proof.
  intros ops db.
  assert (H : extended (sessions db) (sessions (run_all ops db))).
  { revert db. induction ops as [|op ops IH]; intros db.
    - apply extended_refl.
    - cbn [run_operations fold_left].
      eapply extended_trans; [apply run_operation_extended | apply IH]. }
  split; [exact H|]. split.
  - intros i x Hx. destruct H as (new & -> & _). by apply lookup_app_l_Some.
  - intros op Hop.
    destruct op; try discriminate; cbn [run_operation];
      apply (preserves_get_db (fun l0 l => l = l0)); try reflexivity.
    + unfold register_user, find_or_create_organization.
      repeat preserves_step.
    + unfold verify_email. repeat preserves_step.
    + unfold request_password_reset. repeat preserves_step.
    + unfold reset_password. repeat preserves_step.
    + unfold refresh_access_token. repeat preserves_step.
    + unfold logout_user. repeat preserves_step.
Qed.

End SessionsNeverRevoked.

(** ** What the operations raise, and when they commit *)

Lemma raises_only_ret {A} (P : Exception -> Prop) (a : A) :
  raises_only P (mret a).
Proof. intros s s' e [=]. Qed.

Lemma raises_only_raise {A} (P : Exception -> Prop) (e : Exception) :
  P e -> raises_only P (@raise A e).
Proof. intros H s s' e' [= _ <-]. exact H. Qed.

Lemma raises_only_lift_outcome {A} (P : Exception -> Prop) (o : Outcome A) :
  (forall e, o = Raise e -> P e) -> raises_only P (lift_outcome o).
Proof. intros H s s' e [= _ ->]. by apply H. Qed.

Lemma raises_only_execute_scalar {A} (P : Exception -> Prop)
    (tbl : Tables -> list A) (p : A -> bool) :
  P MultipleResultsFound -> raises_only P (execute_scalar tbl p).
Proof.
  intros H s s' e. unfold execute_scalar, scalar_one_or_none.
  destruct (select_where p (tbl (pending s))) as [|a [|b l]];
    intros [= _ <-] || intros [=]; exact H.
Qed.

Lemma raises_only_modify (P : Exception -> Prop) (f : Tables -> Tables) :
  raises_only P (modify f).
Proof. intros s s' e [=]. Qed.

Lemma raises_only_commit (P : Exception -> Prop) : raises_only P commit.
Proof. intros s s' e [=]. Qed.

Lemma raises_only_pending_tables (P : Exception -> Prop) :
  raises_only P pending_tables.
Proof. intros s s' e [=]. Qed.

Lemma raises_only_bind {A B} (P : Exception -> Prop) (m : Svc A)
    (k : A -> Svc B) :
  raises_only P m -> (forall a, raises_only P (k a)) -> raises_only P (m ≫= k).
Proof.
  intros Hm Hk s s' e. unfold mbind, Svc_bind, svc_bind.
  destruct (m s) as [s1 [a|e1]] eqn:Hms.
  - apply Hk.
  - intros [= _ <-]. by apply (Hm s s1).
Qed.

Lemma raises_only_get_db {A} (P : Exception -> Prop) (m : Svc A) (db : Tables)
    (e : Exception) :
  raises_only P m -> raised (snd (get_db m db)) = Some e -> P e.
Proof.
  intros Hm. unfold get_db.
  destruct (m _) as [s' [a|e']] eqn:Hms; cbn; [discriminate|].
  intros [= <-]. by apply (Hm _ _ _ Hms).
Qed.

(** Membership in a list written out, as a goal and as a hypothesis. *)
Ltac in_list :=
  repeat first [apply list_elem_of_here | apply list_elem_of_further].

Ltac by_cases_in H :=
  repeat (apply elem_of_cons in H as [H|H];
          [try discriminate; try (rewrite H; in_list)|]);
  try (by apply elem_of_nil in H).

Lemma validate_password_strength_raises settings password e :
  validate_password_strength settings password = Raise e ->
  exception_class e = "ValidationError".
Proof.
  unfold validate_password_strength.
  repeat (match goal with
          | |- (if ?b then _ else _) = _ -> _ => destruct b
          end; [by intros [= <-]|]).
  discriminate.
Qed.

Lemma refresh_claims_raises settings token now e :
  refresh_claims settings token now = Raise e ->
  exception_class e ∈ ["AuthenticationError"; "TypeError"; "ValueError"].
Proof.
  unfold refresh_claims.
  destruct (jwt.decode _ _ _ _) as [[err|]|payload];
    [intros [= <-]; in_list ..|].
  unfold py_int. destruct (dict_get payload "sub") as [|b|z|s'].
  - intros [= <-]. in_list.
  - destruct (negb _); [intros [= <-]; in_list | discriminate].
  - destruct (negb _); [intros [= <-]; in_list | discriminate].
  - destruct (int_of_str s'); [|intros [= <-]; in_list].
    destruct (negb _); [intros [= <-]; in_list | discriminate].
Qed.

Ltac raises_only_step :=
  first
    [ apply raises_only_ret | apply raises_only_modify
    | apply raises_only_commit | apply raises_only_pending_tables
    | apply raises_only_raise; cbn; in_list
    | apply raises_only_execute_scalar; cbn; in_list
    | apply raises_only_bind; [|intros ?]
    | match goal with
      | |- raises_only _ (match ?x with _ => _ end) => destruct x
      | |- raises_only _ (let _ := _ in _) => cbv zeta
      end ].

Lemma never_commits_ret {A} (a : A) : never_commits (mret a).
Proof. by intros s s' o [= <- _]. Qed.

Lemma never_commits_raise {A} (e : Exception) : never_commits (@raise A e).
Proof. by intros s s' o [= <- _]. Qed.

Lemma never_commits_lift_outcome {A} (x : Outcome A) :
  never_commits (lift_outcome x).
Proof. by intros s s' o [= <- _]. Qed.

Lemma never_commits_execute_scalar {A} (tbl : Tables -> list A)
    (p : A -> bool) : never_commits (execute_scalar tbl p).
Proof. by intros s s' o [= <- _]. Qed.

Lemma never_commits_pending_tables : never_commits pending_tables.
Proof. by intros s s' o [= <- _]. Qed.

Lemma never_commits_modify (f : Tables -> Tables) : never_commits (modify f).
Proof. by intros s s' o [= <- _]. Qed.

Lemma never_commits_bind {A B} (m : Svc A) (k : A -> Svc B) :
  never_commits m -> (forall a, never_commits (k a)) -> never_commits (m ≫= k).
Proof.
  intros Hm Hk s s' o. unfold mbind, Svc_bind, svc_bind.
  destruct (m s) as [s1 [a|e]] eqn:Hms.
  - intros Hk'. rewrite (Hk a _ _ _ Hk'). exact (Hm s s1 _ Hms).
  - intros [= <- _]. exact (Hm s s1 _ Hms).
Qed.

Lemma commits_only_on_return_never {A} (m : Svc A) :
  never_commits m -> commits_only_on_return m.
Proof. intros H s s' e Hm. exact (H s s' _ Hm). Qed.

Lemma commits_only_on_return_commit_ret {A} (a : A) :
  commits_only_on_return (commit ≫= fun _ => mret a).
Proof. intros s s' e [=]. Qed.

Lemma commits_only_on_return_bind {A B} (m : Svc A) (k : A -> Svc B) :
  never_commits m -> (forall a, commits_only_on_return (k a)) ->
  commits_only_on_return (m ≫= k).
Proof.
  intros Hm Hk s s' e. unfold mbind, Svc_bind, svc_bind.
  destruct (m s) as [s1 [a|e1]] eqn:Hms.
  - intros Hk'. rewrite (Hk a _ _ _ Hk'). exact (Hm s s1 _ Hms).
  - intros [= <- _]. exact (Hm s s1 _ Hms).
Qed.

Lemma commits_only_on_return_get_db {A} (m : Svc A) (db : Tables) :
  commits_only_on_return m ->
  raised (snd (get_db m db)) <> None -> fst (get_db m db) = db.
Proof.
  intros Hm. unfold get_db.
  destruct (m _) as [s' [a|e]] eqn:Hms; cbn; [done|].
  intros _. by rewrite (Hm _ _ _ Hms).
Qed.

Ltac never_commits_step :=
  first
    [ apply never_commits_ret | apply never_commits_raise
    | apply never_commits_lift_outcome | apply never_commits_execute_scalar
    | apply never_commits_pending_tables | apply never_commits_modify
    | apply never_commits_bind; [|intros ?]
    | match goal with
      | |- never_commits (match ?x with _ => _ end) => destruct x
      | |- never_commits (let _ := _ in _) => cbv zeta
      end ].

Ltac commits_only_on_return_step :=
  first
    [ apply commits_only_on_return_commit_ret
    | apply commits_only_on_return_bind;
      [solve [repeat never_commits_step] | intros ?]
    | apply commits_only_on_return_never; solve [repeat never_commits_step]
    | match goal with
      | |- commits_only_on_return (match ?x with _ => _ end) => destruct x
      | |- commits_only_on_return (let _ := _ in _) => cbv zeta
      end ].

Section OperationProperties.

Variable settings : Settings.
Variable pwd_context_hash : string -> string.
Variable pwd_context_verify : string -> string -> bool.
Variables (MAX_FAILED_LOGINS LOCKOUT_SECONDS : Z).

Local Abbreviation exception_of :=
  (operation_exception settings pwd_context_hash pwd_context_verify
     MAX_FAILED_LOGINS LOCKOUT_SECONDS).
Local Abbreviation run :=
  (run_operation settings pwd_context_hash pwd_context_verify
     MAX_FAILED_LOGINS LOCKOUT_SECONDS).

(** X16.  The exceptions of the service.  A request that raises does so with
    an exception of one of the classes listed for its operation: login only
    [AuthenticationError], registration only [ValidationError], a password
    reset [NotFoundError], [ValidationError], [TypeError] or
    [AttributeError], a logout only [AttributeError], and so on, each apart
    from the [MultipleResultsFound] of a query with several answers.  No
    operation raises a [ConflictError], so no response of the service has
    status 409. *)
Theorem operation_exception_classes :
  forall (op : Operation) (db : Tables) (e : Exception),
    exception_of op db = Some e ->
    exception_class e ∈ may_raise op
    /\ exception_class e <> "ConflictError"
    /\ http_status (exception_handler e) <> 409.
Proof.
  intros op db e He.
  assert (H : exception_class e ∈ may_raise op).
  { destruct op; cbn [operation_exception may_raise] in *;
      revert He;
      apply (raises_only_get_db (fun e => exception_class e ∈ _)).
    - unfold register_user, find_or_create_organization.
      repeat raises_only_step.
      apply raises_only_lift_outcome. intros e' He'.
      rewrite (validate_password_strength_raises _ _ _ He'). in_list.
    - unfold authenticate_user. repeat raises_only_step.
    - unfold verify_email. repeat raises_only_step.
    - unfold request_password_reset. repeat raises_only_step.
    - unfold reset_password. repeat raises_only_step.
      apply raises_only_lift_outcome. intros e' He'.
      rewrite (validate_password_strength_raises _ _ _ He'). in_list.
    - unfold refresh_access_token. repeat raises_only_step.
      apply raises_only_lift_outcome. intros e' He'.
      pose proof (refresh_claims_raises _ _ _ _ He') as Hc. by_cases_in Hc.
    - unfold logout_user. repeat raises_only_step. }
  split; [exact H|].
  destruct e; cbn [exception_class exception_handler http_status];
    try (by split; [discriminate | lia]).
  exfalso. destruct op; cbn in H; by_cases_in H.
Qed.

(** X17.  Failure is atomic, except for a failed login.  When a request for
    any operation other than login raises, the stored tables are exactly
    those before the request: no such operation commits before it raises.
    That holds also where the request raises after it has changed rows in
    its session, as [reset_password] does when it raises [AttributeError]
    after its assignments: [get_db] rolls them back. *)
Theorem failed_operation_stores_nothing :
  forall (op : Operation) (db : Tables) (e : Exception),
    is_login op = false ->
    exception_of op db = Some e ->
    run op db = db.
Proof.
  intros op db e Hop He.
  assert (Hne : exception_of op db <> None) by (by rewrite He).
  clear He. destruct op; try discriminate;
    cbn [operation_exception run_operation] in *;
    revert Hne; apply commits_only_on_return_get_db.
  - unfold register_user, find_or_create_organization.
    repeat commits_only_on_return_step.
  - unfold verify_email. repeat commits_only_on_return_step.
  - unfold request_password_reset. repeat commits_only_on_return_step.
  - unfold reset_password. repeat commits_only_on_return_step.
  - unfold refresh_access_token. repeat commits_only_on_return_step.
  - unfold logout_user.
    apply commits_only_on_return_bind; [|intros ? s s' e' [=]].
    destruct (truthy_str session_token'); apply never_commits_raise.
Qed.

End OperationProperties.

(** ** Endpoints *)

Section EndpointProperties.

Variable settings : Settings.

(** X18.  [POST /logout] never succeeds.  Whatever the bearer token, the
    answer is 401 ["Failed to logout"] and nothing is stored: a token that
    does not verify, or whose subject is no integer, fails in the endpoint,
    and a token that does verify reaches [logout_user], whose
    [AttributeError] the endpoint's [except Exception] turns into the same
    answer.  So also a token the service itself issued logs nobody out:
    every session row is stored as it was. *)
Theorem logout_endpoint_always_fails :
  forall (credentials : jwt.Token) (now : Z) (db : Tables),
    Endpoints.logout_user settings credentials now db
    = (db, inl failed_to_logout)
    /\ (forall u issued,
          credentials
          = create_access_token settings (access_token_data u) None issued ->
          issued <= now <= access_expire settings None issued ->
          verify_token settings credentials now
          = Return (<["exp" := JInt (access_expire settings None issued)]>
                      (access_token_data u))
          /\ py_int (dict_get (<["exp" := JInt (access_expire settings None
                                                  issued)]>
                                 (access_token_data u)) "sub")
             = Return (user_id_of u)
          /\ sessions (fst (Endpoints.logout_user settings credentials now db))
             = sessions db).
Proof.
  intros credentials now db.
  assert (H : Endpoints.logout_user settings credentials now db
              = (db, inl failed_to_logout)).
  { unfold Endpoints.logout_user, except_exception, logout_user,
      execute_select_update, respond.
    svc_unfold. cbn [pending persisted truthy_str].
    destruct (verify_token settings credentials now) as [payload|e];
      [|reflexivity].
    destruct (py_int (dict_get payload "sub")) as [user_id|e]; reflexivity. }
  split; [exact H|].
  intros u issued -> [_ Hnow]. rewrite H. cbn [fst].
  split_and!; [|apply py_int_str | reflexivity].
  unfold verify_token.
  rewrite decode_access_token by apply access_token_data_valid.
  destruct (Z.ltb_spec (access_expire settings None issued) now);
    [lia | reflexivity].
Qed.

(** X19.  [GET /me] never changes the stored tables and answers in one of
    two ways only: with a stored user whose key is the subject of the bearer
    token and who is active, or with 401 ["Invalid authentication
    credentials"], which also replaces the service's own ["User not found or
    inactive"] and any conversion or query error. *)
Theorem get_current_user_outcomes :
  forall (credentials : jwt.Token) (now : Z) (db : Tables),
    let r := Endpoints.get_current_user settings credentials now db in
    fst r = db
    /\ (forall err, snd r = inl err -> err = invalid_credentials)
    /\ (forall u, snd r = inr u ->
        In u (users db)
        /\ is_active_user u = true
        /\ exists payload,
             verify_token settings credentials now = Return payload
             /\ py_int (dict_get payload "sub") = Return (user_id_of u))
    /\ (forall payload u,
          verify_token settings credentials now = Return payload ->
          py_int (dict_get payload "sub") = Return (user_id_of u) ->
          select_where (fun x => user_id_of x =? user_id_of u) (users db)
          = [u] ->
          is_active_user u = true ->
          snd r = inr u).
Proof.
  intros credentials now db r.
  assert (H : r
    = match verify_token settings credentials now with
      | Return payload =>
          match py_int (dict_get payload "sub") with
          | Return user_id =>
              match scalar_one_or_none
                      (select_where (fun x => user_id_of x =? user_id)
                                    (users db)) with
              | Return (Some u) =>
                  if is_active_user u then (db, inr u)
                  else (db, inl invalid_credentials)
              | _ => (db, inl invalid_credentials)
              end
          | Raise _ => (db, inl invalid_credentials)
          end
      | Raise _ => (db, inl invalid_credentials)
      end).
  { unfold r, Endpoints.get_current_user, except_exception, respond.
    svc_unfold. cbn [pending persisted].
    destruct (verify_token settings credentials now) as [payload|e];
      [|reflexivity].
    destruct (py_int (dict_get payload "sub")) as [user_id|e]; [|reflexivity].
    destruct (scalar_one_or_none _) as [[u|]|e]; try reflexivity.
    destruct (is_active_user u); reflexivity. }
  rewrite H. clear H r.
  destruct (verify_token settings credentials now) as [payload|e] eqn:Hv.
  2:{ cbn. split_and!; [done | by intros ? [= <-] | by intros ? [=] |].
      intros payload' u0 [=]. }
  destruct (py_int (dict_get payload "sub")) as [user_id|e] eqn:Hpy.
  2:{ cbn. split_and!; [done | by intros ? [= <-] | by intros ? [=] |].
      intros payload' u0 [= <-] Hpy'. congruence. }
  destruct (scalar_one_or_none _) as [[u|]|e] eqn:Hsel.
  - apply scalar_one_or_none_some in Hsel.
    destruct (select_where_single _ _ _ Hsel) as [Hin Hid].
    apply Z.eqb_eq in Hid. apply list_elem_of_In in Hin.
    destruct (is_active_user u) eqn:Hact; cbn [fst snd].
    + split_and!; [done | by intros ? [=] | |].
      * intros u0 [= <-]. split_and!; [done..|].
        exists payload. by rewrite Hid.
      * intros payload' u0 [= <-] Hpy' Hsel0 _.
        assert (user_id = user_id_of u0) as -> by congruence.
        rewrite Hsel0 in Hsel. by injection Hsel as ->.
    + split_and!; [done | by intros ? [= <-] | by intros ? [=] |].
      intros payload' u0 [= <-] Hpy' Hsel0 Hact0.
      assert (user_id = user_id_of u0) as -> by congruence.
      rewrite Hsel0 in Hsel. injection Hsel as ->. congruence.
  - apply scalar_one_or_none_none in Hsel. cbn [fst snd].
    split_and!; [done | by intros ? [= <-] | by intros ? [=] |].
    intros payload' u0 [= <-] Hpy' Hsel0 _.
    assert (user_id = user_id_of u0) as -> by congruence. congruence.
  - cbn [fst snd].
    split_and!; [done | by intros ? [= <-] | by intros ? [=] |].
    intros payload' u0 [= <-] Hpy' Hsel0 _.
    assert (user_id = user_id_of u0) as -> by congruence.
    rewrite Hsel0 in Hsel. discriminate.
Qed.

(** X20.  [POST /password-reset-request] tells a registered email from an
    unregistered one.  For the email of one stored user it stores a reset
    token and answers with the message; for an email no stored user has, the
    [NotFoundError] of the service reaches the handlers and the answer is
    404 [NOT_FOUND], with nothing stored. *)
Theorem password_reset_request_endpoint :
  forall (email' : string) (now : Z) (rnd : string) (db : Tables),
    (forall u,
       select_where (fun r => String.eqb (email r) email') (users db) = [u] ->
       Endpoints.request_password_reset email' now rnd db
       = (store_user (after_reset_request now rnd u) db,
          inr (mkMessageResponse
                 "If this email is registered, you will receive reset instructions"
                 true)))
    /\ (select_where (fun r => String.eqb (email r) email') (users db) = [] ->
        Endpoints.request_password_reset email' now rnd db
        = (db, inl {| http_status := 404;
                      err_code := "NOT_FOUND";
                      err_message :=
                        "If this email is registered, you will receive reset instructions"
                   |})).
Proof.
  intros email' now rnd db. split.
  - intros u Hsel.
    unfold Endpoints.request_password_reset, request_password_reset, respond.
    svc_unfold. cbn [pending persisted]. rewrite Hsel. reflexivity.
  - intros Hsel.
    unfold Endpoints.request_password_reset, request_password_reset, respond.
    svc_unfold. cbn [pending persisted]. rewrite Hsel. reflexivity.
Qed.

End EndpointProperties.

(** ** Settings validators *)

Lemma string_of_list_ascii_inv (l : list ascii) :
  list_ascii_of_string (string_of_list_ascii l) = l.
Proof. apply list_ascii_of_string_of_list_ascii. Qed.

Lemma upper_lower (c : ascii) :
  config.upper (config.upper c) = config.upper c
  /\ config.upper (lower c) = config.upper c
  /\ lower (lower c) = lower c
  /\ lower (config.upper c) = lower c.
Proof.
  destruct c as [[] [] [] [] [] [] [] []]; vm_compute; by repeat split.
Qed.

Lemma str_case_absorb (f g : ascii -> ascii) (s : string) :
  (forall c, f (g c) = f c) ->
  string_of_list_ascii
    (List.map f (list_ascii_of_string
                   (string_of_list_ascii
                      (List.map g (list_ascii_of_string s)))))
  = string_of_list_ascii (List.map f (list_ascii_of_string s)).
Proof.
  intros H. rewrite string_of_list_ascii_inv, List.map_map. f_equal.
  by apply List.map_ext.
Qed.

(** X21.  [validate_environment] ignores case, returns only
    ["development"], ["staging"] or ["production"], returns a value it
    returned unchanged, and raises [ValueError] for anything else.  So the
    validated [ENVIRONMENT] is never ["test"]: the branch of [database.py]
    that selects [NullPool] for it cannot be taken, and at most one of
    [is_development] and [is_production] holds. *)
Theorem validate_environment_values :
  forall v : string,
    config.validate_environment (config.str_upper v)
    = config.validate_environment v
    /\ (forall e, config.validate_environment v = Raise e -> e = ValueError)
    /\ (forall env,
          config.validate_environment v = Return env ->
          env ∈ config.valid_envs
          /\ config.validate_environment env = Return env
          /\ database.uses_null_pool env = false
          /\ config.is_development env && config.is_production env = false).
Proof.
  intros v. split; [|split].
  - unfold config.validate_environment, config.str_lower, config.str_upper.
    rewrite (str_case_absorb lower config.upper); [done|].
    intros c. apply upper_lower.
  - unfold config.validate_environment. intros e.
    destruct (negb _); [by intros [= <-] | discriminate].
  - unfold config.validate_environment. intros env.
    destruct (bool_decide (config.str_lower v ∈ config.valid_envs)) eqn:Hin;
      cbn [negb]; [|discriminate].
    intros [= <-]. apply bool_decide_eq_true_1 in Hin.
    split; [exact Hin|].
    unfold config.valid_envs in Hin.
    repeat (apply elem_of_cons in Hin as [-> | Hin]; [by vm_compute|]).
    by apply elem_of_nil in Hin.
Qed.

(** X22.  [validate_log_level] ignores case, returns only one of the five
    level names in upper case, returns a value it returned unchanged, and
    raises [ValueError] for anything else. *)
Theorem validate_log_level_values :
  forall v : string,
    config.validate_log_level (config.str_lower v)
    = config.validate_log_level v
    /\ (forall e, config.validate_log_level v = Raise e -> e = ValueError)
    /\ (forall level,
          config.validate_log_level v = Return level ->
          level ∈ config.valid_levels
          /\ config.validate_log_level level = Return level).
Proof.
  intros v. split; [|split].
  - unfold config.validate_log_level, config.str_lower, config.str_upper.
    rewrite (str_case_absorb config.upper lower); [done|].
    intros c. apply upper_lower.
  - unfold config.validate_log_level. intros e.
    destruct (negb _); [by intros [= <-] | discriminate].
  - unfold config.validate_log_level. intros level.
    destruct (bool_decide (config.str_upper v ∈ config.valid_levels)) eqn:Hin;
      cbn [negb]; [|discriminate].
    intros [= <-]. apply bool_decide_eq_true_1 in Hin.
    split; [exact Hin|].
    unfold config.valid_levels in Hin.
    repeat (apply elem_of_cons in Hin as [-> | Hin]; [by vm_compute|]).
    by apply elem_of_nil in Hin.
Qed.

Lemma lstrip_suffix (l : list ascii) : exists pre, l = pre ++ lstrip l.
Proof.
  induction l as [|c l [pre IH]]; [by exists []|].
  cbn [lstrip]. destruct (isspace c).
  - exists (c :: pre). cbn. by rewrite <- IH.
  - by exists [].
Qed.

Lemma lstrip_first (l r : list ascii) (c : ascii) :
  lstrip l = c :: r -> isspace c = false.
Proof.
  induction l as [|d l IH]; [discriminate|].
  cbn [lstrip]. destruct (isspace d) eqn:Hd; [exact IH|].
  by intros [= <- _].
Qed.

Lemma lstrip_lstrip (l : list ascii) : lstrip (lstrip l) = lstrip l.
Proof.
  destruct (lstrip l) as [|c r] eqn:H; [done|].
  apply lstrip_head. by apply (lstrip_first l r).
Qed.

(** [strip] removes nothing from what it returned. *)
Lemma strip_strip (l : list ascii) : strip (strip l) = strip l.
Proof.
  unfold strip. set (a := lstrip l). set (b := lstrip (rev a)).
  assert (H1 : lstrip (rev b) = rev b).
  { destruct (rev b) as [|c t] eqn:Hb; [done|].
    apply lstrip_head.
    destruct (lstrip_suffix (rev a)) as [pre Hpre]. fold b in Hpre.
    apply (f_equal (@rev ascii)) in Hpre.
    rewrite rev_involutive, rev_app_distr, Hb in Hpre. cbn in Hpre.
    by apply (lstrip_first l _ c Hpre). }
  rewrite H1, rev_involutive. unfold b. by rewrite lstrip_lstrip.
Qed.

Lemma split_length (sep : ascii) (l : list ascii) :
  length (config.split sep l)
  = S (length (List.filter (fun c => Ascii.eqb c sep) l)).
Proof.
  induction l as [|c l IH]; [done|].
  cbn [config.split List.filter]. destruct (Ascii.eqb c sep).
  - cbn [length]. by rewrite IH.
  - destruct (config.split sep l) as [|h t]; [discriminate|]. exact IH.
Qed.

(** X23.  [assemble_cors_origins] on a string that does not start with a
    bracket returns one origin per comma-separated piece, so one more than
    the string has commas and never none (the empty string gives one empty
    origin), each with the white space around it removed.  A string that
    starts with a bracket and a list are returned as they are, and anything
    else raises [ValueError]. *)
Theorem assemble_cors_origins_pieces :
  forall s : string,
    (config.startswith_bracket s = false ->
     exists origins,
       config.assemble_cors_origins (config.RawStr s)
       = Return (config.RawList origins)
       /\ length origins
          = S (length (List.filter (fun c => Ascii.eqb c ","%char)
                                   (list_ascii_of_string s)))
       /\ Forall (fun o => strip (list_ascii_of_string o)
                           = list_ascii_of_string o) origins)
    /\ (config.startswith_bracket s = true ->
        config.assemble_cors_origins (config.RawStr s)
        = Return (config.RawStr s))
    /\ (forall l, config.assemble_cors_origins (config.RawList l)
                  = Return (config.RawList l))
    /\ config.assemble_cors_origins config.RawOther = Raise ValueError.
Proof.
  intros s. split_and!; try reflexivity.
  - intros Hs. unfold config.assemble_cors_origins. rewrite Hs. cbn [negb].
    eexists. split; [reflexivity|]. split.
    + rewrite length_map. apply split_length.
    + apply Forall_forall. intros o Ho.
      apply list_elem_of_In, in_map_iff in Ho as (piece & <- & _).
      rewrite string_of_list_ascii_inv. apply strip_strip.
  - intros Hs. unfold config.assemble_cors_origins. by rewrite Hs.
Qed.

(** ** Row metadata *)

(** X24.  The metadata of a row behaves as a dictionary, also when the
    column holds [None]: a value set under a key is the value read under it,
    setting or removing a key leaves the reading of every other key as it
    was, a removed key reads as the default, and removing a key never turns
    a [None] column into a dictionary. *)
Theorem metadata_round_trip :
  forall (m : option (gmap string JVal)) (key other : string)
         (value default' : JVal),
    database.get_metadata (database.set_metadata m key value) key default'
    = value
    /\ database.get_metadata (database.remove_metadata m key) key default'
       = default'
    /\ (other <> key ->
        database.get_metadata (database.set_metadata m key value) other
          default'
        = database.get_metadata m other default'
        /\ database.get_metadata (database.remove_metadata m key) other
             default'
           = database.get_metadata m other default')
    /\ database.remove_metadata None key = None
    /\ database.set_metadata None key value = Some {[ key := value ]}.
Proof.
  intros m key other value d.
  unfold database.get_metadata, database.set_metadata,
    database.remove_metadata.
  split_and!.
  - by rewrite lookup_insert_eq.
  - destruct m as [m|]; [|done].
    destruct (negb (bool_decide (m = ∅))) eqn:Hne; cbn [andb].
    + destruct (bool_decide (is_Some (m !! key))) eqn:Hk.
      * by rewrite lookup_delete_eq.
      * apply bool_decide_eq_false_1 in Hk.
        apply eq_None_not_Some in Hk. by rewrite Hk.
    + apply negb_false_iff, bool_decide_eq_true_1 in Hne. subst.
      by rewrite lookup_empty.
  - intros Hne. split.
    + rewrite lookup_insert_ne by done. destruct m; [done|].
      by rewrite lookup_empty.
    + destruct m as [m|]; [|done].
      destruct (negb _ && _); [|done]. by rewrite lookup_delete_ne.
  - reflexivity.
  - reflexivity.
Qed.

(** ** The lifetime of an access token *)

(** X25.  The [expires_delta] of [create_access_token] at its edges, for a
    delta of whole seconds that keeps the expiry a [datetime] and a claim
    set whose registered claims are valid.  A zero delta counts as no
    delta: the token is the one made with the default lifetime, not one that
    expires at once.  A negative delta gives a token that [verify_token]
    refuses already at the instant of issue, and a positive one a token it
    accepts at that instant, with the expiry [now + d]. *)
Theorem access_token_lifetime_edges :
  forall (settings : Settings) (data : gmap string JVal) (now d : Z),
    is_datetime now ->
    is_datetime (now + d) ->
    registered_claims_valid data now ->
    create_access_token settings data (Some 0) now
    = create_access_token settings data None now
    /\ (d < 0 ->
        verify_token settings
          (create_access_token settings data (Some d) now) now
        = Raise (AuthenticationError "Invalid token"))
    /\ (0 < d ->
        verify_token settings
          (create_access_token settings data (Some d) now) now
        = Return (<["exp" := JInt (now + d)]> data)).
Proof.
  intros settings data now d _ _ Hvalid. split; [reflexivity|].
  unfold verify_token. rewrite decode_access_token by done.
  unfold access_expire. split; intros Hd.
  - destruct (Z.eqb_spec d 0); [lia|].
    destruct (Z.ltb_spec (now + d) now); [done | lia].
  - destruct (Z.eqb_spec d 0); [lia|].
    destruct (Z.ltb_spec (now + d) now); [lia | done].
Qed.

(** * The further properties at the sample database *)

Lemma sample_keys_unique : NoDup (List.map user_id_of (users Sample.db)).
Proof.
  cbn. repeat (apply NoDup_cons_2;
               [rewrite ?elem_of_cons, elem_of_nil; intuition discriminate|]).
  apply NoDup_nil_2.
Qed.

Lemma sample_no_organization (name : string) :
  (length (select_where (fun o => String.eqb (org_name o) name)
             (organizations Sample.db)) <= 1)%nat.
Proof. cbn. lia. Qed.

(** X7: Dave registers with a new organization. *)
Lemma register_user_success_witness :
  exists u db',
    get_db (register_user Sample.settings Sample.bcrypt_hash
              "dave@example.com" "Str0ng#Dd" "Dave" "D" (Some "Acme Corp")
              "verify-dave" "0a1b2c3d") Sample.db = (db', Return u)
    /\ users db' = users Sample.db ++ [u]
    /\ status u = PENDING.
Proof.
  destruct (register_user_success Sample.settings Sample.bcrypt_hash
              Sample.db "dave@example.com" "Str0ng#Dd" "Dave" "D"
              (Some "Acme Corp") "verify-dave" "0a1b2c3d" eq_refl eq_refl
              (fun _ => sample_no_organization _))
    as (u & db' & H1 & H2 & _ & _ & _ & _ & H3 & _).
  by exists u, db'.
Defined.

(** X8: Dave becomes the administrator of the organization he names. *)
Lemma register_user_role_witness :
  exists u o,
    snd (get_db (register_user Sample.settings Sample.bcrypt_hash
                   "dave@example.com" "Str0ng#Dd" "Dave" "D"
                   (Some "Acme Corp") "verify-dave" "0a1b2c3d") Sample.db)
    = Return u
    /\ role u = ADMIN
    /\ org_slug o = "acme-corp-0a1b2c3d"
    /\ user_count o = 1.
Proof.
  destruct (register_user_role Sample.settings Sample.bcrypt_hash
              Sample.db "dave@example.com" "Str0ng#Dd" "Dave" "D"
              (Some "Acme Corp") "verify-dave" "0a1b2c3d" eq_refl eq_refl)
    as (_ & H & _).
  destruct (H eq_refl eq_refl) as (u & o & H1 & H2 & _ & _ & _ & H3 & H4 & _).
  exists u, o. split_and!; [exact H1 | exact H2 | exact H3 | exact H4].
Defined.

(** X10: Dave registers, verifies his email and logs in. *)
Lemma register_verify_login_witness :
  exists u db1 db2 u2 access refresh,
    get_db (register_user Sample.settings Sample.bcrypt_hash
              "dave@example.com" "Str0ng#Dd" "Dave" "D" None
              "verify-dave" "0a1b2c3d") Sample.db = (db1, Return u)
    /\ snd (get_db (Sample.authenticate "dave@example.com" "Str0ng#Dd"
                      None None 2000 "s-9") db1)
       = Raise (AuthenticationError "Account is not active")
    /\ get_db (verify_email "verify-dave" 1500) db1
       = (db2, Return (after_verify_email 1500 u))
    /\ snd (get_db (Sample.authenticate "dave@example.com" "Str0ng#Dd"
                      None None 2000 "s-9") db2)
       = Return (u2, access, refresh)
    /\ user_id_of u2 = user_id_of u
    /\ email u2 = "dave@example.com".
Proof.
  apply (register_verify_login Sample.settings Sample.bcrypt_hash
           Sample.bcrypt_verify 5 900 Sample.db "dave@example.com"
           "Str0ng#Dd" "Dave" "D" None "verify-dave" "0a1b2c3d" None None
           1500 2000 "s-9" eq_refl eq_refl
           (fun _ => sample_no_organization _) eq_refl eq_refl).
Defined.

(** X11: the registration of Dave through the endpoint. *)
Lemma register_endpoint_never_succeeds_witness :
  exists db1,
    Endpoints.register_user Sample.settings Sample.bcrypt_hash
      Sample.bcrypt_verify 5 900 "dave@example.com" "Str0ng#Dd" "Dave" "D"
      None None None 2000 "verify-dave" "0a1b2c3d" "s-9" Sample.db
    = (db1, inl {| http_status := 401;
                   err_code := "AUTHENTICATION_ERROR";
                   err_message := "Account is not active" |})
    /\ length (users db1) = 4%nat.
Proof.
  destruct (register_endpoint_never_succeeds Sample.settings
              Sample.bcrypt_hash Sample.bcrypt_verify 5 900 Sample.db
              "dave@example.com" "Str0ng#Dd" "Dave" "D" None None None 2000
              "verify-dave" "0a1b2c3d" "s-9") as [_ H].
  eexists. split.
  - refine (proj1 (H _ _ eq_refl eq_refl)).
  - reflexivity.
Defined.

(** X12: Bob asks for a reset at 1000 and uses the token at 2000, with a
    password that satisfies the policy, and again at 4601, after the hour. *)
Lemma reset_token_lifecycle_witness :
  let bob1 := after_reset_request 1000 "reset-bob" Sample.bob in
  get_db (request_password_reset "bob@example.com" 1000 "reset-bob") Sample.db
  = (store_user bob1 Sample.db, Return bob1)
  /\ get_db (reset_password Sample.settings Sample.bcrypt_hash "reset-bob"
               "N3w!Passw" 2000) (store_user bob1 Sample.db)
     = (store_user bob1 Sample.db, Raise AttributeError)
  /\ get_db (reset_password Sample.settings Sample.bcrypt_hash "reset-bob"
               "N3w!Passw" 4601) (store_user bob1 Sample.db)
     = (store_user bob1 Sample.db,
        Raise (ValidationError "Reset token has expired")).
Proof.
  intros bob1.
  assert (Hfresh : forall r, In r (users Sample.db) ->
                     password_reset_token r <> Some "reset-bob").
  { intros r [<-|[<-|[<-|[]]]]; discriminate. }
  destruct (reset_token_lifecycle Sample.settings Sample.bcrypt_hash
              Sample.db "bob@example.com" 1000 "reset-bob" Sample.bob
              sample_keys_unique eq_refl Hfresh)
    as (H1 & _ & _ & _ & H2 & _ & H3).
  split; [exact H1|]. split.
  - apply H3; [vm_compute; discriminate | reflexivity].
  - apply H2. reflexivity.
Defined.


(** X16: a logout request, which raises [AttributeError]. *)
Lemma operation_exception_classes_witness :
  exception_class AttributeError ∈ may_raise (OpLogout 1 None)
  /\ exception_class AttributeError <> "ConflictError"
  /\ http_status (exception_handler AttributeError) <> 409.
Proof.
  apply (operation_exception_classes Sample.settings Sample.bcrypt_hash
           Sample.bcrypt_verify 5 900 (OpLogout 1 None) Sample.db).
  reflexivity.
Defined.

(** X17: Alice's reset request at 4000, which raises [AttributeError] after
    the assignments to her row. *)
Lemma failed_operation_stores_nothing_witness :
  run_operation Sample.settings Sample.bcrypt_hash Sample.bcrypt_verify 5 900
    (OpResetPassword "reset-alice" "N3w!Passw" 4000) Sample.db
  = Sample.db.
Proof.
  apply (failed_operation_stores_nothing Sample.settings Sample.bcrypt_hash
           Sample.bcrypt_verify 5 900
           (OpResetPassword "reset-alice" "N3w!Passw" 4000) Sample.db
           AttributeError);
    reflexivity.
Defined.

(** X25: a token for Alice with a lifetime of minus one minute, and one with
    a lifetime of one minute, at 1000. *)
Lemma access_token_lifetime_edges_witness :
  verify_token Sample.settings
    (create_access_token Sample.settings (access_token_data Sample.alice)
       (Some (-60)) 1000) 1000
  = Raise (AuthenticationError "Invalid token")
  /\ verify_token Sample.settings
       (create_access_token Sample.settings (access_token_data Sample.alice)
          (Some 60) 1000) 1000
     = Return (<["exp" := JInt 1060]> (access_token_data Sample.alice)).
Proof.
  assert (Hnow : is_datetime 1000) by (vm_compute; split; discriminate).
  split.
  - apply (access_token_lifetime_edges Sample.settings
             (access_token_data Sample.alice) 1000 (-60) Hnow).
    + vm_compute; split; discriminate.
    + apply access_token_data_valid.
    + reflexivity.
  - apply (access_token_lifetime_edges Sample.settings
             (access_token_data Sample.alice) 1000 60 Hnow).
    + vm_compute; split; discriminate.
    + apply access_token_data_valid.
    + reflexivity.
Defined.

(** X20: a reset request for Bob and one for an unknown email. *)
Lemma password_reset_request_endpoint_witness :
  (exists db1 m,
     Endpoints.request_password_reset "bob@example.com" 1000 "reset-bob"
       Sample.db = (db1, inr m))
  /\ exists err,
       Endpoints.request_password_reset "nobody@example.com" 1000 "reset-x"
         Sample.db = (Sample.db, inl err)
       /\ http_status err = 404.
Proof.
  destruct (password_reset_request_endpoint "bob@example.com" 1000
              "reset-bob" Sample.db) as [H1 _].
  destruct (password_reset_request_endpoint "nobody@example.com" 1000
              "reset-x" Sample.db) as [_ H2].
  split.
  - eexists _, _. apply (H1 Sample.bob). reflexivity.
  - eexists. split; [apply H2; reflexivity | reflexivity].
Defined.
